(** * metarmap: the weather classification pipeline and the blink scheduler

    A shallow embedding of [metarthread.py].  The program polls METAR
    reports for a list of stations, computes one (colour, blink) target per
    LED position and runs one blink thread per windy station.

    Modelling choices, all local to this file:
    - Python exceptions are the constructors of [exn]; fallible code lives
      in the monad [M], which threads the observable [world] (logical
      clock, live blink threads, the global STOPFLAG, emitted events) and
      stops at the first raise.
    - A Python float is held as the rational number ([Q]) it is equal to;
      infinities and NaN are no arguments of the model.  Where the program
      rounds (the quotients of lines 100 and 291, the product of line 291)
      the model rounds to the nearest float ([nearest_float]); the half
      period [blinkrate/2] is taken exactly, as it is for every float
      above the subnormal range.
    - Durations are in seconds; [sleep d] advances the logical clock by
      exactly [d], and raises ValueError for a negative [d]; the upper
      limit a platform puts on the length of a sleep is not part of the
      model.  Thread interleaving is resolved by this logical clock.
    - A character of a [string] is a Unicode code point below 256.
    - The Python builtins used on feed text ([int], [float], [round],
      [datetime.fromisoformat]) are the fields of the class [PyRuntime].
    - [conditionDict] is a [gmap string condition]. *)

From Stdlib Require Import ZArith QArith Qround Qabs Qpower.
From Stdlib Require Import String Ascii List Lia Lqa.
From stdpp Require Import base option list gmap strings.

Open Scope string_scope.
Open Scope Z_scope.

(** ** Exceptions and results *)

Inductive exn : Type :=
  | URLError            (* urllib.request.urlopen failed *)
  | ParseError          (* ET.fromstring failed *)
  | OSError             (* open("/MetarMap/airports") failed *)
  | AttributeError
  | TypeError
  | ValueError
  | OverflowError
  | UnboundLocalError
  | IndexError
  | ZeroDivisionError.

Inductive result (A : Type) : Type :=
  | Ok (a : A)
  | Raise (e : exn).
Arguments Ok {A} a.
Arguments Raise {A} e.

Definition is_ok {A} (r : result A) : bool :=
  match r with Ok _ => true | Raise _ => false end.

(** ** Configuration (lines 22-72) *)

Definition color : Type := Z * Z * Z.

Definition COLOR_VFR : color := (255, 0, 0).
Definition COLOR_MVFR : color := (0, 0, 255).
Definition COLOR_IFR : color := (0, 255, 0).
Definition COLOR_LIFR : color := (0, 125, 125).
Definition COLOR_CLEAR : color := (0, 0, 0).
Definition COLOR_LIGHTNING : color := (255, 255, 255).

Definition DONTSTOP : Z := -1.

(** The tunable constants of the configuration block.  [has_display] is the
    outcome of [displaymetar is not None and ACTIVATE_EXTERNAL_METAR_DISPLAY]
    (line 92): the import on lines 11-14 may fail. *)
Record config : Type := {
  LED_COUNT : nat;
  ACTIVATE_WINDCONDITION_ANIMATION : bool;
  WIND_BLINK_THRESHOLD : Z;
  ALWAYS_BLINK_FOR_GUSTS : bool;
  BLINK_SPEED : Q;
  REFRESH_TIME_SECONDS : Q;
  DISPLAY_ROTATION_SPEED : Q;
  FAST_BLINK_DISPLAYED_STATION : bool;
  FAST_BLINK_SPEED : Q;
  has_display : bool
}.

(** The values written in the source, with and without the display module.
    [FAST_BLINK_SPEED] is the float that the literal [0.1] denotes. *)
Definition source_config (display : bool) : config := {|
  LED_COUNT := 50;
  ACTIVATE_WINDCONDITION_ANIMATION := true;
  WIND_BLINK_THRESHOLD := 25;
  ALWAYS_BLINK_FOR_GUSTS := false;
  BLINK_SPEED := 2 # 1;
  REFRESH_TIME_SECONDS := 1800 # 1;
  DISPLAY_ROTATION_SPEED := 5 # 1;
  FAST_BLINK_DISPLAYED_STATION := true;
  FAST_BLINK_SPEED := 3602879701896397 # 36028797018963968;
  has_display := display
|}.

(** Python's [int(x)] on a number: truncation toward zero. *)
Definition py_trunc (q : Q) : Z := Z.quot (Qnum q) (Zpos (Qden q)).

(** ** Float arithmetic *)

(** [floor(log2 x)] for a positive [x]. *)
Definition ilog2 (x : Q) : Z :=
  let k := Z.log2 (Qnum x) - Z.log2 (Z.pos (Qden x)) in
  if Qle_bool (2 ^ k) x then k else k - 1.

(** The integer nearest to [x], the even one of two equally near. *)
Definition round_half_even (x : Q) : Z :=
  let f := Qfloor x in
  match (x - inject_Z f ?= 1 # 2)%Q with
  | Lt => f
  | Gt => f + 1
  | Eq => if Z.even f then f else f + 1
  end.

(** The float nearest to the real number [x] (IEEE 754 binary64, round to
    nearest, ties to even): 53 significant bits, a smallest spacing of
    [2 ** -1074]; [None] stands for an infinity, the result when the
    rounded magnitude reaches [2 ** 1024]. *)
Definition nearest_float (x : Q) : option Q :=
  let a := Qabs x in
  if Qeq_bool a 0 then Some 0%Q
  else
    let e := Z.max (ilog2 a - 52) (-1074) in
    let r := (inject_Z (round_half_even (a / 2 ^ e)) * 2 ^ e)%Q in
    if Qle_bool (2 ^ 1024) r then None
    else Some (Qred (if Qle_bool 0 x then r else - r)).

(** [x] is the value of a float. *)
Definition is_float (x : Q) : Prop :=
  match nearest_float x with
  | Some r => (r == x)%Q
  | None => False
  end.

(** [int(a / b)] for floats [a] and [b] (lines 100 and 291): [a / b] raises
    ZeroDivisionError for a zero divisor and is otherwise the float nearest
    to the quotient; [int] raises OverflowError for an infinity and
    truncates toward zero otherwise. *)
Definition int_quotient (a b : Q) : result Z :=
  if Qeq_bool b 0 then Raise ZeroDivisionError
  else match nearest_float (a / b) with
       | None => Raise OverflowError
       | Some q => Ok (py_trunc q)
       end.

(** ** Observable events *)

(** What one formatted log line carries (the text itself is not rebuilt). *)
Inductive log_msg : Type :=
  | MsgInit (line : nat)
  | MsgRetrieving (url_stations : string)
  | MsgStation (stationId flightCategory : string) (windSpeed : Z)
      (gust : option Z) (vis : Z) (obs : string) (tempC dewpointC : Z)
      (lightning : bool)
  | MsgKillAll
  | MsgReady.

Inductive event : Type :=
  | SetPixel (p : nat) (c : color)      (* pixels[p] = c *)
  | Show                                (* pixels.show() *)
  | Sleep (d : Q)                       (* sleep(d) *)
  | Poll (seen : Z)                     (* a read of STOPFLAG by blinkme *)
  | Print (s : string)
  | LogInfo (m : log_msg)
  | OutputMetar (p : nat) (station : string)
  | ThreadStart (tid p : nat)
  | ThreadJoin (tid : nat)
  | SetStopFlag (v : Z).

(** ** Blink threads and the world *)

(** A started [threading.Thread(target=blinkme, args=(p, c, time, rate))]:
    its arguments and the logical time of [start()]. *)
Record task : Type := {
  t_pixel : nat;
  t_color : color;
  t_time : Q;          (* time *)
  t_rate : Q;          (* blinkrate *)
  t_start : Q
}.

Record world : Type := {
  clock : Q;
  pool : gmap nat task;      (* threads started and not yet known dead *)
  next_tid : nat;
  STOPFLAG : Z;
  out : list event           (* events of the main thread, oldest first *)
}.

Definition initial_world : world :=
  {| clock := 0; pool := ∅; next_tid := 0; STOPFLAG := DONTSTOP; out := [] |}.

(** ** The monad of the main thread *)

Definition M (A : Type) : Type := world → result A * world.

Definition ret {A} (a : A) : M A := λ w, (Ok a, w).
Definition raise {A} (e : exn) : M A := λ w, (Raise e, w).
Definition bind {A B} (m : M A) (k : A → M B) : M B :=
  λ w, match m w with
       | (Ok a, w') => k a w'
       | (Raise e, w') => (Raise e, w')
       end.

#[global] Instance M_ret : MRet M := @ret.
#[global] Instance M_bind : MBind M := λ A B k m, bind m k.

Definition emit (e : event) : M unit :=
  λ w, (Ok tt, {| clock := clock w; pool := pool w; next_tid := next_tid w;
                  STOPFLAG := STOPFLAG w; out := (out w ++ [e])%list |}).

Definition lift {A} (r : result A) : M A :=
  match r with Ok a => ret a | Raise e => raise e end.

(** [for x in xs: st = body x st], stopping at the first raise. *)
Fixpoint for_each {A S} (body : A → S → M S) (xs : list A) (st : S) : M S :=
  match xs with
  | [] => ret st
  | x :: xs' => bind (body x st) (for_each body xs')
  end.

(** [for x in xs: ys.append(f x)], stopping at the first raise. *)
Fixpoint map_result {A B} (f : A → result B) (xs : list A) : result (list B) :=
  match xs with
  | [] => Ok []
  | x :: xs' =>
      match f x with
      | Raise e => Raise e
      | Ok y => match map_result f xs' with
                | Raise e => Raise e
                | Ok ys => Ok (y :: ys)
                end
      end
  end.

(** ** The Python builtins applied to feed text *)

(** [int(s)], [float(s)] and [fromisoformat(s)] answer [None] where Python
    raises ValueError; [py_round_int x] is [int(round(x))], which raises on
    NaN and on the infinities; [py_round2 x] is [float(round(x, 2))]. *)
Class PyRuntime : Type := {
  pyfloat : Type;
  datetime : Type;
  py_int : string → option Z;
  py_float : string → option pyfloat;
  py_round_int : pyfloat → result Z;
  py_round2 : pyfloat → pyfloat;
  float_zero : pyfloat;
  fromisoformat : string → option datetime
}.

(** A runtime whose numeric literals are unsigned ASCII decimals, enough
    to run the concrete feeds below.  Floats are integers here and a
    timestamp is kept as its text. *)
Definition digit_of (c : ascii) : option Z :=
  let n := Z.of_nat (nat_of_ascii c) in
  if (48 <=? n) && (n <=? 57) then Some (n - 48) else None.

Fixpoint decimal_of (s : string) (acc : Z) : option Z :=
  match s with
  | EmptyString => Some acc
  | String c s' =>
      match digit_of c with
      | Some d => decimal_of s' (10 * acc + d)
      | None => None
      end
  end.

Definition parse_decimal (s : string) : option Z :=
  match s with
  | EmptyString => None
  | _ => decimal_of s 0
  end.

Definition decimal_runtime : PyRuntime := {|
  pyfloat := Z;
  datetime := string;
  py_int := parse_decimal;
  py_float := parse_decimal;
  py_round_int := Ok;
  py_round2 := id;
  float_zero := 0;
  fromisoformat := Some
|}.

(** ** The feed: raw station records *)

(** [Element.text] is a string or None. *)
Definition text : Type := option string.

(** One <sky_condition> element: its two attributes, when present. *)
Record sky_condition : Type := {
  sky_cover : option string;
  cloud_base_ft_agl : option string
}.

(** One <METAR> element: for each tag the first child of that name, as
    [metar.find(tag)] returns it ([None] when there is none), and all
    <sky_condition> descendants in document order. *)
Record METAR : Type := {
  station_id : option text;
  flight_category : option text;
  wind_gust_kt : option text;
  wind_speed_kt : option text;
  wind_dir_degrees : option text;
  temp_c : option text;
  dewpoint_c : option text;
  visibility_statute_mi : option text;
  altim_in_hg : option text;
  wx_string : option text;
  observation_time : option text;
  sky_conditions : list sky_condition;
  raw_text : option text
}.

(** What [urlopen(req).read()] followed by [ET.fromstring] yields: a
    transport failure, a parse failure, or the <METAR> elements of the
    document in order. *)
Inductive response : Type :=
  | NetFail
  | Malformed
  | Document (metars : list METAR).

(** [s.replace("Z", "+00:00")] *)
Fixpoint replace_Z (s : string) : string :=
  match s with
  | EmptyString => EmptyString
  | String c s' =>
      if Ascii.eqb c "Z"%char then String.append "+00:00" (replace_Z s')
      else String c (replace_Z s')
  end.

(** [rawText.find('LTG') != -1] *)
Definition has_LTG (rawText : string) : bool :=
  match String.index 0 "LTG" rawText with
  | Some _ => true
  | None => false
  end.

Section Weather.

Context {RT : PyRuntime}.
Variable cfg : config.

(** ** Station conditions (the dict literal on line 229) *)

Record skyCond : Type := {
  cover : option string;
  cloudBaseFt : Z
}.

Record condition : Type := {
  flightCategory : string;
  windDir : text;
  windSpeed : Z;
  windGustSpeed : Z;
  windGust : bool;
  vis : Z;
  obs : string;
  tempC : Z;
  dewpointC : Z;
  altimHg : pyfloat;
  lightning : bool;
  skyConditions : list skyCond;
  obsTime : datetime
}.

(** The variables of [get_weather] that survive from one iteration of the
    loop to the next.  [obsTime] is a function-level local: it is unbound
    ([None]) until some record assigns it, and then keeps its value. *)
Record loop_state : Type := {
  conditionDict : gmap string condition;
  stationList : list string;
  obsTime_var : option datetime
}.

(** [int(t)] on an element text: TypeError on None, ValueError on junk. *)
Definition int_of_text (t : text) : result Z :=
  match t with
  | None => Raise TypeError
  | Some s => match py_int s with Some z => Ok z | None => Raise ValueError end
  end.

(** [float(t)] on an element text. *)
Definition float_of_text (t : text) : result pyfloat :=
  match t with
  | None => Raise TypeError
  | Some s => match py_float s with Some x => Ok x | None => Raise ValueError end
  end.

(** [int(round(float(t)))] *)
Definition rounded_of_text (t : text) : result Z :=
  match float_of_text t with
  | Raise e => Raise e
  | Ok x => py_round_int x
  end.

(** The operand of a [str + ...] concatenation: TypeError on None. *)
Definition str_operand (t : text) : result string :=
  match t with Some s => Ok s | None => Raise TypeError end.

(** Line 215, for one <sky_condition>. *)
Definition read_sky (sk : sky_condition) : result skyCond :=
  match (match cloud_base_ft_agl sk with
         | Some s => int_of_text (Some s)
         | None => Ok 0
         end) with
  | Raise e => Raise e
  | Ok ft => Ok {| cover := sky_cover sk; cloudBaseFt := ft |}
  end.

(** The body of the loop on lines 178-230 for one <METAR>. *)
Definition process_metar (metar : METAR) (st : loop_state) : M loop_state :=
  stationId ← lift (match station_id metar with
                    | None => Raise AttributeError
                    | Some t => Ok t
                    end);
  match flight_category metar with
  | None =>
      emit (Print "Missing flight condition, skipping.");;
      mret st
  | Some flightCategory_t =>
      gust ← lift (match wind_gust_kt metar with
                   | Some t =>
                       match int_of_text t with
                       | Raise e => Raise e
                       | Ok g => Ok (g, ALWAYS_BLINK_FOR_GUSTS cfg
                                        || (g >? WIND_BLINK_THRESHOLD cfg))
                       end
                   | None => Ok (0, false)
                   end);
      windSpeed_v ← lift (match wind_speed_kt metar with
                          | Some t => int_of_text t
                          | None => Ok 0
                          end);
      let windDir_v := match wind_dir_degrees metar with
                       | Some t => t
                       | None => Some ""
                       end in
      tempC_v ← lift (match temp_c metar with
                      | Some t => rounded_of_text t
                      | None => Ok 0
                      end);
      dewpointC_v ← lift (match dewpoint_c metar with
                          | Some t => rounded_of_text t
                          | None => Ok 0
                          end);
      vis_v ← lift (match visibility_statute_mi metar with
                    | Some t => rounded_of_text t
                    | None => Ok 0
                    end);
      altimHg_v ← lift (match altim_in_hg metar with
                        | Some t =>
                            match float_of_text t with
                            | Raise e => Raise e
                            | Ok x => Ok (py_round2 x)
                            end
                        | None => Ok float_zero
                        end);
      let obs_t := match wx_string metar with
                   | Some t => t
                   | None => Some ""
                   end in
      obsTime_v ← lift (match observation_time metar with
                        | Some None => Raise AttributeError
                        | Some (Some s) =>
                            match fromisoformat (replace_Z s) with
                            | Some d => Ok (Some d)
                            | None => Raise ValueError
                            end
                        | None => Ok (obsTime_var st)
                        end);
      skyConditions_v ← lift (map_result read_sky (sky_conditions metar));
      lightning_v ← lift (match raw_text metar with
                          | Some None => Raise AttributeError
                          | Some (Some rawText) => Ok (has_LTG rawText)
                          | None => Ok false
                          end);
      sid ← lift (str_operand stationId);
      fc ← lift (str_operand flightCategory_t);
      obs_v ← lift (str_operand obs_t);
      emit (LogInfo (MsgStation sid fc windSpeed_v
                       (if gust.2 then Some gust.1 else None)
                       vis_v obs_v tempC_v dewpointC_v lightning_v));;
      obsTime_b ← lift (match obsTime_v with
                        | Some d => Ok d
                        | None => Raise UnboundLocalError
                        end);
      mret {| conditionDict :=
                <[sid := {| flightCategory := fc; windDir := windDir_v;
                            windSpeed := windSpeed_v;
                            windGustSpeed := gust.1; windGust := gust.2;
                            vis := vis_v; obs := obs_v; tempC := tempC_v;
                            dewpointC := dewpointC_v; altimHg := altimHg_v;
                            lightning := lightning_v;
                            skyConditions := skyConditions_v;
                            obsTime := obsTime_b |}]> (conditionDict st);
              stationList := (stationList st ++ [sid])%list;
              obsTime_var := Some obsTime_b |}
  end.

(** [",".join([item for item in airports if item != "NULL"])] *)
Definition station_string (airports : list string) : string :=
  String.concat "," (filter (λ item, item ≠ "NULL") airports).

(** [get_weather] (lines 166-231).  [net] is the data server: what the
    request for a given station string comes back as. *)
Definition get_weather (net : string → response) (airports : list string)
  : M (gmap string condition) :=
  emit (LogInfo (MsgRetrieving (station_string airports)));;
  match net (station_string airports) with
  | NetFail => raise URLError
  | Malformed => raise ParseError
  | Document metars =>
      st ← for_each process_metar metars
             {| conditionDict := ∅; stationList := []; obsTime_var := None |};
      mret (conditionDict st)
  end.

(** ** calc_target_colors (lines 234-264) *)

(** The body of the loop for one [airportcode]: the pair appended. *)
Definition target_entry (conditions : gmap string condition)
    (airportcode : string) : color * bool :=
  if decide (airportcode ≠ "") then
    match conditions !! airportcode with
    | Some c =>
        let windy := ACTIVATE_WINDCONDITION_ANIMATION cfg
                     && ((windSpeed c >? WIND_BLINK_THRESHOLD cfg)
                         || bool_decide (windGust c = true)) in
        let colour :=
          if lightning c then COLOR_LIGHTNING
          else if String.eqb (flightCategory c) "VFR" then COLOR_VFR
          else if String.eqb (flightCategory c) "MVFR" then COLOR_MVFR
          else if String.eqb (flightCategory c) "IFR" then COLOR_IFR
          else if String.eqb (flightCategory c) "LIFR" then COLOR_LIFR
          else COLOR_CLEAR in
        (colour, windy)
    | None => (COLOR_CLEAR, false)
    end
  else (COLOR_CLEAR, false).

Definition calc_target_colors (stations : list string)
    (conditions : gmap string condition) : list (color * bool) :=
  foldl (λ target_colors airportcode,
           (target_colors ++ [target_entry conditions airportcode])%list)
        [] stations.

End Weather.

(** ** blinkme (lines 99-112) *)

Inductive blink_exit : Type :=
  | Returned              (* the for loop ran out *)
  | Stopped               (* left through [break] *)
  | Crashed (e : exn).

(** One run of [blinkme]: the events it produced, the logical time at
    which it ended, and how it ended. *)
Record blink_run : Type := {
  trace : list event;
  finish : Q;
  exit : blink_exit
}.

(** The seven steps of one pass through the loop body, ending with the
    read of STOPFLAG. *)
Definition blink_body (pixelnum : nat) (colour : color) (blinkrate : Q)
    (seen : Z) : list event :=
  [ SetPixel pixelnum COLOR_CLEAR; Show; Sleep (blinkrate / 2);
    SetPixel pixelnum colour; Show; Sleep (blinkrate / 2); Poll seen ].

(** [for i in range(n)] of [blinkme], started at logical time [now].
    [stopflag t] is the value the global STOPFLAG holds at time [t]. *)
Fixpoint blink_loop (stopflag : Q → Z) (pixelnum : nat) (colour : color)
    (blinkrate : Q) (n : nat) (now : Q) : blink_run :=
  match n with
  | O => {| trace := []; finish := now; exit := Returned |}
  | S n' =>
      let now' := (now + blinkrate / 2 + blinkrate / 2)%Q in
      let body := blink_body pixelnum colour blinkrate (stopflag now') in
      if decide (stopflag now' = Z.of_nat pixelnum) then
        {| trace := body; finish := now'; exit := Stopped |}
      else
        let r := blink_loop stopflag pixelnum colour blinkrate n' now' in
        {| trace := (body ++ trace r)%list; finish := finish r; exit := exit r |}
  end.

Section Scheduler.

Context {RT : PyRuntime}.
Variable cfg : config.

(** [blinkme(pixelnum, color, time, blinkrate)] started at time [now].
    [pixelnum] is a position index; the strip holds [LED_COUNT] pixels and
    a write past its end raises IndexError, [sleep] of a negative length
    raises ValueError, and [int(time/blinkrate)] raises on a zero divisor
    and on an infinite quotient. *)
Definition blinkme (stopflag : Q → Z) (pixelnum : nat) (colour : color)
    (time blinkrate : Q) (now : Q) : blink_run :=
  match int_quotient time blinkrate with
  | Raise e => {| trace := []; finish := now; exit := Crashed e |}
  | Ok numblinks =>
    if numblinks <=? 0 then
      {| trace := []; finish := now; exit := Returned |}
    else if negb (pixelnum <? LED_COUNT cfg)%nat then
      {| trace := []; finish := now; exit := Crashed IndexError |}
    else if negb (Qle_bool 0 (blinkrate / 2)) then
      {| trace := [SetPixel pixelnum COLOR_CLEAR; Show]; finish := now;
         exit := Crashed ValueError |}
    else blink_loop stopflag pixelnum colour blinkrate (Z.to_nat numblinks) now
  end.

(** The events of a list that are writes to position [p], in order. *)
Definition writes_to (p : nat) (evs : list event) : list color :=
  omap (λ e, match e with
             | SetPixel q c => if decide (q = p) then Some c else None
             | _ => None
             end) evs.

(** The logical times, counted from [now], at which a trace reads
    STOPFLAG: each [Sleep] moves time on. *)
Fixpoint poll_times (now : Q) (evs : list event) : list Q :=
  match evs with
  | [] => []
  | Sleep d :: evs' => poll_times (now + d)%Q evs'
  | Poll _ :: evs' => now :: poll_times now evs'
  | _ :: evs' => poll_times now evs'
  end.

(** The number of passes through the loop body a trace contains. *)
Definition is_poll (e : event) : bool :=
  match e with Poll _ => true | _ => false end.

Definition cycles_of (evs : list event) : nat :=
  length (List.filter is_poll evs).

(** ** Thread bookkeeping *)

(** How many passes a started thread makes when never stopped. *)
Definition task_cycles (t : task) : Z :=
  match int_quotient (t_time t) (t_rate t) with
  | Raise _ => 0
  | Ok numblinks =>
      if negb (t_pixel t <? LED_COUNT cfg)%nat then 0
      else if negb (Qle_bool 0 (t_rate t / 2)) then 0
      else Z.max 0 numblinks
  end.

(** The time at which a never-stopped thread returns. *)
Definition deadline (t : task) : Q :=
  (t_start t + inject_Z (task_cycles t) * t_rate t)%Q.

(** The index (from 1) of the first poll of [t] at or after time [a]. *)
Definition poll_index (a : Q) (t : task) : Z :=
  Z.max 1 (Qceiling ((a - t_start t) / t_rate t)).

(** When thread [t], alive at [a], ends if STOPFLAG is [flag] from [a] on. *)
Definition exit_time (flag : Z) (a : Q) (t : task) : Q :=
  if decide (flag = Z.of_nat (t_pixel t) ∧ poll_index a t ≤ task_cycles t)
  then (t_start t + inject_Z (poll_index a t) * t_rate t)%Q
  else deadline t.

Definition Qmax' (a b : Q) : Q := if Qle_bool a b then b else a.

Definition set_world (w : world) (c : Q) (pl : gmap nat task) (evs : list event)
  : world :=
  {| clock := c; pool := pl; next_tid := next_tid w; STOPFLAG := STOPFLAG w;
     out := (out w ++ evs)%list |}.

(** [sleep(d)] in the main thread. *)
Definition sleep (d : Q) : M unit :=
  λ w, if Qle_bool 0 d
       then (Ok tt, set_world w (clock w + d)%Q (pool w) [Sleep d])
       else (Raise ValueError, w).

(** [pixels[p] = c] in the main thread. *)
Definition set_pixel (p : nat) (c : color) : M unit :=
  if (p <? LED_COUNT cfg)%nat then emit (SetPixel p c) else raise IndexError.

Definition set_stopflag (v : Z) : M unit :=
  λ w, (Ok tt, {| clock := clock w; pool := pool w; next_tid := next_tid w;
                  STOPFLAG := v; out := (out w ++ [SetStopFlag v])%list |}).

(** [x = threading.Thread(target=blinkme, args=(p, c, time, rate));
    x.start()]: the handle of the new thread. *)
Definition thread_start (p : nat) (c : color) (time rate : Q) : M nat :=
  λ w, (Ok (next_tid w),
        {| clock := clock w;
           pool := <[next_tid w := {| t_pixel := p; t_color := c;
                                      t_time := time; t_rate := rate;
                                      t_start := clock w |}]> (pool w);
           next_tid := S (next_tid w);
           STOPFLAG := STOPFLAG w;
           out := (out w ++ [ThreadStart (next_tid w) p])%list |}).

(** [threadarray[p].join()]: blocks until that thread is dead.  While the
    main thread waits, STOPFLAG keeps its value, so every thread whose own
    end falls inside the wait is dead afterwards too.  A slot holding ['']
    has no thread: [str.join] without argument raises TypeError. *)
Definition join (handle : option nat) : M unit :=
  match handle with
  | None => raise TypeError
  | Some tid =>
      λ w, match pool w !! tid with
           | None => (Ok tt, set_world w (clock w) (pool w) [ThreadJoin tid])
           | Some t =>
               let b := Qmax' (clock w) (exit_time (STOPFLAG w) (clock w) t) in
               (Ok tt,
                set_world w b
                  (delete tid
                     (filter (λ kv, Qle_bool
                                      (exit_time (STOPFLAG w) (clock w) kv.2) b
                                    = false)
                             (pool w)))
                  [ThreadJoin tid])
           end
  end.

(** A call of [blinkme] by the main thread itself (line 329).  Only the
    main thread writes STOPFLAG, so it is constant during the call. *)
Definition call_blinkme (p : nat) (c : color) (time rate : Q) : M unit :=
  λ w, let r := blinkme (λ _, STOPFLAG w) p c time rate (clock w) in
       (match exit r with Crashed e => Raise e | _ => Ok tt end,
        set_world w (finish r) (pool w) (trace r)).

(** The blink threads still running at the current time. *)
Definition blink_tasks_remaining (w : world) : gmap nat task :=
  filter (λ kv, Qle_bool (deadline kv.2) (clock w) = false) (pool w).

(** ** The main display loop (lines 285-351) *)

(** The outside world of one pass of the loop: the lines of the airports
    file as [readlines] returns them ([None] when it cannot be opened) and
    the data server. *)
Record env : Type := {
  airports_file : option (list string);
  data_server : string → response
}.

(** The characters [str.strip] removes, among the code points below 256:
    U+0009 to U+000D, U+001C to U+0020, U+0085 and U+00A0. *)
Definition is_space (c : ascii) : bool :=
  let n := nat_of_ascii c in
  ((9 <=? n) && (n <=? 13) || (28 <=? n) && (n <=? 32)
   || (n =? 133) || (n =? 160))%nat.

Fixpoint lstrip (s : string) : string :=
  match s with
  | String c s' => if is_space c then lstrip s' else s
  | EmptyString => EmptyString
  end.

Fixpoint rstrip (s : string) : string :=
  match s with
  | String c s' =>
      match rstrip s' with
      | EmptyString => if is_space c then EmptyString else String c EmptyString
      | r => String c r
      end
  | EmptyString => EmptyString
  end.

Definition strip (s : string) : string := rstrip (lstrip s).

(** [get_airport_list] (lines 158-164) *)
Definition get_airport_list (e : env) : M (list string) :=
  match airports_file e with
  | None => raise OSError
  | Some airports => mret (map strip airports)
  end.

(** [initialize_display_and_leds] (lines 80-96): four log lines, a fresh
    strip object, and the display handle when there is one. *)
Definition initialize_display_and_leds : M bool :=
  emit (LogInfo (MsgInit 0));;
  emit (LogInfo (MsgInit 1));;
  emit (LogInfo (MsgInit 2));;
  emit (LogInfo (MsgInit 3));;
  mret (has_display cfg).

(** [xs[p]] *)
Definition index {A} (xs : list A) (p : nat) : M A :=
  match xs !! p with
  | Some x => mret x
  | None => raise IndexError
  end.

(** [STOPFLAG = p; threadarray[p].join(); STOPFLAG = DONTSTOP] *)
Definition stop_and_join (threadarray : list (option nat)) (p : nat) : M unit :=
  set_stopflag (Z.of_nat p);;
  h ← index threadarray p;
  join h;;
  set_stopflag DONTSTOP.

(** Lines 299-307 for one position [p]. *)
Definition spin_up (ledstate : list (color * bool)) (p : nat)
    (threadarray : list (option nat)) : M (list (option nat)) :=
  '(colour, windy) ← index ledstate p;
  if windy : bool then
    x ← thread_start p colour (9999 # 1) (BLINK_SPEED cfg);
    mret (threadarray ++ [Some x])%list
  else mret (threadarray ++ [None])%list.

(** Lines 318-339 for the station at position [p]. *)
Definition rotate_station (ledstate : list (color * bool))
    (conditionDict : gmap string condition) (pm : nat * string)
    (threadarray : list (option nat)) : M (list (option nat)) :=
  let p := pm.1 in
  let metarStation := pm.2 in
  (if FAST_BLINK_DISPLAYED_STATION cfg then
     '(_, windy) ← index ledstate p;
     if windy : bool then stop_and_join threadarray p else mret tt
   else mret tt);;
  if bool_decide (metarStation ≠ "NULL")
     && bool_decide (is_Some (conditionDict !! metarStation)) then
    emit (OutputMetar p metarStation);;
    if FAST_BLINK_DISPLAYED_STATION cfg then
      '(thiscolor, windy) ← index ledstate p;
      call_blinkme p thiscolor (DISPLAY_ROTATION_SPEED cfg)
                   (FAST_BLINK_SPEED cfg);;
      set_pixel p thiscolor;;
      threadarray' ←
        (if windy : bool then
           (if decide (p < length threadarray)%nat then mret tt
            else raise IndexError);;
           x ← thread_start p thiscolor (9999 # 1) (BLINK_SPEED cfg);
           mret (<[p := Some x]> threadarray)
         else mret threadarray);
      emit Show;;
      mret threadarray'
    else
      sleep (DISPLAY_ROTATION_SPEED cfg);;
      mret threadarray
  else mret threadarray.

(** Lines 343-347 for one position [p]. *)
Definition kill_one (ledstate : list (color * bool))
    (threadarray : list (option nat)) (p : nat) (_ : unit) : M unit :=
  '(_, windy) ← index ledstate p;
  if windy : bool then stop_and_join threadarray p else mret tt.

(** Line 291, [int(REFRESH_TIME_SECONDS/(DISPLAY_ROTATION_SPEED*len(airports)))],
    for [n] airports.  The product is a float; were it infinite, the
    quotient would be zero. *)
Definition num_display_loops (n : nat) : result Z :=
  match nearest_float (DISPLAY_ROTATION_SPEED cfg * inject_Z (Z.of_nat n)) with
  | None => Ok 0
  | Some divisor => int_quotient (REFRESH_TIME_SECONDS cfg) divisor
  end.

(** One pass of [while True] (lines 286-351). *)
Definition cycle (e : env) : M unit :=
  disp ← initialize_display_and_leds;
  airports ← get_airport_list e;
  conditionDict ← get_weather cfg (data_server e) airports;
  let ledstate := calc_target_colors cfg airports conditionDict in
  num_display_loops ← lift (num_display_loops (length airports));
  let positions := seq 0 (length ledstate) in
  for_each (λ p _, '(colour, _) ← index ledstate p; set_pixel p colour)
           positions tt;;
  threadarray ← for_each (spin_up ledstate) positions [];
  emit Show;;
  (if disp : bool then
     threadarray' ←
       for_each (λ (_ : nat) ta,
                   for_each (rotate_station ledstate conditionDict)
                            (zip (seq 0 (length airports)) airports) ta)
                (seq 0 (Z.to_nat num_display_loops)) threadarray;
     emit (LogInfo MsgKillAll);;
     for_each (kill_one ledstate threadarray') positions tt
   else sleep (REFRESH_TIME_SECONDS cfg));;
  emit (LogInfo MsgReady).

(** The first [length envs] passes of [while True]; an exception leaving
    a pass ends the loop. *)
Fixpoint main_loop (envs : list env) : M unit :=
  match envs with
  | [] => mret tt
  | e :: envs' => cycle e;; main_loop envs'
  end.

End Scheduler.

(** ** Reading a record the way the claims speak about it *)

Section Readings.

Context {RT : PyRuntime}.
Variable cfg : config.

(** The gust a record reports: [None] when it has no <wind_gust_kt>. *)
Definition reported_gust (metar : METAR) : option Z :=
  match wind_gust_kt metar with
  | Some t => match int_of_text t with Ok g => Some g | Raise _ => None end
  | None => None
  end.

(** The wind speed a record reports, 0 when it has no <wind_speed_kt>. *)
Definition reported_speed (metar : METAR) : Z :=
  match wind_speed_kt metar with
  | Some t => match int_of_text t with Ok v => v | Raise _ => 0 end
  | None => 0
  end.



(** Whether a record is one for station [sid] that carries a flight
    category. *)
Definition classifies (sid : string) (metar : METAR) : Prop :=
  station_id metar = Some (Some sid) ∧ flight_category metar ≠ None.

(** The optional fields named by the specification are all absent. *)
Definition optionals_absent (metar : METAR) : Prop :=
  wind_gust_kt metar = None ∧ wind_speed_kt metar = None
  ∧ wind_dir_degrees metar = None ∧ temp_c metar = None
  ∧ dewpoint_c metar = None ∧ visibility_statute_mi metar = None
  ∧ altim_in_hg metar = None ∧ wx_string metar = None.

End Readings.

(** ** Invariants of the scheduler *)

(** A computation that leaves the set of threads alone. *)
Definition keeps_pool {A} (m : M A) : Prop :=
  ∀ w r w', m w = (r, w') → pool w' = pool w.

(** Every thread in the pool is the one [threadarray] holds for some
    position whose target entry is animated. *)
Definition owned (ledstate : list (color * bool))
    (threadarray : list (option nat)) (pl : gmap nat task) : Prop :=
  ∀ tid, is_Some (pl !! tid) →
    ∃ (p : nat) c,
      threadarray !! p = Some (Some tid) ∧ ledstate !! p = Some (c, true).

(** ** Concrete feeds and environments *)

(** A <METAR> with no children at all. *)
Definition empty_metar : METAR := {|
  station_id := None; flight_category := None; wind_gust_kt := None;
  wind_speed_kt := None; wind_dir_degrees := None; temp_c := None;
  dewpoint_c := None; visibility_statute_mi := None; altim_in_hg := None;
  wx_string := None; observation_time := None; sky_conditions := [];
  raw_text := None
|}.

(** A station that reports only its identifier. *)
Definition metar_no_category : METAR := {|
  station_id := Some (Some "KBOS"); flight_category := None;
  wind_gust_kt := None; wind_speed_kt := None; wind_dir_degrees := None;
  temp_c := None; dewpoint_c := None; visibility_statute_mi := None;
  altim_in_hg := None; wx_string := None; observation_time := None;
  sky_conditions := []; raw_text := None
|}.

(** A station that reports identifier and flight category, nothing else. *)
Definition metar_no_time : METAR := {|
  station_id := Some (Some "KBOS"); flight_category := Some (Some "VFR");
  wind_gust_kt := None; wind_speed_kt := None; wind_dir_degrees := None;
  temp_c := None; dewpoint_c := None; visibility_statute_mi := None;
  altim_in_hg := None; wx_string := None; observation_time := None;
  sky_conditions := []; raw_text := None
|}.

(** The same station with an observation time and nothing optional. *)
Definition metar_time_only : METAR := {|
  station_id := Some (Some "KJFK"); flight_category := Some (Some "IFR");
  wind_gust_kt := None; wind_speed_kt := None; wind_dir_degrees := None;
  temp_c := None; dewpoint_c := None; visibility_statute_mi := None;
  altim_in_hg := None; wx_string := None;
  observation_time := Some (Some "2024-05-01T12:00:00Z");
  sky_conditions := []; raw_text := None
|}.

(** VFR with a 30 kt wind: above the 25 kt threshold of the source. *)
Definition metar_windy : METAR := {|
  station_id := Some (Some "KBOS"); flight_category := Some (Some "VFR");
  wind_gust_kt := None; wind_speed_kt := Some (Some "30");
  wind_dir_degrees := Some (Some "270"); temp_c := None;
  dewpoint_c := None; visibility_statute_mi := None; altim_in_hg := None;
  wx_string := None;
  observation_time := Some (Some "2024-05-01T12:00:00Z");
  sky_conditions := []; raw_text := None
|}.

(** IFR with lightning in the raw text and a 12 kt wind gusting 31. *)
Definition metar_lightning : METAR := {|
  station_id := Some (Some "KJFK"); flight_category := Some (Some "IFR");
  wind_gust_kt := Some (Some "31"); wind_speed_kt := Some (Some "12");
  wind_dir_degrees := None; temp_c := None;
  dewpoint_c := None; visibility_statute_mi := None; altim_in_hg := None;
  wx_string := None;
  observation_time := Some (Some "2024-05-01T12:00:00Z");
  sky_conditions := [];
  raw_text := Some (Some "KJFK 011200Z 24012G31KT 2SM TSRA LTG DSNT W")
|}.

(** An airports file with the single line "KBOS\n". *)
Definition airports_kbos : list string :=
  [String "K" (String "B" (String "O" (String "S" (String "010"%char ""))))].

Definition env_windy : env :=
  {| airports_file := Some airports_kbos;
     data_server := λ _, Document [metar_windy] |}.

Definition env_netfail : env :=
  {| airports_file := Some airports_kbos; data_server := λ _, NetFail |}.

Definition env_malformed : env :=
  {| airports_file := Some airports_kbos; data_server := λ _, Malformed |}.

(** The condition the source builds for [metar_lightning]. *)
Definition cond_lightning : @condition decimal_runtime :=
  @Build_condition decimal_runtime
    "IFR" (Some "") 12 31 true 0 "" 0 0 0%Z true []
    "2024-05-01T12:00:00+00:00".

(** The condition the source builds for [metar_windy]. *)
Definition cond_windy : @condition decimal_runtime :=
  @Build_condition decimal_runtime
    "VFR" (Some "270") 30 0 false 0 "" 0 0 0%Z false []
    "2024-05-01T12:00:00+00:00".

(** The condition the source builds for [metar_time_only]. *)
Definition cond_time_only : @condition decimal_runtime :=
  @Build_condition decimal_runtime
    "IFR" (Some "") 0 0 false 0 "" 0 0 0%Z false []
    "2024-05-01T12:00:00+00:00".

(** The condition the source builds for [metar_no_time] when it follows
    [metar_time_only] in the feed: the observation time is the one of the
    record before it. *)
Definition cond_stale_time : @condition decimal_runtime :=
  @Build_condition decimal_runtime
    "VFR" (Some "") 0 0 false 0 "" 0 0 0%Z false []
    "2024-05-01T12:00:00+00:00".

(** The condition map for the feed [metar_lightning; metar_windy]. *)
Definition conds_two : gmap string (@condition decimal_runtime) :=
  {[ "KJFK" := cond_lightning; "KBOS" := cond_windy ]}.

(** The thread the first pass starts for position 0 of [env_windy]. *)
Definition task_kbos (start : Q) : task :=
  {| t_pixel := 0; t_color := COLOR_VFR; t_time := 9999 # 1;
     t_rate := 2 # 1; t_start := start |}.

(** STOPFLAG raised to [p] at time [r] and held; DONTSTOP before. *)
Definition raised_at (r : Q) (p : nat) (t : Q) : Z :=
  if Qle_bool r t then Z.of_nat p else DONTSTOP.

(** ** Records that can be processed *)

Section Acceptance.

Context {RT : PyRuntime}.

(** An optional numeric element is absent or its text converts. *)
Definition converts {A} (conv : text → result A) (field : option text) : Prop :=
  match field with
  | Some t => is_ok (conv t) = true
  | None => True
  end.

(** An optional text element is absent or has text. *)
Definition has_text (field : option text) : Prop :=
  match field with
  | Some None => False
  | _ => True
  end.

(** Everything the loop body needs of a record that carries a flight
    category, in a state where [obsTime] is bound or not. *)
Definition well_formed (metar : METAR) (st : loop_state) : Prop :=
  (∃ sid, station_id metar = Some (Some sid))
  ∧ (∃ fc, flight_category metar = Some (Some fc))
  ∧ converts int_of_text (wind_gust_kt metar)
  ∧ converts int_of_text (wind_speed_kt metar)
  ∧ converts rounded_of_text (temp_c metar)
  ∧ converts rounded_of_text (dewpoint_c metar)
  ∧ converts rounded_of_text (visibility_statute_mi metar)
  ∧ converts float_of_text (altim_in_hg metar)
  ∧ has_text (wx_string metar)
  ∧ match observation_time metar with
    | Some (Some s) => is_Some (fromisoformat (replace_Z s))
    | Some None => False
    | None => is_Some (obsTime_var st)
    end
  ∧ Forall (λ sk, converts int_of_text (Some <$> cloud_base_ft_agl sk))
           (sky_conditions metar)
  ∧ has_text (raw_text metar).

(** The event [get_weather] emits for one record. *)
Definition record_event (metar : METAR) (ev : event) : Prop :=
  match flight_category metar with
  | None => ev = Print "Missing flight condition, skipping."
  | Some _ =>
      ∃ sid fc ws g v o tc dc l,
        station_id metar = Some (Some sid)
        ∧ ev = LogInfo (MsgStation sid fc ws g v o tc dc l)
  end.

(** The layer stored for one <sky_condition>. *)
Definition layer_of (sk : sky_condition) (layer : skyCond) : Prop :=
  cover layer = sky_cover sk
  ∧ match cloud_base_ft_agl sk with
    | Some s => py_int s = Some (cloudBaseFt layer)
    | None => cloudBaseFt layer = 0
    end.

End Acceptance.

(** ** Whitespace at the ends of a line *)

(** Every character is whitespace. *)
Fixpoint all_space (s : string) : bool :=
  match s with
  | EmptyString => true
  | String c s' => is_space c && all_space s'
  end.

(** The first character, if any, is whitespace. *)
Definition starts_with_space (s : string) : bool :=
  match s with
  | EmptyString => false
  | String c _ => is_space c
  end.

(** The last character, if any, is whitespace. *)
Fixpoint ends_with_space (s : string) : bool :=
  match s with
  | EmptyString => false
  | String c EmptyString => is_space c
  | String _ s' => ends_with_space s'
  end.

(** The flight categories that have a colour of their own. *)
Definition recognised_categories : list string :=
  ["VFR"; "MVFR"; "IFR"; "LIFR"].

(** ** More invariants of the scheduler *)

(** Every thread in the pool sits in the slot of its own position, and
    that position is animated. *)
Definition single_owner (ledstate : list (color * bool))
    (threadarray : list (option nat)) (pl : gmap nat task) : Prop :=
  ∀ tid t, pl !! tid = Some t →
    threadarray !! t_pixel t = Some (Some tid)
    ∧ ∃ c, ledstate !! t_pixel t = Some (c, true).

(** The thread handles in use lie below the next one to be given out. *)
Definition fresh_tids (w : world) : Prop :=
  ∀ tid, is_Some (pool w !! tid) → (tid < next_tid w)%nat.

(** A computation that, when it returns, leaves STOPFLAG at DONTSTOP if it
    found it there. *)
Definition restores_flag {A} (m : M A) : Prop :=
  ∀ w a w', m w = (Ok a, w') → STOPFLAG w = DONTSTOP → STOPFLAG w' = DONTSTOP.

(** A computation whose only effect is to append events: clock, threads,
    handles and STOPFLAG stay as they are, whether it returns or raises. *)
Definition only_emits {A} (m : M A) : Prop :=
  ∀ w r w', m w = (r, w') → ∃ evs, w' = set_world w (clock w) (pool w) evs.

(** The pixel writes of lines 294-295 for the positions [ps]. *)
Definition paint_events (ledstate : list (color * bool)) (ps : list nat)
  : list event :=
  (λ p, SetPixel p (default COLOR_CLEAR (fst <$> ledstate !! p))) <$> ps.

(** A small configuration for concrete runs with a display: the source
    values with a refresh time of 20 s and a fast blink period of 1 s. *)
Definition demo_config : config := {|
  LED_COUNT := 50;
  ACTIVATE_WINDCONDITION_ANIMATION := true;
  WIND_BLINK_THRESHOLD := 25;
  ALWAYS_BLINK_FOR_GUSTS := false;
  BLINK_SPEED := 2 # 1;
  REFRESH_TIME_SECONDS := 20 # 1;
  DISPLAY_ROTATION_SPEED := 5 # 1;
  FAST_BLINK_DISPLAYED_STATION := true;
  FAST_BLINK_SPEED := 1 # 1;
  has_display := true
|}.

(** ** More concrete feeds, worlds and runs *)

(** The loop variables at the start of [get_weather]. *)
Definition start_state : @loop_state decimal_runtime :=
  @Build_loop_state decimal_runtime ∅ [] None.

(** A station with two cloud layers, one without a base. *)
Definition metar_cloudy : METAR := {|
  station_id := Some (Some "KORD"); flight_category := Some (Some "MVFR");
  wind_gust_kt := None; wind_speed_kt := None; wind_dir_degrees := None;
  temp_c := None; dewpoint_c := None; visibility_statute_mi := None;
  altim_in_hg := None; wx_string := None;
  observation_time := Some (Some "2024-05-01T12:00:00Z");
  sky_conditions :=
    [ {| sky_cover := Some "FEW"; cloud_base_ft_agl := Some "2500" |};
      {| sky_cover := Some "CLR"; cloud_base_ft_agl := None |} ];
  raw_text := None
|}.

(** An airports file with the line "KBOS\n" and a blank line. *)
Definition airports_with_blank : list string :=
  airports_kbos ++ [String " " (String "009"%char (String "010"%char ""))].

Definition env_with_blank : env :=
  {| airports_file := Some airports_with_blank;
     data_server := λ _, Document [metar_windy] |}.

(** An empty airports file. *)
Definition env_no_airports : env :=
  {| airports_file := Some []; data_server := λ _, Document [] |}.

(** The source configuration on a strip of a single pixel. *)
Definition one_pixel_config : config := {|
  LED_COUNT := 1;
  ACTIVATE_WINDCONDITION_ANIMATION := true;
  WIND_BLINK_THRESHOLD := 25;
  ALWAYS_BLINK_FOR_GUSTS := false;
  BLINK_SPEED := 2 # 1;
  REFRESH_TIME_SECONDS := 1800 # 1;
  DISPLAY_ROTATION_SPEED := 5 # 1;
  FAST_BLINK_DISPLAYED_STATION := true;
  FAST_BLINK_SPEED := 3602879701896397 # 36028797018963968;
  has_display := true
|}.

(** Target state and thread array of a pass over KBOS (windy) and a
    placeholder, and the world once the thread of position 0 runs. *)
Definition ledstate_kbos : list (color * bool) :=
  [(COLOR_VFR, true); (COLOR_CLEAR, false)].

Definition threadarray_kbos : list (option nat) := [Some 0%nat; None].

Definition world_one_thread : world :=
  {| clock := 0; pool := {[ 0%nat := task_kbos 0 ]}; next_tid := 1;
     STOPFLAG := DONTSTOP; out := [] |}.

(** The loop variables after [metar_lightning] and after [metar_cloudy],
    each processed first. *)
Definition state_after_lightning : @loop_state decimal_runtime :=
  @Build_loop_state decimal_runtime
    (<[ "KJFK" := cond_lightning ]> ∅) ["KJFK"]
    (Some "2024-05-01T12:00:00+00:00").

(** The loop variables after [metar_time_only], processed first. *)
Definition state_after_time_only : @loop_state decimal_runtime :=
  @Build_loop_state decimal_runtime
    (<[ "KJFK" := cond_time_only ]> ∅) ["KJFK"]
    (Some "2024-05-01T12:00:00+00:00").

Definition cond_cloudy : @condition decimal_runtime :=
  @Build_condition decimal_runtime
    "MVFR" (Some "") 0 0 false 0 "" 0 0 0%Z false
    [ {| cover := Some "FEW"; cloudBaseFt := 2500 |};
      {| cover := Some "CLR"; cloudBaseFt := 0 |} ]
    "2024-05-01T12:00:00+00:00".

Definition state_after_cloudy : @loop_state decimal_runtime :=
  @Build_loop_state decimal_runtime
    (<[ "KORD" := cond_cloudy ]> ∅) ["KORD"]
    (Some "2024-05-01T12:00:00+00:00").

(** The world after the thread of position 0 has been started from
    [initial_world], and after it has been canceled and joined from
    [world_one_thread] (it stops at the end of its first blink cycle). *)
Definition world_one_thread_started : world :=
  {| clock := 0; pool := {[ 0%nat := task_kbos 0 ]}; next_tid := 1;
     STOPFLAG := DONTSTOP; out := [ThreadStart 0 0] |}.


(** The world after the fast blink of line 329 for position 0, with the
    constants of the source, from [initial_world]. *)
Definition world_fast_blinked : world :=
  (call_blinkme (source_config true) 0 COLOR_VFR
     (DISPLAY_ROTATION_SPEED (source_config true))
     (FAST_BLINK_SPEED (source_config true)) initial_world).2.

(** The condition map of a feed that reports KBOS alone. *)
Definition conds_kbos : gmap string (@condition decimal_runtime) :=
  {[ "KBOS" := cond_windy ]}.

(** Two stations that report VFR, one windy and one calm. *)
Definition conds_two_vfr : gmap string (@condition decimal_runtime) :=
  {[ "KBOS" := cond_windy; "KLAX" := cond_stale_time ]}.

(** * Proofs *)

(** ** Float arithmetic *)

Lemma pow2_pos e : (0 < 2 ^ e)%Q.
Proof. apply Qpower_0_lt. reflexivity. Qed.

Lemma pow2_plus a b : (2 ^ (a + b) == 2 ^ a * 2 ^ b)%Q.
Proof. apply Qpower_plus. discriminate. Qed.

Lemma pow2_lt a b : a < b → (2 ^ a < 2 ^ b)%Q.
Proof. intros H. apply Qpower_lt_compat_l; [exact H|reflexivity]. Qed.

Lemma pow2_le a b : a ≤ b → (2 ^ a <= 2 ^ b)%Q.
Proof. intros H. apply Qpower_le_compat_l; [exact H|discriminate]. Qed.

Lemma pow2_lt_inv a b : (2 ^ a < 2 ^ b)%Q → a < b.
Proof. intros H. apply (Qpower_lt_compat_l_inv 2); [exact H|reflexivity]. Qed.

Lemma pow2_Z e : 0 ≤ e → (inject_Z (2 ^ e) == 2 ^ e)%Q.
Proof. intros H. exact (Zpower_Qpower 2 e H). Qed.

Lemma ilog2_spec x :
  (0 < x)%Q → (2 ^ ilog2 x <= x)%Q ∧ (x < 2 ^ (ilog2 x + 1))%Q.
Proof.
  intros Hx. unfold ilog2. destruct x as [n d]. cbn [Qnum Qden].
  assert (Hn : 0 < n) by (unfold Qlt in Hx; simpl in Hx; lia).
  destruct (Z.log2_spec n Hn) as [Ha1 Ha2].
  destruct (Z.log2_spec (Z.pos d) eq_refl) as [Hb1 Hb2].
  pose proof (Z.log2_nonneg n) as Ha0.
  pose proof (Z.log2_nonneg (Z.pos d)) as Hb0.
  set (a := Z.log2 n) in *. set (b := Z.log2 (Z.pos d)) in *.
  assert (Qa1 : (2 ^ a <= inject_Z n)%Q)
    by (rewrite <- pow2_Z by done; by rewrite <- Zle_Qle).
  assert (Qa2 : (inject_Z n < 2 ^ (a + 1))%Q)
    by (rewrite <- pow2_Z by lia; rewrite <- Zlt_Qlt;
        by replace (a + 1) with (Z.succ a) by lia).
  assert (Qb1 : (2 ^ b <= inject_Z (Z.pos d))%Q)
    by (rewrite <- pow2_Z by done; by rewrite <- Zle_Qle).
  assert (Qb2 : (inject_Z (Z.pos d) < 2 ^ (b + 1))%Q)
    by (rewrite <- pow2_Z by lia; rewrite <- Zlt_Qlt;
        by replace (b + 1) with (Z.succ b) by lia).
  assert (Hd : (0 < inject_Z (Z.pos d))%Q) by reflexivity.
  pose proof (Qmake_Qdiv n d) as Hdiv.
  assert (Hup : (n # d < 2 ^ (a - b + 1))%Q).
  { rewrite Hdiv. apply Qlt_shift_div_r; [done|].
    pose proof (pow2_plus (a - b + 1) b) as E.
    replace (a - b + 1 + b) with (a + 1) in E by lia.
    pose proof (pow2_pos (a - b + 1)). nra. }
  assert (Hlo : (2 ^ (a - b - 1) <= n # d)%Q).
  { rewrite Hdiv. apply Qle_shift_div_l; [done|].
    pose proof (pow2_plus (a - b - 1) (b + 1)) as E.
    replace (a - b - 1 + (b + 1)) with a in E by lia.
    pose proof (pow2_pos (a - b - 1)). nra. }
  destruct (Qle_bool (2 ^ (a - b)) (n # d)) eqn:E.
  - apply Qle_bool_iff in E. by split.
  - split; [done|].
    replace (a - b - 1 + 1) with (a - b) by lia.
    apply Qnot_le_lt. intros H. apply Qle_bool_iff in H. congruence.
Qed.

Lemma round_half_even_le x k : (x <= inject_Z k)%Q → round_half_even x ≤ k.
Proof.
  intros Hx. unfold round_half_even.
  pose proof (Qfloor_le x) as Hf. pose proof (Qlt_floor x) as Hc.
  assert (Hfk : Qfloor x ≤ k) by (rewrite Zle_Qle; lra).
  destruct (Qcompare_spec (x - inject_Z (Qfloor x)) (1 # 2)) as [E|E|E];
    [destruct (Z.even (Qfloor x))| |]; try done;
    (assert (Qfloor x < k); [rewrite Zlt_Qlt; lra|lia]).
Qed.

Lemma round_half_even_ge x k : (inject_Z k <= x)%Q → k ≤ round_half_even x.
Proof.
  intros Hx. unfold round_half_even.
  pose proof (Qlt_floor x) as Hc.
  assert (Hfk : k < Qfloor x + 1) by (rewrite Zlt_Qlt; lra).
  destruct (Qcompare_spec (x - inject_Z (Qfloor x)) (1 # 2)) as [E|E|E];
    [destruct (Z.even (Qfloor x))| |]; lia.
Qed.

Lemma nearest_float_pos n d :
  0 < n →
  nearest_float (n # d)
  = let e := Z.max (ilog2 (n # d) - 52) (-1074) in
    let r := (inject_Z (round_half_even ((n # d) / 2 ^ e)) * 2 ^ e)%Q in
    if Qle_bool (2 ^ 1024) r then None else Some (Qred r).
Proof.
  intros Hn. unfold nearest_float.
  assert (Ha : Qabs (n # d) = n # d)
    by (unfold Qabs; by rewrite Z.abs_eq by lia).
  rewrite Ha.
  assert (Hz : Qeq_bool (n # d) 0 = false).
  { destruct (Qeq_bool (n # d) 0) eqn:E; [|done].
    apply Qeq_bool_iff in E. unfold Qeq in E. simpl in E. lia. }
  assert (Hp : Qle_bool 0 (n # d) = true)
    by (apply Qle_bool_iff; unfold Qle; simpl; lia).
  by rewrite Hz, Hp.
Qed.

Lemma nearest_float_zero d : nearest_float (0 # d) = Some 0%Q.
Proof. reflexivity. Qed.

(** A number below 1 by one part in [2 ** 53] does not round up to 1. *)
Lemma nearest_float_below_1 x :
  (0 <= x)%Q → (x <= 1 - 2 ^ (-53))%Q →
  ∃ r, nearest_float x = Some r ∧ (0 <= r)%Q ∧ (r < 1)%Q.
Proof.
  intros H0 H1. destruct x as [n d].
  assert (Hn : 0 ≤ n) by (unfold Qle in H0; simpl in H0; lia).
  destruct (decide (n = 0)) as [->|Hnz].
  { exists 0%Q. rewrite nearest_float_zero. split; [done|]. split; [lra|lra]. }
  rewrite nearest_float_pos by lia. cbv zeta.
  assert (Hx : (0 < n # d)%Q) by (unfold Qlt; simpl; lia).
  destruct (ilog2_spec _ Hx) as [Hk _].
  pose proof (pow2_pos (-53)) as Hi.
  assert (Hk0 : ilog2 (n # d) < 0).
  { apply pow2_lt_inv. change (2 ^ 0)%Q with 1%Q. lra. }
  set (e := Z.max (ilog2 (n # d) - 52) (-1074)).
  assert (He : e ≤ -53) by lia.
  pose proof (pow2_pos e) as Hpe.
  set (K := 2 ^ (- e) - 2 ^ (-53 - e)).
  assert (HK : (inject_Z K == 2 ^ (- e) - 2 ^ (-53 - e))%Q).
  { unfold K, Z.sub. rewrite inject_Z_plus, inject_Z_opp.
    rewrite (pow2_Z (- e)) by lia.
    change (-53 + - e) with (-53 - e). by rewrite (pow2_Z (-53 - e)) by lia. }
  pose proof (pow2_plus (- e) e) as E1.
  replace (- e + e) with 0 in E1 by lia. change (2 ^ 0)%Q with 1%Q in E1.
  pose proof (pow2_plus (-53 - e) e) as E2.
  replace (-53 - e + e) with (-53) in E2 by lia.
  assert (Hq : ((n # d) / 2 ^ e <= inject_Z K)%Q).
  { apply Qle_shift_div_r; [done|]. rewrite HK. nra. }
  assert (Hq0 : (inject_Z 0 <= (n # d) / 2 ^ e)%Q).
  { apply Qle_shift_div_l; [done|]. change (inject_Z 0) with 0%Q. lra. }
  pose proof (round_half_even_le _ _ Hq) as Hm.
  pose proof (round_half_even_ge _ _ Hq0) as Hm0.
  set (m := round_half_even ((n # d) / 2 ^ e)) in *.
  assert (Qm : (inject_Z m <= inject_Z K)%Q) by (by rewrite <- Zle_Qle).
  assert (Qm0 : (0 <= inject_Z m)%Q)
    by (change 0%Q with (inject_Z 0); by rewrite <- Zle_Qle).
  assert (Hr1 : (inject_Z m * 2 ^ e <= 1 - 2 ^ (-53))%Q)
    by (rewrite HK in Qm; nra).
  assert (Hr0 : (0 <= inject_Z m * 2 ^ e)%Q) by nra.
  assert (Hbig : (1 < 2 ^ 1024)%Q) by (by apply (pow2_lt 0 1024)).
  destruct (Qle_bool (2 ^ 1024) (inject_Z m * 2 ^ e)) eqn:Eo.
  { apply Qle_bool_iff in Eo. lra. }
  eexists. split; [done|]. rewrite Qred_correct. split; lra.
Qed.

(** A number that is not positive does not round to a positive float. *)
Lemma nearest_float_nonpos x r :
  (x <= 0)%Q → nearest_float x = Some r → (r <= 0)%Q.
Proof.
  intros Hx. unfold nearest_float.
  destruct (Qeq_bool (Qabs x) 0) eqn:Ez.
  { intros [= <-]. lra. }
  set (e := Z.max (ilog2 (Qabs x) - 52) (-1074)).
  destruct (Qle_bool (2 ^ 1024) _); [done|].
  destruct (Qle_bool 0 x) eqn:Ep.
  { apply Qle_bool_iff in Ep. apply Qeq_bool_neq in Ez. exfalso. apply Ez.
    rewrite Qabs_pos by done. lra. }
  intros [= <-]. rewrite Qred_correct.
  pose proof (pow2_pos e) as Hpe.
  assert (Hq0 : (inject_Z 0 <= Qabs x / 2 ^ e)%Q).
  { apply Qle_shift_div_l; [done|]. change (inject_Z 0) with 0%Q.
    pose proof (Qabs_nonneg x). lra. }
  pose proof (round_half_even_ge _ _ Hq0) as Hm0.
  set (m := round_half_even (Qabs x / 2 ^ e)) in *.
  assert (Qm0 : (0 <= inject_Z m)%Q)
    by (change 0%Q with (inject_Z 0); by rewrite <- Zle_Qle).
  nra.
Qed.

(** A positive float is a whole multiple of the spacing at its size. *)
Lemma is_float_repr x :
  is_float x → (0 < x)%Q →
  ∃ m, (x == inject_Z m * 2 ^ Z.max (ilog2 x - 52) (-1074))%Q.
Proof.
  intros Hf Hx. destruct x as [n d].
  assert (Hn : 0 < n) by (unfold Qlt in Hx; simpl in Hx; lia).
  unfold is_float in Hf. rewrite nearest_float_pos in Hf by done.
  cbv zeta in Hf. destruct (Qle_bool _ _); [done|].
  rewrite Qred_correct in Hf. eexists. symmetry. exact Hf.
Qed.

(** The quotient of two floats [0 <= t < b] is below 1 by at least one
    part in [2 ** 53], so it does not round to 1. *)
Lemma float_quotient_below_1 t b :
  is_float t → is_float b → (0 <= t)%Q → (t < b)%Q →
  (t / b <= 1 - 2 ^ (-53))%Q.
Proof.
  intros Ht Hb H0 Hlt.
  assert (Hb0 : (0 < b)%Q) by lra.
  pose proof (pow2_pos (-53)) as Hi.
  pose proof (pow2_plus 53 (-53)) as HTI. change (2 ^ (53 + -53))%Q with 1%Q in HTI.
  pose proof (pow2_pos 53) as HT.
  apply Qle_shift_div_r; [done|].
  destruct (Qlt_le_dec 0 t) as [Ht0|Ht0]; [|nra].
  destruct (is_float_repr _ Ht Ht0) as [mt Et].
  destruct (is_float_repr _ Hb Hb0) as [mb Eb].
  destruct (ilog2_spec _ Ht0) as [Hkt1 Hkt2].
  destruct (ilog2_spec _ Hb0) as [Hkb1 Hkb2].
  set (kt := ilog2 t) in *. set (kb := ilog2 b) in *.
  assert (Hk : kt ≤ kb).
  { assert (kt < kb + 1); [|lia]. apply pow2_lt_inv. lra. }
  set (et := Z.max (kt - 52) (-1074)) in *.
  set (eb := Z.max (kb - 52) (-1074)) in *.
  pose proof (pow2_pos et) as Hpt. pose proof (pow2_pos eb) as Hpb.
  destruct (decide (et = eb)) as [Heq|Hne].
  - rewrite Heq in Et.
    assert (Hm : mt + 1 ≤ mb).
    { assert (mt < mb); [|lia]. rewrite Zlt_Qlt. nra. }
    rewrite Zle_Qle, inject_Z_plus in Hm. change (inject_Z 1) with 1%Q in Hm.
    assert (Hbb : (b < 2 ^ eb * 2 ^ 53)%Q).
    { rewrite <- pow2_plus. apply Qlt_le_trans with (1 := Hkb2).
      apply pow2_le. lia. }
    assert (Hbi : (b * 2 ^ (-53) < 2 ^ eb)%Q) by nra.
    nra.
  - assert (Heb : eb = kb - 52) by lia.
    assert (Hbl : (2 ^ et * 2 ^ 53 <= b)%Q).
    { rewrite <- pow2_plus. apply Qle_trans with (2 := Hkb1).
      apply pow2_le. lia. }
    assert (Htu : (t < 2 ^ et * 2 ^ 53)%Q).
    { rewrite <- pow2_plus. apply Qlt_le_trans with (1 := Hkt2).
      apply pow2_le. lia. }
    assert (Hmt : mt ≤ 2 ^ 53 - 1).
    { assert (mt < 2 ^ 53); [|lia]. rewrite Zlt_Qlt.
      rewrite (pow2_Z 53) by lia. nra. }
    rewrite Zle_Qle in Hmt. unfold Z.sub in Hmt.
    rewrite inject_Z_plus, inject_Z_opp, (pow2_Z 53) in Hmt by lia.
    change (inject_Z 1) with 1%Q in Hmt.
    assert (Htm : (t <= (2 ^ 53 - 1) * 2 ^ et)%Q) by nra.
    nra.
Qed.

Lemma int_quotient_ok a b n :
  int_quotient a b = Ok n →
  ¬ (b == 0)%Q ∧ ∃ q, nearest_float (a / b) = Some q ∧ n = py_trunc q.
Proof.
  unfold int_quotient. destruct (Qeq_bool b 0) eqn:Eb; [done|].
  apply Qeq_bool_neq in Eb.
  destruct (nearest_float (a / b)) as [q|]; [|done].
  intros [= <-]. eauto.
Qed.

Lemma int_quotient_raise a b e :
  int_quotient a b = Raise e →
  ((b == 0)%Q ∧ e = ZeroDivisionError)
  ∨ (¬ (b == 0)%Q ∧ nearest_float (a / b) = None ∧ e = OverflowError).
Proof.
  unfold int_quotient. destruct (Qeq_bool b 0) eqn:Eb.
  - apply Qeq_bool_iff in Eb. intros [= <-]. by left.
  - apply Qeq_bool_neq in Eb.
    destruct (nearest_float (a / b)) as [q|]; [done|].
    intros [= <-]. by right.
Qed.

(** ** The monad *)

Lemma bind_ok_inv {A B} (m : M A) (k : A → M B) w b w' :
  (m ≫= k) w = (Ok b, w') →
  ∃ a w1, m w = (Ok a, w1) ∧ k a w1 = (Ok b, w').
Proof.
  unfold mbind, M_bind, bind. destruct (m w) as [[a|e] w1]; intros H.
  - eauto.
  - discriminate.
Qed.

Lemma bind_raise_inv {A B} (m : M A) (k : A → M B) w e w' :
  (m ≫= k) w = (Raise e, w') →
  m w = (Raise e, w') ∨ ∃ a w1, m w = (Ok a, w1) ∧ k a w1 = (Raise e, w').
Proof.
  unfold mbind, M_bind, bind. destruct (m w) as [[a|e0] w1]; intros H.
  - right. eauto.
  - left. congruence.
Qed.

Lemma lift_ok_inv {A} (r : result A) w a w1 :
  lift r w = (Ok a, w1) → r = Ok a ∧ w1 = w.
Proof. destruct r; cbv; intros; simplify_eq; auto. Qed.

Ltac step_ok H :=
  let a := fresh "v" in
  let w1 := fresh "w" in
  let Hs := fresh "Hs" in
  apply bind_ok_inv in H as (a & w1 & Hs & H);
  apply lift_ok_inv in Hs as [Hs ->].

Lemma bind_run {A B} (m : M A) (k : A → M B) w a w1 :
  m w = (Ok a, w1) → (m ≫= k) w = k a w1.
Proof. unfold mbind, M_bind, bind. by intros ->. Qed.

Lemma bind_run_raise {A B} (m : M A) (k : A → M B) w e w1 :
  m w = (Raise e, w1) → (m ≫= k) w = (Raise e, w1).
Proof. unfold mbind, M_bind, bind. by intros ->. Qed.

(** ** calc_target_colors *)

Section TargetProofs.

Context {RT : PyRuntime}.
Variable cfg : config.

Lemma calc_target_colors_foldl stations conditions acc :
  foldl (λ target_colors airportcode,
           (target_colors ++ [target_entry cfg conditions airportcode])%list)
        acc stations
  = (acc ++ map (target_entry cfg conditions) stations)%list.
Proof.
  revert acc. induction stations as [|s stations IH]; intros acc; simpl.
  - by rewrite app_nil_r.
  - rewrite IH. by rewrite <- app_assoc.
Qed.

Lemma calc_target_colors_map stations conditions :
  calc_target_colors cfg stations conditions
  = map (target_entry cfg conditions) stations.
Proof. unfold calc_target_colors. by rewrite calc_target_colors_foldl. Qed.

Lemma calc_target_colors_length stations conditions :
  length (calc_target_colors cfg stations conditions) = length stations.
Proof. by rewrite calc_target_colors_map, length_map. Qed.

Lemma calc_target_colors_lookup stations conditions (i : nat) :
  calc_target_colors cfg stations conditions !! i
  = target_entry cfg conditions <$> stations !! i.
Proof. by rewrite calc_target_colors_map, list_lookup_fmap. Qed.

Lemma target_entry_no_data conditions code :
  code = "" ∨ conditions !! code = None →
  target_entry cfg conditions code = (COLOR_CLEAR, false).
Proof.
  intros [-> | Hnone]; unfold target_entry.
  - by case_decide.
  - case_decide; [by rewrite Hnone | done].
Qed.

(** C8. [calc_target_colors] returns one (colour, animate) entry per
    position, in the order of the position list: the result has the length
    of the list and its i-th entry is the entry computed for the i-th
    station.  A list made only of placeholders (the empty code, or any code
    such as "NULL" that has no condition in the map) yields only
    (off colour, not animated). *)
Theorem calc_target_colors_position_count
    (stations : list string) (conditions : gmap string condition) :
  length (calc_target_colors cfg stations conditions) = length stations
  ∧ (∀ (i : nat) code, stations !! i = Some code →
       calc_target_colors cfg stations conditions !! i
       = Some (target_entry cfg conditions code))
  ∧ (Forall (λ code, code = "" ∨ conditions !! code = None) stations →
       calc_target_colors cfg stations conditions
       = replicate (length stations) (COLOR_CLEAR, false)).
Proof.
  split; [apply calc_target_colors_length|]. split.
  - intros i code Hi. by rewrite calc_target_colors_lookup, Hi.
  - intros Hall. rewrite calc_target_colors_map.
    induction Hall as [|code stations Hcode _ IH]; simpl; [done|].
    by rewrite IH, target_entry_no_data.
Qed.

(** C7. A station whose condition has lightning gets the lightning colour
    whatever its flight category (IFR included, and the two colours
    differ), and its animate flag is the wind rule alone. *)
Theorem lightning_color_wins
    (stations : list string) (conditions : gmap string condition)
    (i : nat) (code : string) (c : condition) :
  stations !! i = Some code →
  code ≠ "" →
  conditions !! code = Some c →
  lightning c = true →
  calc_target_colors cfg stations conditions !! i
  = Some (COLOR_LIGHTNING,
          ACTIVATE_WINDCONDITION_ANIMATION cfg
          && ((windSpeed c >? WIND_BLINK_THRESHOLD cfg) || windGust c))
  ∧ COLOR_LIGHTNING ≠ COLOR_IFR.
Proof.
  intros Hi Hcode Hc Hl. split; [|done].
  rewrite calc_target_colors_lookup, Hi. simpl. f_equal.
  unfold target_entry. case_decide; [|done]. rewrite Hc, Hl.
  by destruct (windGust c).
Qed.

End TargetProofs.

(** ** get_weather *)

Section WeatherProofs.

Context {RT : PyRuntime}.
Variable cfg : config.

Lemma for_each_app {A S} (body : A → S → M S) xs ys st w :
  for_each body (xs ++ ys) st w
  = (for_each body xs st ≫= for_each body ys) w.
Proof.
  revert st w. induction xs as [|x xs IH]; intros st w; simpl.
  - done.
  - unfold mbind, M_bind, bind in *. destruct (body x st w) as [[st1|e] w1]; [|done].
    apply IH.
Qed.

(** A record without flight category is skipped: a notice is printed and
    the loop variables are left as they were. *)
Lemma process_metar_skip metar st w :
  is_Some (station_id metar) →
  flight_category metar = None →
  process_metar cfg metar st w
  = (Ok st, set_world w (clock w) (pool w)
              [Print "Missing flight condition, skipping."]).
Proof.
  intros [t Ht] Hfc. unfold process_metar. rewrite Ht, Hfc. reflexivity.
Qed.

(** What a successful pass over a record with a flight category did. *)
Lemma process_metar_classified metar st w st' w' :
  process_metar cfg metar st w = (Ok st', w') →
  flight_category metar ≠ None →
  ∃ sid c,
    station_id metar = Some (Some sid)
    ∧ conditionDict st' = <[sid := c]> (conditionDict st)
    ∧ stationList st' = (stationList st ++ [sid])%list
    ∧ flight_category metar = Some (Some (flightCategory c))
    ∧ windSpeed c = reported_speed metar
    ∧ windGust c = match reported_gust metar with
                   | Some g => ALWAYS_BLINK_FOR_GUSTS cfg
                               || (g >? WIND_BLINK_THRESHOLD cfg)
                   | None => false
                   end
    ∧ (is_Some (reported_gust metar) ↔ is_Some (wind_gust_kt metar))
    ∧ (wind_gust_kt metar = None → windGustSpeed c = 0)
    ∧ (temp_c metar = None → tempC c = 0)
    ∧ (dewpoint_c metar = None → dewpointC c = 0)
    ∧ (visibility_statute_mi metar = None → vis c = 0)
    ∧ (altim_in_hg metar = None → altimHg c = float_zero)
    ∧ (wx_string metar = None → obs c = "")
    ∧ (wind_dir_degrees metar = None → windDir c = Some "")
    ∧ (observation_time metar = None → obsTime_var st = Some (obsTime c)).
Proof.
  intros H Hfc. unfold process_metar in H.
  apply bind_ok_inv in H as (stationId & w1 & H1 & H).
  apply lift_ok_inv in H1 as [H1 ->].
  destruct (flight_category metar) as [fct|] eqn:Efc; [|done].
  repeat step_ok H.
  apply bind_ok_inv in H as ([] & w2 & Hemit & H).
  step_ok H.
  unfold mret, M_ret, ret in H. injection H as <- <-.
  destruct (station_id metar) as [sidt|] eqn:Esid; [|done].
  injection H1 as ->.
  destruct stationId as [sid0|]; [|done]. injection Hs8 as ->.
  destruct fct as [fc0|]; [|done]. injection Hs9 as ->.
  eexists _, _. split; [done|]. split; [simpl; reflexivity|].
  split; [done|]. split; [done|]. simpl.
  unfold reported_speed, reported_gust.
  repeat split.
  - destruct (wind_speed_kt metar) as [t|]; [by rewrite Hs0|by injection Hs0].
  - destruct (wind_gust_kt metar) as [t|].
    + destruct (int_of_text t); [by injection Hs as <-|done].
    + by injection Hs as <-.
  - destruct (wind_gust_kt metar) as [t|]; [eauto|by intros [? ?]].
  - destruct (wind_gust_kt metar) as [t|]; [|by intros [? ?]].
    destruct (int_of_text t); [eauto|done].
  - intros E. rewrite E in Hs. by injection Hs as <-.
  - intros E. rewrite E in Hs1. by injection Hs1.
  - intros E. rewrite E in Hs2. by injection Hs2.
  - intros E. rewrite E in Hs3. by injection Hs3.
  - intros E. rewrite E in Hs4. by injection Hs4.
  - intros E. rewrite E in Hs10. by injection Hs10.
  - intros E. by rewrite E.
  - intros E. rewrite E in Hs5. injection Hs5 as <-.
    destruct (obsTime_var st); [by injection Hs11 as ->|done].
Qed.

Lemma process_metar_station metar st w st' w' :
  process_metar cfg metar st w = (Ok st', w') → is_Some (station_id metar).
Proof.
  intros H. unfold process_metar in H.
  apply bind_ok_inv in H as (stationId & w1 & H1 & _).
  apply lift_ok_inv in H1 as [H1 _].
  destruct (station_id metar); [eauto|done].
Qed.

(** A successful pass changes the map at most at the key of a record that
    carries a flight category. *)
Lemma process_metar_dict metar st w st' w' sid :
  process_metar cfg metar st w = (Ok st', w') →
  is_Some (conditionDict st' !! sid)
  ↔ is_Some (conditionDict st !! sid) ∨ classifies sid metar.
Proof.
  intros H. destruct (flight_category metar) as [fct|] eqn:Efc.
  - apply process_metar_classified in H as (sid0 & c & Hsid & Hd & _);
      [|by rewrite Efc].
    rewrite Hd. unfold classifies. rewrite Hsid, Efc.
    destruct (decide (sid0 = sid)) as [->|Hne].
    + rewrite lookup_insert_eq. split; [intros _; by right|eauto].
    + rewrite lookup_insert_ne by done. split; [by left|].
      intros [?|[? _]]; [done|congruence].
  - pose proof (process_metar_station _ _ _ _ _ H) as Hst.
    rewrite (process_metar_skip _ _ _ Hst Efc) in H. injection H as <- _.
    unfold classifies. rewrite Efc. split; [by left|].
    intros [?|[_ ?]]; done.
Qed.

Lemma process_metar_dict_other metar st w st' w' sid :
  process_metar cfg metar st w = (Ok st', w') →
  ¬ classifies sid metar →
  conditionDict st' !! sid = conditionDict st !! sid.
Proof.
  intros H Hn. destruct (flight_category metar) as [fct|] eqn:Efc.
  - apply process_metar_classified in H as (sid0 & c & Hsid & Hd & _);
      [|by rewrite Efc].
    rewrite Hd. apply lookup_insert_ne. intros ->. apply Hn.
    unfold classifies. by rewrite Hsid, Efc.
  - pose proof (process_metar_station _ _ _ _ _ H) as Hst.
    rewrite (process_metar_skip _ _ _ Hst Efc) in H. by injection H as <- _.
Qed.

Lemma for_each_process_dict metars st w st' w' sid :
  for_each (process_metar cfg) metars st w = (Ok st', w') →
  is_Some (conditionDict st' !! sid)
  ↔ is_Some (conditionDict st !! sid) ∨ Exists (classifies sid) metars.
Proof.
  revert st w. induction metars as [|m metars IH]; intros st w H; simpl in H.
  - injection H as <- _. rewrite Exists_nil. tauto.
  - unfold bind in H.
    destruct (process_metar cfg m st w) as [[st1|e] w1] eqn:E1; [|done].
    rewrite (IH _ _ H), (process_metar_dict _ _ _ _ _ sid E1), Exists_cons.
    tauto.
Qed.

Lemma for_each_process_dict_other metars st w st' w' sid :
  for_each (process_metar cfg) metars st w = (Ok st', w') →
  Forall (λ m, ¬ classifies sid m) metars →
  conditionDict st' !! sid = conditionDict st !! sid.
Proof.
  revert st w. induction metars as [|m metars IH]; intros st w H Hall;
    simpl in H.
  - by injection H as <- _.
  - unfold bind in H.
    destruct (process_metar cfg m st w) as [[st1|e] w1] eqn:E1; [|done].
    apply Forall_cons in Hall as [Hm Hall].
    rewrite (IH _ _ H Hall). by eapply process_metar_dict_other.
Qed.

Lemma get_weather_ok_inv net airports w conds w' :
  get_weather cfg net airports w = (Ok conds, w') →
  ∃ metars st w1,
    net (station_string airports) = Document metars
    ∧ for_each (process_metar cfg) metars
        {| conditionDict := ∅; stationList := []; obsTime_var := None |} w1
      = (Ok st, w')
    ∧ conds = conditionDict st.
Proof.
  intros H. unfold get_weather in H.
  apply bind_ok_inv in H as ([] & w1 & _ & H).
  destruct (net (station_string airports)) as [| |metars]; [done|done|].
  apply bind_ok_inv in H as (st & w2 & Hloop & H).
  unfold mret, M_ret, ret in H. injection H as <- <-.
  by eexists metars, st, w1.
Qed.

(** C1, as the code has it.  The condition map returned by [get_weather]
    has an entry for a station exactly when the feed holds a record for
    that station that carries a flight category.  A record without flight
    category is skipped: a notice is printed, no log line is written, and
    the loop variables, the map among them, stay as they were. *)
Theorem get_weather_entries
    (net : string → response) (airports : list string)
    (metars : list METAR) (w w' : world) (conds : gmap string condition) :
  net (station_string airports) = Document metars →
  get_weather cfg net airports w = (Ok conds, w') →
  (∀ sid, is_Some (conds !! sid) ↔ Exists (classifies sid) metars)
  ∧ (∀ metar st w0,
       metar ∈ metars → flight_category metar = None →
       process_metar cfg metar st w0
       = (Ok st, set_world w0 (clock w0) (pool w0)
                   [Print "Missing flight condition, skipping."])).
Proof.
  intros Hnet H.
  apply get_weather_ok_inv in H as (metars' & st & w1 & Hnet' & Hloop & ->).
  rewrite Hnet in Hnet'. injection Hnet' as <-. split.
  - intros sid. rewrite (for_each_process_dict _ _ _ _ _ sid Hloop). simpl.
    rewrite lookup_empty. split; [intros [[? ?]|?]; done|by right].
  - intros metar st0 w0 Hin Hfc. apply process_metar_skip; [|done].
    clear Hnet. revert Hloop. generalize
      {| conditionDict := ∅; stationList := []; obsTime_var := @None datetime |}.
    revert w1. induction metars as [|m metars IH]; intros w1 st1 Hloop.
    + by apply elem_of_nil in Hin.
    + simpl in Hloop. unfold bind in Hloop.
      destruct (process_metar cfg m st1 w1) as [[st2|e] w2] eqn:E1; [|done].
      apply elem_of_cons in Hin as [->|Hin].
      * by eapply process_metar_station.
      * by eapply IH.
Qed.


End WeatherProofs.

(** ** blinkme *)

Lemma Qhalf_twice (r : Q) : (r / 2 + r / 2 == r)%Q.
Proof. field. Qed.

(** Name [r / 2] so that linear arithmetic sees it as an atom. *)
Ltac qhalf r :=
  let H := fresh "Hhalf" in
  let h := fresh "h" in
  pose proof (Qhalf_twice r) as H;
  set (h := (r / 2)%Q) in *; clearbody h.

Section BlinkProofs.

Variable cfg : config.
Variable stopflag : Q → Z.
Variable pixelnum : nat.
Variable colour : color.
Variable blinkrate : Q.

Lemma writes_to_app p evs1 evs2 :
  writes_to p (evs1 ++ evs2) = (writes_to p evs1 ++ writes_to p evs2)%list.
Proof. apply omap_app. Qed.

Lemma writes_to_blink_body seen :
  writes_to pixelnum (blink_body pixelnum colour blinkrate seen)
  = [COLOR_CLEAR; colour].
Proof. unfold writes_to, blink_body. simpl. by case_decide. Qed.

Lemma cycles_of_app evs1 evs2 :
  cycles_of (evs1 ++ evs2) = (cycles_of evs1 + cycles_of evs2)%nat.
Proof. unfold cycles_of. by rewrite List.filter_app, length_app. Qed.

Lemma cycles_of_blink_body seen :
  cycles_of (blink_body pixelnum colour blinkrate seen) = 1%nat.
Proof. reflexivity. Qed.

(** The loop itself never raises. *)
Lemma blink_loop_exit n now :
  exit (blink_loop stopflag pixelnum colour blinkrate n now) = Returned
  ∨ exit (blink_loop stopflag pixelnum colour blinkrate n now) = Stopped.
Proof.
  revert now. induction n as [|n IH]; intros now;
    cbn [blink_loop trace exit finish]; [by left|].
  case_decide; cbn [trace exit finish]; [by right|apply IH].
Qed.

(** It makes at most [n] passes, and exactly [n] when it is not stopped. *)
Lemma blink_loop_cycles n now :
  (cycles_of (trace (blink_loop stopflag pixelnum colour blinkrate n now))
   ≤ n)%nat
  ∧ (exit (blink_loop stopflag pixelnum colour blinkrate n now) = Returned →
     cycles_of (trace (blink_loop stopflag pixelnum colour blinkrate n now))
     = n).
Proof.
  revert now. induction n as [|n IH]; intros now;
    cbn [blink_loop trace exit finish]; [done|].
  case_decide; cbn [trace exit finish].
  - split; [rewrite cycles_of_blink_body; lia|done].
  - rewrite cycles_of_app, cycles_of_blink_body.
    destruct (IH (now + blinkrate / 2 + blinkrate / 2)%Q) as [Hle Heq].
    split; [lia|]. intros Hr. rewrite (Heq Hr). lia.
Qed.

Lemma blink_loop_never_stopped n now :
  (∀ t, stopflag t ≠ Z.of_nat pixelnum) →
  exit (blink_loop stopflag pixelnum colour blinkrate n now) = Returned.
Proof.
  intros Hnever. revert now. induction n as [|n IH]; intros now;
    cbn [blink_loop trace exit finish]; [done|].
  case_decide as Hflag; cbn [trace exit finish]; [by apply Hnever in Hflag|].
  apply IH.
Qed.



(** *** Timing *)

Lemma py_trunc_lt_1 q : (q < 1)%Q → py_trunc q ≤ 0.
Proof.
  unfold py_trunc, Qlt. simpl. intros H.
  destruct (Z.le_gt_cases 0 (Qnum q)) as [Hnn|Hneg].
  - rewrite Z.quot_small; lia.
  - replace (Qnum q) with (- - Qnum q) by lia.
    rewrite Z.quot_opp_l by lia.
    pose proof (Z.quot_pos (- Qnum q) (Z.pos (Qden q))). lia.
Qed.

Lemma py_trunc_small q : (0 <= q)%Q → (q < 1)%Q → py_trunc q = 0.
Proof.
  unfold py_trunc, Qlt, Qle. simpl. intros H0 H1.
  apply Z.quot_small. lia.
Qed.

Lemma Qeq_bool_pos (q : Q) : (0 < q)%Q → Qeq_bool q 0 = false.
Proof.
  intros Hq. destruct (Qeq_bool q 0) eqn:E; [|done].
  apply Qeq_bool_iff in E. exfalso. lra.
Qed.

Lemma Qle_bool_half (q : Q) : (0 < q)%Q → Qle_bool 0 (q / 2) = true.
Proof. intros Hq. apply Qle_bool_iff. qhalf q. lra. Qed.

Lemma poll_times_blink_body now seen rest :
  poll_times now (blink_body pixelnum colour blinkrate seen ++ rest)
  = (now + blinkrate / 2 + blinkrate / 2)%Q
    :: poll_times (now + blinkrate / 2 + blinkrate / 2)%Q rest.
Proof. reflexivity. Qed.

(** The k-th poll of the loop comes a whole number of full periods after
    the start: one poll per full blink cycle. *)
Lemma poll_times_blink_loop n now (k : nat) t :
  poll_times now (trace (blink_loop stopflag pixelnum colour blinkrate n now))
    !! k = Some t →
  (t == now + inject_Z (Z.of_nat (S k)) * blinkrate)%Q.
Proof.
  revert now k. induction n as [|n IH]; intros now k;
    cbn [blink_loop trace exit finish]; [done|].
  assert (Hstep : ∀ rest, poll_times now
            (blink_body pixelnum colour blinkrate
               (stopflag (now + blinkrate / 2 + blinkrate / 2)%Q) ++ rest) !! k
            = Some t →
          (∀ k', poll_times (now + blinkrate / 2 + blinkrate / 2)%Q rest !! k'
                 = Some t →
                 (t == now + blinkrate / 2 + blinkrate / 2
                       + inject_Z (Z.of_nat (S k')) * blinkrate)%Q) →
          (t == now + inject_Z (Z.of_nat (S k)) * blinkrate)%Q).
  { intros rest Hk Hrest. rewrite poll_times_blink_body in Hk.
    destruct k as [|k]; simpl in Hk.
    - injection Hk as <-. change (inject_Z (Z.of_nat 1)) with 1%Q.
      qhalf blinkrate. lra.
    - apply Hrest in Hk. rewrite Hk.
      rewrite (Nat2Z.inj_succ (S k)), <- Z.add_1_r, inject_Z_plus.
      change (inject_Z 1) with 1%Q. qhalf blinkrate. lra. }
  case_decide; cbn [trace exit finish].
  - intros Hk. apply (Hstep []); [by rewrite app_nil_r|]. by intros [|?].
  - intros Hk. apply (Hstep _ Hk). intros k'. apply IH.
Qed.

(** A request raised at [r0] and held ends the loop no later than one full
    period after [r0]. *)
Lemma blink_loop_latency (r0 : Q) n now :
  (0 < blinkrate)%Q →
  (now <= r0)%Q →
  (∀ t, (r0 <= t)%Q → stopflag t = Z.of_nat pixelnum) →
  (finish (blink_loop stopflag pixelnum colour blinkrate n now)
   <= r0 + blinkrate)%Q.
Proof.
  intros Hrate Hnow Hheld. revert now Hnow.
  induction n as [|n IH]; intros now Hnow;
    cbn [blink_loop trace exit finish]; [lra|].
  case_decide as Hflag; cbn [trace exit finish]; [qhalf blinkrate; lra|].
  apply IH. destruct (Qlt_le_dec (now + blinkrate / 2 + blinkrate / 2) r0)
    as [Hlt|Hge]; [lra|].
  by apply Hheld in Hge.
Qed.

(** If the request comes before the loop would run out, the loop is left
    through [break]. *)
Lemma blink_loop_observes (r0 : Q) n now :
  (0 < blinkrate)%Q →
  (∀ t, (r0 <= t)%Q → stopflag t = Z.of_nat pixelnum) →
  (0 < n)%nat →
  (r0 <= now + inject_Z (Z.of_nat n) * blinkrate)%Q →
  exit (blink_loop stopflag pixelnum colour blinkrate n now) = Stopped.
Proof.
  intros Hrate Hheld. revert now.
  induction n as [|n IH]; intros now Hn Hr0; [lia|].
  cbn [blink_loop trace exit finish].
  case_decide as Hflag; cbn [trace exit finish]; [done|].
  assert (Hlt : (now + blinkrate / 2 + blinkrate / 2 < r0)%Q).
  { destruct (Qlt_le_dec (now + blinkrate / 2 + blinkrate / 2) r0)
      as [Hlt|Hge]; [done|]. by apply Hheld in Hge. }
  rewrite Nat2Z.inj_succ, <- Z.add_1_r, inject_Z_plus in Hr0.
  change (inject_Z 1) with 1%Q in Hr0.
  apply IH.
  - destruct n; [|lia]. exfalso.
    change (inject_Z (Z.of_nat 0)) with 0%Q in Hr0. qhalf blinkrate. lra.
  - qhalf blinkrate. lra.
Qed.

End BlinkProofs.

Section BlinkmeProofs.

Variable cfg : config.

(** With a positive period, a positive count and a position on the strip,
    [blinkme] is its loop. *)
Lemma blinkme_loop stopflag pixelnum colour time blinkrate now numblinks :
  int_quotient time blinkrate = Ok numblinks →
  (0 < blinkrate)%Q →
  (pixelnum < LED_COUNT cfg)%nat →
  0 < numblinks →
  blinkme cfg stopflag pixelnum colour time blinkrate now
  = blink_loop stopflag pixelnum colour blinkrate (Z.to_nat numblinks) now.
Proof.
  intros Hq Hrate Hp Hn. unfold blinkme.
  rewrite Hq, (Qle_bool_half _ Hrate).
  destruct (numblinks <=? 0) eqn:E; [lia|].
  destruct (pixelnum <? LED_COUNT cfg)%nat eqn:Ep; [done|].
  apply Nat.ltb_ge in Ep. lia.
Qed.


(** C10, as the code has it.  The loop bound is [int(time/blinkrate)], the
    float quotient of line 100 truncated.  With a positive blink period
    [blinkme] makes at most [max(0, int(time/blinkrate))] passes, whatever
    STOPFLAG does, and exactly that many when it is never canceled and its
    pixel is on the strip; a bound that is not positive means no write and
    an immediate return; an infinite quotient makes [int] raise
    OverflowError before any write.  For floats [time < blinkrate] the
    bound is zero when [time] is not negative, and never positive. *)
Theorem blinkme_bounded
    (stopflag : Q → Z) (pixelnum : nat) (colour : color)
    (time blinkrate now : Q) :
  (0 < blinkrate)%Q →
  match int_quotient time blinkrate with
  | Ok numblinks =>
      Z.of_nat (cycles_of
                  (trace (blinkme cfg stopflag pixelnum colour time blinkrate
                            now)))
      ≤ Z.max 0 numblinks
      ∧ ((∀ t, stopflag t ≠ Z.of_nat pixelnum) →
         (pixelnum < LED_COUNT cfg)%nat →
         exit (blinkme cfg stopflag pixelnum colour time blinkrate now)
         = Returned
         ∧ Z.of_nat (cycles_of
                       (trace (blinkme cfg stopflag pixelnum colour time
                                 blinkrate now)))
           = Z.max 0 numblinks)
      ∧ (numblinks ≤ 0 →
         trace (blinkme cfg stopflag pixelnum colour time blinkrate now) = []
         ∧ exit (blinkme cfg stopflag pixelnum colour time blinkrate now)
           = Returned
         ∧ finish (blinkme cfg stopflag pixelnum colour time blinkrate now)
           = now)
  | Raise e =>
      e = OverflowError
      ∧ nearest_float (time / blinkrate) = None
      ∧ blinkme cfg stopflag pixelnum colour time blinkrate now
        = {| trace := []; finish := now; exit := Crashed OverflowError |}
  end
  ∧ (is_float time → is_float blinkrate → (time < blinkrate)%Q →
     ((0 <= time)%Q → int_quotient time blinkrate = Ok 0)
     ∧ (∀ numblinks,
          int_quotient time blinkrate = Ok numblinks → numblinks ≤ 0)).
Proof.
  intros Hrate. split.
  - destruct (int_quotient time blinkrate) as [numblinks|e] eqn:Hq.
    + unfold blinkme. rewrite Hq, (Qle_bool_half _ Hrate). cbn [negb].
      destruct (numblinks <=? 0) eqn:En.
      * apply Z.leb_le in En. cbn [trace exit finish].
        change (cycles_of []) with 0%nat.
        split; [lia|]. split; [intros _ _; split; [done|lia]|done].
      * apply Z.leb_gt in En. split; [|split].
        -- destruct (pixelnum <? LED_COUNT cfg)%nat; cbn [negb trace];
             [|change (cycles_of []) with 0%nat; lia].
           pose proof (blink_loop_cycles stopflag pixelnum colour blinkrate
                         (Z.to_nat numblinks) now) as [Hle _].
           lia.
        -- intros Hnever Hp. apply Nat.ltb_lt in Hp. rewrite Hp. cbn [negb].
           pose proof (blink_loop_never_stopped stopflag pixelnum colour
                         blinkrate (Z.to_nat numblinks) now Hnever) as Hr.
           split; [done|].
           pose proof (blink_loop_cycles stopflag pixelnum colour blinkrate
                         (Z.to_nat numblinks) now) as [_ Heq].
           rewrite (Heq Hr). lia.
        -- lia.
    + destruct (int_quotient_raise _ _ _ Hq) as [[Hz _]|(_ & Hinf & ->)];
        [lra|].
      split; [done|]. split; [done|]. unfold blinkme. by rewrite Hq.
  - intros Hft Hfb Hlt. split.
    + intros H0. unfold int_quotient. rewrite (Qeq_bool_pos _ Hrate).
      destruct (nearest_float_below_1 (time / blinkrate))
        as (r & -> & Hr0 & Hr1).
      * apply Qle_shift_div_l; [done|]. lra.
      * by apply float_quotient_below_1.
      * f_equal. by apply py_trunc_small.
    + intros n Hq. apply int_quotient_ok in Hq as (_ & q & Hq & ->).
      apply py_trunc_lt_1.
      destruct (Qlt_le_dec time 0) as [Hneg|Hpos].
      * assert (Hx : (time / blinkrate <= 0)%Q)
          by (apply Qle_shift_div_r; [done|]; lra).
        pose proof (nearest_float_nonpos _ _ Hx Hq). lra.
      * destruct (nearest_float_below_1 (time / blinkrate))
          as (r & Hr & _ & Hr1).
        -- apply Qle_shift_div_l; [done|]. lra.
        -- by apply float_quotient_below_1.
        -- rewrite Hr in Hq. by injection Hq as <-.
Qed.

(** C5, as the code has it.  [blinkme] reads STOPFLAG once per full blink
    cycle: its k-th poll comes k+1 whole periods after the start.  A
    request for its position raised at [r0] and held therefore ends the
    task no later than one full period after [r0], and is observed (the
    task leaves through [break]) whenever it comes before the task's last
    poll. *)
Theorem cancellation_observed_within_full_period
    (stopflag : Q → Z) (pixelnum : nat) (colour : color)
    (time blinkrate now r0 : Q) :
  (0 < blinkrate)%Q →
  (now <= r0)%Q →
  (∀ t, (r0 <= t)%Q → stopflag t = Z.of_nat pixelnum) →
  (finish (blinkme cfg stopflag pixelnum colour time blinkrate now)
   <= r0 + blinkrate)%Q
  ∧ (∀ (k : nat) t,
       poll_times now
         (trace (blinkme cfg stopflag pixelnum colour time blinkrate now))
         !! k = Some t →
       (t == now + inject_Z (Z.of_nat (S k)) * blinkrate)%Q)
  ∧ (∀ numblinks,
       int_quotient time blinkrate = Ok numblinks →
       (pixelnum < LED_COUNT cfg)%nat →
       0 < numblinks →
       (r0 <= now + inject_Z numblinks * blinkrate)%Q →
       exit (blinkme cfg stopflag pixelnum colour time blinkrate now)
       = Stopped).
Proof.
  intros Hrate Hnow Hheld. split; [|split].
  - unfold blinkme.
    destruct (int_quotient time blinkrate) as [numblinks|e];
      [|cbn [finish]; lra].
    destruct (numblinks <=? 0); [cbn [finish]; lra|].
    destruct (negb (pixelnum <? LED_COUNT cfg)%nat); [cbn [finish]; lra|].
    destruct (negb (Qle_bool 0 (blinkrate / 2))); [cbn [finish]; lra|].
    by apply blink_loop_latency.
  - intros k t. unfold blinkme.
    destruct (int_quotient time blinkrate) as [numblinks|e]; [|done].
    destruct (numblinks <=? 0); [done|].
    destruct (negb (pixelnum <? LED_COUNT cfg)%nat); [done|].
    destruct (negb (Qle_bool 0 (blinkrate / 2))); [done|].
    apply poll_times_blink_loop.
  - intros numblinks Hq Hp Hn Hr0. rewrite (blinkme_loop _ _ _ _ _ _ _ Hq) by done.
    apply (blink_loop_observes _ _ _ _ r0); [done|done|lia|].
    by rewrite Z2Nat.id by lia.
Qed.

End BlinkmeProofs.

(** ** The main display loop *)

Section LoopProofs.

Context {RT : PyRuntime}.
Variable cfg : config.

Lemma keeps_pool_ret {A} (a : A) : keeps_pool (mret a).
Proof. intros w r w' H. by injection H as _ <-. Qed.

Lemma keeps_pool_raise {A} e : keeps_pool (@raise A e).
Proof. intros w r w' H. by injection H as _ <-. Qed.

Lemma keeps_pool_lift {A} (r : result A) : keeps_pool (lift r).
Proof. destruct r; [apply (keeps_pool_ret a)|apply keeps_pool_raise]. Qed.

Lemma keeps_pool_emit e : keeps_pool (emit e).
Proof. intros w r w' H. by injection H as _ <-. Qed.

Lemma keeps_pool_bind {A B} (m : M A) (k : A → M B) :
  keeps_pool m → (∀ a, keeps_pool (k a)) → keeps_pool (m ≫= k).
Proof.
  intros Hm Hk w r w' H. unfold mbind, M_bind, bind in H.
  destruct (m w) as [[a|e] w1] eqn:E.
  - rewrite (Hk _ _ _ _ H). by eapply Hm.
  - injection H as _ <-. by eapply Hm.
Qed.

Lemma keeps_pool_for_each {A S} (body : A → S → M S) xs st :
  (∀ x st, keeps_pool (body x st)) → keeps_pool (for_each body xs st).
Proof.
  intros Hbody. revert st. induction xs as [|x xs IH]; intros st; simpl.
  - apply (keeps_pool_ret st).
  - apply (keeps_pool_bind (body x st) (for_each body xs)); auto.
Qed.

Lemma keeps_pool_sleep d : keeps_pool (sleep d).
Proof.
  intros w r w' H. unfold sleep in H.
  destruct (Qle_bool 0 d); by injection H as _ <-.
Qed.

Lemma keeps_pool_set_stopflag v : keeps_pool (set_stopflag v).
Proof. intros w r w' H. by injection H as _ <-. Qed.

Lemma keeps_pool_set_pixel p c : keeps_pool (set_pixel cfg p c).
Proof.
  unfold set_pixel. destruct (p <? LED_COUNT cfg)%nat;
    [apply keeps_pool_emit|apply keeps_pool_raise].
Qed.

Lemma keeps_pool_call_blinkme p c time rate :
  keeps_pool (call_blinkme cfg p c time rate).
Proof. intros w r w' H. by injection H as _ <-. Qed.

Lemma keeps_pool_index {A} (xs : list A) p : keeps_pool (index xs p).
Proof.
  unfold index. destruct (xs !! p);
    [apply (keeps_pool_ret a)|apply keeps_pool_raise].
Qed.

Lemma keeps_pool_process_metar metar st :
  keeps_pool (process_metar cfg metar st).
Proof.
  unfold process_metar.
  repeat first
    [ apply keeps_pool_lift
    | apply keeps_pool_emit
    | apply keeps_pool_ret
    | apply keeps_pool_bind; [|intros ?]
    | match goal with
      | |- keeps_pool (match ?x with _ => _ end) => destruct x
      end ].
Qed.

Lemma keeps_pool_get_weather net airports :
  keeps_pool (get_weather cfg net airports).
Proof.
  unfold get_weather.
  apply keeps_pool_bind; [apply keeps_pool_emit|intros _].
  destruct (net (station_string airports));
    [apply keeps_pool_raise|apply keeps_pool_raise|].
  apply keeps_pool_bind; [|intros ?; apply keeps_pool_ret].
  apply keeps_pool_for_each. apply keeps_pool_process_metar.
Qed.

(** C2, as the code has it.  When the fetch fails (transport error or
    unparsable document) nothing catches the exception: [get_weather]
    raises it, it leaves the pass of the loop and the loop itself.  Before
    that the pass has only written the four start-up log lines and the
    "Retriving from" line; the failure is not logged, nothing is retried,
    no pixel is written and the set of threads is as it was. *)
Theorem fetch_failure_escapes
    (e : env) (envs : list env) (w : world) (lines : list string)
    (failure : exn) :
  airports_file e = Some lines →
  (data_server e (station_string (map strip lines)) = NetFail
   ∧ failure = URLError)
  ∨ (data_server e (station_string (map strip lines)) = Malformed
     ∧ failure = ParseError) →
  ∃ w',
    cycle cfg e w = (Raise failure, w')
    ∧ main_loop cfg (e :: envs) w = (Raise failure, w')
    ∧ out w' = (out w ++ [LogInfo (MsgInit 0); LogInfo (MsgInit 1);
                         LogInfo (MsgInit 2); LogInfo (MsgInit 3);
                         LogInfo (MsgRetrieving
                                    (station_string (map strip lines)))])%list
    ∧ pool w' = pool w
    ∧ clock w' = clock w
    ∧ STOPFLAG w' = STOPFLAG w.
Proof.
  intros Hfile Hnet.
  assert (Hcycle : ∃ w', cycle cfg e w = (Raise failure, w')
    ∧ out w' = (out w ++ [LogInfo (MsgInit 0); LogInfo (MsgInit 1);
                         LogInfo (MsgInit 2); LogInfo (MsgInit 3);
                         LogInfo (MsgRetrieving
                                    (station_string (map strip lines)))])%list
    ∧ pool w' = pool w ∧ clock w' = clock w ∧ STOPFLAG w' = STOPFLAG w).
  { unfold cycle, initialize_display_and_leds, get_airport_list, get_weather.
    rewrite Hfile.
    unfold mbind, M_bind, bind, mret, M_ret, ret, emit, raise.
    destruct Hnet as [[-> ->]|[-> ->]]; cbn [out pool clock STOPFLAG];
      (eexists; split; [reflexivity|]; cbn [out pool clock STOPFLAG];
       rewrite <- !app_assoc; done). }
  destruct Hcycle as (w' & Hc & Hrest). exists w'. split; [done|].
  split; [|done]. cbn [main_loop].
  by apply bind_run_raise.
Qed.

(** *** Threads are joined before the next pass when a display is attached *)

Lemma owned_weaken ledstate threadarray (pl pl' : gmap nat task) :
  owned ledstate threadarray pl → pl' ⊆ pl → owned ledstate threadarray pl'.
Proof.
  intros Ho Hsub tid [t Ht]. apply Ho. exists t.
  by eapply lookup_weaken.
Qed.

Lemma join_post tid w w' :
  join cfg (Some tid) w = (Ok tt, w') →
  pool w' ⊆ pool w ∧ pool w' !! tid = None.
Proof.
  unfold join. destruct (pool w !! tid) as [t|] eqn:Et; intros H;
    injection H as <-; cbn [pool set_world].
  - split; [|apply lookup_delete_eq].
    etrans; [apply delete_subseteq|apply map_filter_subseteq].
  - done.
Qed.

Lemma stop_and_join_post threadarray p w w' :
  stop_and_join cfg threadarray p w = (Ok tt, w') →
  pool w' ⊆ pool w
  ∧ ∀ tid, threadarray !! p = Some (Some tid) → pool w' !! tid = None.
Proof.
  intros H. unfold stop_and_join in H.
  apply bind_ok_inv in H as ([] & w1 & H1 & H).
  pose proof (keeps_pool_set_stopflag _ _ _ _ H1) as Hp1.
  apply bind_ok_inv in H as (h & w2 & H2 & H).
  pose proof (keeps_pool_index _ _ _ _ _ H2) as Hp2.
  unfold index in H2. destruct (threadarray !! p) as [h'|] eqn:Eh; [|done].
  injection H2 as -> ->.
  apply bind_ok_inv in H as ([] & w3 & H3 & H).
  pose proof (keeps_pool_set_stopflag _ _ _ _ H) as Hp4.
  destruct h as [tid|]; [|done].
  apply join_post in H3 as [Hsub Hnone].
  rewrite Hp4, <- Hp1. split; [done|].
  intros tid' Htid'. by injection Htid' as <-.
Qed.

Lemma thread_start_post p c time rate w x w' :
  thread_start p c time rate w = (Ok x, w') →
  ∃ t, pool w' = <[x := t]> (pool w).
Proof. intros H. injection H as <- <-. eauto. Qed.

(** Starting the threads (lines 299-307) builds an array that owns them. *)
Lemma spin_up_owned ledstate n k threadarray w threadarray' w' :
  for_each (spin_up cfg ledstate) (seq k n) threadarray w
  = (Ok threadarray', w') →
  length threadarray = k →
  owned ledstate threadarray (pool w) →
  owned ledstate threadarray' (pool w') ∧ length threadarray' = (k + n)%nat.
Proof.
  revert k threadarray w. induction n as [|n IH]; intros k ta w H Hlen Ho;
    simpl in H.
  - injection H as <- <-. split; [done|lia].
  - unfold bind in H.
    destruct (spin_up cfg ledstate k ta w) as [[ta1|e] w1] eqn:E1; [|done].
    apply IH in H as [Ho' Hlen'].
    + split; [done|lia].
    + unfold spin_up in E1.
      apply bind_ok_inv in E1 as ([c windy] & w2 & _ & E1).
      destruct windy.
      * apply bind_ok_inv in E1 as (x & w3 & _ & E1).
        injection E1 as <- _. rewrite length_app. simpl. lia.
      * injection E1 as <- _. rewrite length_app. simpl. lia.
    + unfold spin_up in E1.
      apply bind_ok_inv in E1 as ([c windy] & w2 & Hidx & E1).
      pose proof (keeps_pool_index _ _ _ _ _ Hidx) as Hp2.
      unfold index in Hidx. destruct (ledstate !! k) as [entry|] eqn:Ek;
        [|done]. injection Hidx as -> ->.
      destruct windy.
      * apply bind_ok_inv in E1 as (x & w3 & Hstart & E1).
        injection E1 as <- <-.
        apply thread_start_post in Hstart as [t ->].
        intros tid Htid. destruct (decide (tid = x)) as [->|Hne].
        -- exists k, c. split; [|done].
           rewrite lookup_app_r by lia. by rewrite Hlen, Nat.sub_diag.
        -- rewrite lookup_insert_ne in Htid by done.
           destruct (Ho _ Htid) as (p & c' & Hta & Hls).
           exists p, c'. split; [|done]. by apply lookup_app_l_Some.
      * injection E1 as <- <-.
        intros tid Htid. destruct (Ho _ Htid) as (p & c' & Hta & Hls).
        exists p, c'. split; [|done]. by apply lookup_app_l_Some.
Qed.

Lemma for_each_invariant {A S} (I : S → world → Prop)
    (body : A → S → M S) xs :
  (∀ x st w st' w', I st w → body x st w = (Ok st', w') → I st' w') →
  ∀ st w st' w',
    I st w → for_each body xs st w = (Ok st', w') → I st' w'.
Proof.
  intros Hbody. induction xs as [|x xs IH]; intros st w st' w' HI H;
    simpl in H.
  - by injection H as <- <-.
  - unfold bind in H. destruct (body x st w) as [[st1|e] w1] eqn:E1; [|done].
    eapply IH; [|done]. by eapply Hbody.
Qed.

(** Showing one station (lines 318-339) keeps the array in charge of every
    thread: the thread of an animated position is joined before the fast
    blink and a fresh one is stored in the same slot afterwards. *)
Lemma rotate_station_owned ledstate conditionDict pm threadarray w
    threadarray' w' :
  rotate_station cfg ledstate conditionDict pm threadarray w
  = (Ok threadarray', w') →
  owned ledstate threadarray (pool w) →
  owned ledstate threadarray' (pool w').
Proof.
  destruct pm as [p metarStation]. intros H Ho.
  unfold rotate_station in H. cbn [fst snd] in H.
  apply bind_ok_inv in H as ([] & w1 & H1 & H).
  destruct (FAST_BLINK_DISPLAYED_STATION cfg) eqn:Efast.
  - (* fast blink of the displayed station *)
    assert (Hw1 : pool w1 ⊆ pool w
                  ∧ ∀ c tid, ledstate !! p = Some (c, true) →
                             threadarray !! p = Some (Some tid) →
                             pool w1 !! tid = None).
    { apply bind_ok_inv in H1 as ([c0 windy0] & w2 & Hidx & H1).
      pose proof (keeps_pool_index _ _ _ _ _ Hidx) as Hp2.
      unfold index in Hidx. destruct (ledstate !! p) as [entry|]; [|done].
      injection Hidx as -> ->. destruct windy0.
      - apply stop_and_join_post in H1 as [Hsub Hnone]. split; [done|].
        intros c tid _ Hta. by apply Hnone.
      - injection H1 as <-. split; [done|]. intros c tid Hc. congruence. }
    destruct Hw1 as [Hsub Hjoined].
    pose proof (owned_weaken _ _ _ _ Ho Hsub) as Ho1.
    destruct (bool_decide (metarStation ≠ "NULL")
              && bool_decide (is_Some (conditionDict !! metarStation)));
      [|by injection H as <- <-].
    apply bind_ok_inv in H as ([] & w2 & H2 & H).
    pose proof (keeps_pool_emit _ _ _ _ H2) as Hp2.
    apply bind_ok_inv in H as ([thiscolor windy] & w3 & Hidx & H).
    pose proof (keeps_pool_index _ _ _ _ _ Hidx) as Hp3.
    unfold index in Hidx. destruct (ledstate !! p) as [entry|] eqn:Eentry;
      [|done].
    injection Hidx as -> ->.
    apply bind_ok_inv in H as ([] & w4 & H4 & H).
    pose proof (keeps_pool_call_blinkme _ _ _ _ _ _ _ H4) as Hp4.
    apply bind_ok_inv in H as ([] & w5 & H5 & H).
    pose proof (keeps_pool_set_pixel _ _ _ _ _ H5) as Hp5.
    apply bind_ok_inv in H as (ta1 & w6 & H6 & H).
    apply bind_ok_inv in H as ([] & w7 & H7 & H).
    pose proof (keeps_pool_emit _ _ _ _ H7) as Hp7.
    injection H as <- <-. rewrite Hp7.
    assert (Hpool5 : pool w5 = pool w1) by congruence.
    destruct windy.
    + apply bind_ok_inv in H6 as ([] & w8 & H8 & H6).
      destruct (decide (p < length threadarray)%nat) as [Hlt|]; [|done].
      injection H8 as <-.
      apply bind_ok_inv in H6 as (x & w9 & Hstart & H6).
      injection H6 as <- <-.
      apply thread_start_post in Hstart as [t ->]. rewrite Hpool5.
      intros tid Htid. destruct (decide (tid = x)) as [->|Hne].
      * exists p, thiscolor. split; [|done].
        by apply list_lookup_insert_eq.
      * rewrite lookup_insert_ne in Htid by done.
        destruct (Ho1 _ Htid) as (q & c' & Hta & Hls).
        exists q, c'. split; [|done].
        rewrite list_lookup_insert_ne; [done|]. intros <-.
        rewrite (Hjoined _ _ eq_refl Hta) in Htid. by destruct Htid.
    + injection H6 as <- <-. by rewrite Hpool5.
  - (* no fast blink: the threads are left alone *)
    injection H1 as <-.
    destruct (bool_decide (metarStation ≠ "NULL")
              && bool_decide (is_Some (conditionDict !! metarStation)));
      [|by injection H as <- <-].
    apply bind_ok_inv in H as ([] & w2 & H2 & H).
    pose proof (keeps_pool_emit _ _ _ _ H2) as Hp2.
    apply bind_ok_inv in H as ([] & w3 & H3 & H).
    pose proof (keeps_pool_sleep _ _ _ _ H3) as Hp3.
    injection H as <- <-. by rewrite Hp3, Hp2.
Qed.

(** The loop on lines 343-347 leaves no thread behind. *)
Lemma kill_all_post ledstate threadarray positions w w' :
  for_each (kill_one cfg ledstate threadarray) positions tt w = (Ok tt, w') →
  pool w' ⊆ pool w
  ∧ ∀ p c tid, p ∈ positions → ledstate !! p = Some (c, true) →
               threadarray !! p = Some (Some tid) → pool w' !! tid = None.
Proof.
  revert w. induction positions as [|q positions IH]; intros w H; simpl in H.
  - injection H as <-. split; [done|]. intros p c tid Hp.
    by apply elem_of_nil in Hp.
  - unfold bind in H.
    destruct (kill_one cfg ledstate threadarray q tt w) as [[[]|e] w1] eqn:E1;
      [|done].
    apply IH in H as [Hsub Hrest].
    assert (Hq : pool w1 ⊆ pool w
                 ∧ ∀ c tid, ledstate !! q = Some (c, true) →
                            threadarray !! q = Some (Some tid) →
                            pool w1 !! tid = None).
    { unfold kill_one in E1.
      apply bind_ok_inv in E1 as ([c0 windy0] & w2 & Hidx & E1).
      pose proof (keeps_pool_index _ _ _ _ _ Hidx) as Hp2.
      unfold index in Hidx. destruct (ledstate !! q) as [entry|]; [|done].
      injection Hidx as -> ->. destruct windy0.
      - apply stop_and_join_post in E1 as [Hs Hnone]. split; [done|].
        intros c tid _ Hta. by apply Hnone.
      - injection E1 as <-. split; [done|]. intros c tid Hc. congruence. }
    destruct Hq as [Hsubq Hkilled]. split; [by etrans|].
    intros p c tid Hp Hls Hta. apply elem_of_cons in Hp as [->|Hp].
    + specialize (Hkilled _ _ Hls Hta).
      destruct (pool w' !! tid) as [t|] eqn:Et; [|done].
      by rewrite (lookup_weaken _ _ _ _ Et Hsub) in Hkilled.
    + by eapply Hrest.
Qed.

Lemma keeps_pool_get_airport_list e : keeps_pool (get_airport_list e).
Proof.
  unfold get_airport_list. destruct (airports_file e);
    [apply keeps_pool_ret|apply keeps_pool_raise].
Qed.

Lemma keeps_pool_initialize : keeps_pool (initialize_display_and_leds cfg).
Proof.
  unfold initialize_display_and_leds.
  repeat (apply keeps_pool_bind; [apply keeps_pool_emit|intros _]).
  apply keeps_pool_ret.
Qed.

Lemma initialize_display_value w disp w' :
  initialize_display_and_leds cfg w = (Ok disp, w') → disp = has_display cfg.
Proof. intros H. by injection H as <- _. Qed.

(** With a display attached, a pass that starts without blink threads ends
    without blink threads: every thread it started has been joined. *)
Lemma cycle_with_display_joins_all e w w' :
  has_display cfg = true →
  pool w = ∅ →
  cycle cfg e w = (Ok tt, w') →
  pool w' = ∅.
Proof.
  intros Hdisp Hempty H. unfold cycle in H.
  apply bind_ok_inv in H as (disp & w1 & H1 & H).
  pose proof (keeps_pool_initialize _ _ _ H1) as Hp1.
  apply initialize_display_value in H1. rewrite Hdisp in H1. subst disp.
  apply bind_ok_inv in H as (airports & w2 & H2 & H).
  pose proof (keeps_pool_get_airport_list _ _ _ _ H2) as Hp2.
  apply bind_ok_inv in H as (conds & w3 & H3 & H).
  pose proof (keeps_pool_get_weather _ _ _ _ _ H3) as Hp3.
  cbv zeta in H.
  apply bind_ok_inv in H as (num_display_loops & w4 & H4 & H).
  assert (Hp4 : pool w4 = pool w3).
  { by apply lift_ok_inv in H4 as [_ ->]. }
  apply bind_ok_inv in H as ([] & w5 & H5 & H).
  assert (Hp5 : pool w5 = pool w4).
  { revert H5. apply keeps_pool_for_each. intros p [].
    apply keeps_pool_bind; [apply keeps_pool_index|].
    intros [c b]. apply keeps_pool_set_pixel. }
  apply bind_ok_inv in H as (threadarray & w6 & H6 & H).
  apply spin_up_owned in H6 as [Ho6 _]; [|done|]; last first.
  { rewrite Hp5, Hp4, Hp3, Hp2, Hp1, Hempty. intros tid [t Ht].
    by rewrite lookup_empty in Ht. }
  apply bind_ok_inv in H as ([] & w7 & H7 & H).
  pose proof (keeps_pool_emit _ _ _ _ H7) as Hp7.
  apply bind_ok_inv in H as ([] & w8 & H8 & H).
  pose proof (keeps_pool_emit _ _ _ _ H) as Hp9. rewrite Hp9.
  apply bind_ok_inv in H8 as (threadarray' & w9 & Hrot & H8).
  apply bind_ok_inv in H8 as ([] & w10 & H10 & Hkill).
  pose proof (keeps_pool_emit _ _ _ _ H10) as Hp10.
  assert (Ho9 : owned (calc_target_colors cfg airports conds) threadarray'
                      (pool w9)).
  { revert Hrot.
    apply (for_each_invariant
             (λ ta w, owned (calc_target_colors cfg airports conds) ta (pool w))).
    - intros _ ta wa ta' wa' Hoa.
      apply (for_each_invariant
               (λ ta w, owned (calc_target_colors cfg airports conds) ta
                          (pool w))); [|done].
      intros pm tb wb tb' wb' Hob Hstep. by eapply rotate_station_owned.
    - by rewrite Hp7. }
  apply kill_all_post in Hkill as [Hsub Hkilled].
  apply map_empty. intros tid.
  destruct (pool w8 !! tid) as [t|] eqn:Et; [|done]. exfalso.
  pose proof (lookup_weaken _ _ _ _ Et Hsub) as Et10. rewrite Hp10 in Et10.
  destruct (Ho9 tid (ex_intro _ t Et10)) as (p & c & Hta & Hls).
  rewrite (Hkilled p c tid) in Et; [done| |done|done].
  apply elem_of_seq. apply lookup_lt_Some in Hls. lia.
Qed.

(** Hence, with a display attached, every pass of the loop starts from a
    clean slate. *)
Lemma main_loop_with_display_clean envs w w' :
  has_display cfg = true →
  pool w = ∅ →
  main_loop cfg envs w = (Ok tt, w') →
  pool w' = ∅.
Proof.
  intros Hdisp. revert w. induction envs as [|e envs IH]; intros w Hempty H;
    cbn [main_loop] in H.
  - by injection H as <-.
  - apply bind_ok_inv in H as ([] & w1 & H1 & H).
    eapply IH; [|done]. by eapply cycle_with_display_joins_all.
Qed.

End LoopProofs.

(** ** The thread bookkeeping agrees with blinkme *)

Lemma Qceiling_above (x : Q) : (inject_Z (Qceiling x) < x + 1)%Q.
Proof.
  pose proof (Qceiling_lt x) as H. unfold Z.sub in H.
  rewrite inject_Z_plus, inject_Z_opp in H.
  change (inject_Z 1) with 1%Q in H. lra.
Qed.

Lemma Qceiling_succ (x : Q) : Qceiling (x + 1) = Qceiling x + 1.
Proof.
  pose proof (Qle_ceiling x) as H1. pose proof (Qceiling_above x) as H2.
  pose proof (Qle_ceiling (x + 1)) as H3.
  pose proof (Qceiling_above (x + 1)) as H4.
  assert (Ha : (inject_Z (Qceiling (x + 1)) < inject_Z (Qceiling x + 2))%Q).
  { rewrite inject_Z_plus. change (inject_Z 2) with 2%Q. lra. }
  assert (Hb : (inject_Z (Qceiling x) < inject_Z (Qceiling (x + 1)))%Q) by lra.
  rewrite <- Zlt_Qlt in Ha, Hb. lia.
Qed.

Lemma Qceiling_le_1 (x : Q) : (x <= 1)%Q → Qceiling x ≤ 1.
Proof.
  intros H. pose proof (Qceiling_above x) as H2.
  assert (Ha : (inject_Z (Qceiling x) < inject_Z 2)%Q)
    by (change (inject_Z 2) with 2%Q; lra).
  rewrite <- Zlt_Qlt in Ha. lia.
Qed.

Lemma Qceiling_pos (x : Q) : (0 < x)%Q → 1 ≤ Qceiling x.
Proof.
  intros H. pose proof (Qle_ceiling x) as H1.
  assert (Ha : (inject_Z 0 < inject_Z (Qceiling x))%Q)
    by (change (inject_Z 0) with 0%Q; lra).
  rewrite <- Zlt_Qlt in Ha. lia.
Qed.

Lemma raised_at_spec (a : Q) (p : nat) (t : Q) :
  raised_at a p t = Z.of_nat p ↔ (a <= t)%Q.
Proof.
  unfold raised_at, DONTSTOP. destruct (Qle_bool a t) eqn:E.
  - apply Qle_bool_iff in E. tauto.
  - split; [lia|]. intros H. apply Qle_bool_iff in H. congruence.
Qed.

(** A loop that runs out has slept one full period per pass. *)
Lemma blink_loop_finish_returned stopflag p c rate n now :
  exit (blink_loop stopflag p c rate n now) = Returned →
  (finish (blink_loop stopflag p c rate n now)
   == now + inject_Z (Z.of_nat n) * rate)%Q.
Proof.
  revert now. induction n as [|n IH]; intros now;
    cbn [blink_loop trace exit finish].
  - intros _. change (inject_Z (Z.of_nat 0)) with 0%Q. lra.
  - case_decide; cbn [trace exit finish]; [done|].
    intros Hr. rewrite (IH _ Hr).
    rewrite Nat2Z.inj_succ, <- Z.add_1_r, inject_Z_plus.
    change (inject_Z 1) with 1%Q. qhalf rate. lra.
Qed.

(** With STOPFLAG raised to the position at [a] and held, the loop ends at
    its first poll at or after [a], or runs out before. *)
Lemma blink_loop_finish_raised a p c rate n now :
  (0 < rate)%Q →
  (finish (blink_loop (raised_at a p) p c rate n now)
   == now + inject_Z (Z.min (Z.of_nat n)
                        (Z.max 1 (Qceiling ((a - now) / rate)))) * rate)%Q.
Proof.
  intros Hrate. revert now. induction n as [|n IH]; intros now;
    cbn [blink_loop trace exit finish].
  - rewrite Z.min_l by lia. change (inject_Z (Z.of_nat 0)) with 0%Q. lra.
  - case_decide as Hflag; cbn [trace exit finish].
    + apply raised_at_spec in Hflag.
      assert (Hc : Qceiling ((a - now) / rate) ≤ 1).
      { apply Qceiling_le_1. apply Qle_shift_div_r; [done|].
        qhalf rate. lra. }
      rewrite Z.max_l, Z.min_r by lia.
      change (inject_Z 1) with 1%Q. qhalf rate. lra.
    + rewrite raised_at_spec in Hflag. apply Qnot_le_lt in Hflag.
      rewrite IH.
      assert (Hshift : ((a - now) / rate
                        == (a - (now + rate / 2 + rate / 2)) / rate + 1)%Q).
      { field. lra. }
      rewrite (Qceiling_comp _ _ Hshift), Qceiling_succ.
      assert (Hc : 1 ≤ Qceiling ((a - (now + rate / 2 + rate / 2)) / rate)).
      { apply Qceiling_pos. apply Qlt_shift_div_l; [done|]. lra. }
      replace (Z.min (Z.of_nat (S n))
                 (Z.max 1 (Qceiling ((a - (now + rate / 2 + rate / 2)) / rate)
                           + 1)))
        with (Z.min (Z.of_nat n)
                (Z.max 1 (Qceiling ((a - (now + rate / 2 + rate / 2)) / rate)))
              + 1) by lia.
      rewrite inject_Z_plus. change (inject_Z 1) with 1%Q.
      generalize (inject_Z
                    (Z.min (Z.of_nat n)
                       (Z.max 1 (Qceiling
                                   ((a - (now + rate / 2 + rate / 2)) / rate))))).
      intros k. qhalf rate. lra.
Qed.

Section BookkeepingProofs.

Variable cfg : config.

Local Ltac qz := change (inject_Z 0) with 0%Q; lra.

(** [deadline] is the time at which a thread that is never stopped leaves
    [blinkme]. *)
Lemma deadline_is_blinkme_finish stopflag (t : task) :
  (∀ u, stopflag u ≠ Z.of_nat (t_pixel t)) →
  (finish (blinkme cfg stopflag (t_pixel t) (t_color t) (t_time t) (t_rate t)
             (t_start t))
   == deadline cfg t)%Q.
Proof.
  intros Hnever. unfold deadline, task_cycles, blinkme.
  destruct (int_quotient (t_time t) (t_rate t)) as [numblinks|e];
    [|cbn [finish]; qz].
  destruct (numblinks <=? 0) eqn:En.
  - apply Z.leb_le in En. cbn [finish].
    destruct (negb (t_pixel t <? LED_COUNT cfg)%nat); [qz|].
    destruct (negb (Qle_bool 0 (t_rate t / 2))); [qz|].
    rewrite Z.max_l by lia. qz.
  - apply Z.leb_gt in En.
    destruct (negb (t_pixel t <? LED_COUNT cfg)%nat); [cbn [finish]; qz|].
    destruct (negb (Qle_bool 0 (t_rate t / 2))); [cbn [finish]; qz|].
    rewrite blink_loop_finish_returned
      by (by apply blink_loop_never_stopped).
    rewrite Z2Nat.id, Z.max_r by lia. qz.
Qed.

(** [exit_time] is the time at which a thread leaves [blinkme] when
    STOPFLAG is raised to its position at [a] and held: the wait of
    [join] is the wait for the thread's next poll. *)
Lemma exit_time_is_blinkme_finish (a : Q) (t : task) :
  (finish (blinkme cfg (raised_at a (t_pixel t)) (t_pixel t) (t_color t)
             (t_time t) (t_rate t) (t_start t))
   == exit_time cfg (Z.of_nat (t_pixel t)) a t)%Q.
Proof.
  unfold exit_time, poll_index, deadline, task_cycles, blinkme.
  destruct (int_quotient (t_time t) (t_rate t)) as [numblinks|e] eqn:Hq;
    [|case_decide as Hd; [lia|]; cbn [finish]; qz].
  apply int_quotient_ok in Hq as [Er _].
  destruct (numblinks <=? 0) eqn:En.
  { apply Z.leb_le in En. cbn [finish].
    destruct (negb (t_pixel t <? LED_COUNT cfg)%nat);
      [case_decide; [lia|qz]|].
    destruct (negb (Qle_bool 0 (t_rate t / 2))); [case_decide; [lia|qz]|].
    case_decide; [lia|]. rewrite Z.max_l by lia. qz. }
  apply Z.leb_gt in En.
  destruct (negb (t_pixel t <? LED_COUNT cfg)%nat);
    [cbn [finish]; case_decide; [lia|qz]|].
  destruct (Qle_bool 0 (t_rate t / 2)) eqn:Eh; cbn [negb];
    [|cbn [finish]; case_decide; [lia|qz]].
  assert (Hrate : (0 < t_rate t)%Q).
  { apply Qle_bool_iff in Eh.
    destruct (Qlt_le_dec 0 (t_rate t)) as [Hpos|Hneg]; [done|].
    exfalso. apply Er. qhalf (t_rate t). qz. }
  rewrite blink_loop_finish_raised by done.
  rewrite Z2Nat.id by lia.
  case_decide as Hd.
  - rewrite (Z.max_r 0) in Hd by lia. destruct Hd as [_ Hd].
    rewrite Z.min_r by lia. qz.
  - rewrite (Z.max_r 0) in Hd by lia.
    rewrite Z.min_l, (Z.max_r 0) by lia. qz.
Qed.

End BookkeepingProofs.

(** ** The claims on concrete runs *)

Lemma raised_at_held (r : Q) (p : nat) (t : Q) :
  (r <= t)%Q → raised_at r p t = Z.of_nat p.
Proof.
  intros Hle. unfold raised_at.
  destruct (Qle_bool r t) eqn:E; [done|].
  apply Qle_bool_iff in Hle. congruence.
Qed.

(** C1 fails as stated: a feed whose only record is KBOS without flight
    category yields an empty condition map.  The record is not classified
    UNKNOWN and no log line is written for it; only the notice is printed. *)
Lemma no_category_record_dropped :
  get_weather (RT := decimal_runtime) (source_config true)
    (λ _, Document [metar_no_category]) ["KBOS"] initial_world
  = (Ok ∅,
     {| clock := 0; pool := ∅; next_tid := 0; STOPFLAG := DONTSTOP;
        out := [LogInfo (MsgRetrieving "KBOS");
                Print "Missing flight condition, skipping."] |}).
Proof. vm_compute. reflexivity. Qed.

Lemma get_weather_entries_witness :
  (∀ sid,
     is_Some (({[ "KJFK" := cond_lightning ]} : gmap string condition) !! sid)
     ↔ Exists (classifies sid) [metar_no_category; metar_lightning])
  ∧ (∀ metar (st : @loop_state decimal_runtime) w0,
       metar ∈ [metar_no_category; metar_lightning] →
       flight_category metar = None →
       process_metar (source_config true) metar st w0
       = (Ok st, set_world w0 (clock w0) (pool w0)
                   [Print "Missing flight condition, skipping."])).
Proof.
  apply (get_weather_entries (RT := decimal_runtime) (source_config true)
           (λ _, Document [metar_no_category; metar_lightning])
           ["KBOS"; "KJFK"] [metar_no_category; metar_lightning]
           initial_world
           (get_weather (RT := decimal_runtime) (source_config true)
              (λ _, Document [metar_no_category; metar_lightning])
              ["KBOS"; "KJFK"] initial_world).2).
  - reflexivity.
  - vm_compute. reflexivity.
Defined.

(** C2 fails as stated: with the data server unreachable, the pass of the
    loop raises URLError, and so does the loop. *)
Lemma fetch_failure_raises_out_of_cycle :
  (cycle (RT := decimal_runtime) (source_config true) env_netfail
     initial_world).1 = Raise URLError
  ∧ (main_loop (RT := decimal_runtime) (source_config true)
       [env_netfail; env_windy] initial_world).1 = Raise URLError.
Proof. split; vm_compute; reflexivity. Qed.

Lemma fetch_failure_escapes_witness :
  ∃ w',
    cycle (RT := decimal_runtime) (source_config true) env_malformed
      initial_world = (Raise ParseError, w')
    ∧ main_loop (RT := decimal_runtime) (source_config true)
        [env_malformed; env_windy] initial_world = (Raise ParseError, w')
    ∧ out w' = [LogInfo (MsgInit 0); LogInfo (MsgInit 1);
                LogInfo (MsgInit 2); LogInfo (MsgInit 3);
                LogInfo (MsgRetrieving "KBOS")]
    ∧ pool w' = ∅
    ∧ clock w' = 0%Q
    ∧ STOPFLAG w' = DONTSTOP.
Proof.
  apply (fetch_failure_escapes (RT := decimal_runtime) (source_config true)
           env_malformed [env_windy] initial_world airports_kbos ParseError).
  - reflexivity.
  - right. split; reflexivity.
Defined.

(** C3 on the path without display.  The pass starts the blink thread of
    the windy station, sleeps for the refresh time and ends: STOPFLAG is
    never set and nothing is joined.  The thread (4999 passes of 2 s) is
    still running when the next pass begins, and after two passes two
    threads blink position 0. *)
Theorem threads_outlive_cycle_without_display :
  cycle (RT := decimal_runtime) (source_config false) env_windy initial_world
  = (Ok tt,
     {| clock := 1800 # 1;
        pool := {[ 0%nat := task_kbos 0 ]};
        next_tid := 1;
        STOPFLAG := DONTSTOP;
        out := [LogInfo (MsgInit 0); LogInfo (MsgInit 1);
                LogInfo (MsgInit 2); LogInfo (MsgInit 3);
                LogInfo (MsgRetrieving "KBOS");
                LogInfo (MsgStation "KBOS" "VFR" 30 None 0 "" 0 0 false);
                SetPixel 0 COLOR_VFR; ThreadStart 0 0; Show;
                Sleep (1800 # 1); LogInfo MsgReady] |})
  ∧ blink_tasks_remaining (source_config false)
      (cycle (RT := decimal_runtime) (source_config false) env_windy
         initial_world).2
    = {[ 0%nat := task_kbos 0 ]}
  ∧ blink_tasks_remaining (source_config false)
      (main_loop (RT := decimal_runtime) (source_config false)
         [env_windy; env_windy] initial_world).2
    = {[ 0%nat := task_kbos 0; 1%nat := task_kbos (1800 # 1) ]}.
Proof. repeat split; vm_compute; reflexivity. Qed.

(** C4 on a record without <observation_time>.  As the first record of a
    feed it makes [get_weather] raise UnboundLocalError; after another
    record it is stored with that record's observation time. *)
Theorem missing_observation_time_raises :
  (get_weather (RT := decimal_runtime) (source_config true)
     (λ _, Document [metar_no_time]) ["KBOS"] initial_world).1
  = Raise UnboundLocalError
  ∧ (get_weather (RT := decimal_runtime) (source_config true)
       (λ _, Document [metar_time_only; metar_no_time])
       ["KBOS"; "KJFK"] initial_world).1
    = Ok {[ "KJFK" := cond_time_only; "KBOS" := cond_stale_time ]}.
Proof. split; vm_compute; reflexivity. Qed.

(** C5 fails as stated: with the 2 s period of the source, a request for
    position 0 raised half a second after the start is seen by the first
    poll, at 2 s.  The task has slept two half-periods before that single
    poll, and the latency of 1.5 s exceeds the half-period of 1 s. *)
Lemma cancellation_latency_exceeds_half_period :
  trace (blinkme (source_config true) (raised_at (1 # 2) 0) 0 COLOR_VFR
           (9999 # 1) (2 # 1) 0)
  = blink_body 0 COLOR_VFR (2 # 1) 0
  ∧ exit (blinkme (source_config true) (raised_at (1 # 2) 0) 0 COLOR_VFR
            (9999 # 1) (2 # 1) 0) = Stopped
  ∧ (finish (blinkme (source_config true) (raised_at (1 # 2) 0) 0 COLOR_VFR
               (9999 # 1) (2 # 1) 0) == 2 # 1)%Q
  ∧ ¬ (finish (blinkme (source_config true) (raised_at (1 # 2) 0) 0 COLOR_VFR
                 (9999 # 1) (2 # 1) 0) - (1 # 2)
       <= (2 # 1) / 2)%Q.
Proof.
  split; [vm_compute; reflexivity|].
  split; [vm_compute; reflexivity|].
  split; [vm_compute; reflexivity|].
  vm_compute. intros H. by apply H.
Qed.

Lemma cancellation_observed_within_full_period_witness :
  (finish (blinkme (source_config true) (raised_at (1 # 2) 0) 0 COLOR_VFR
             (9999 # 1) (2 # 1) 0)
   <= (1 # 2) + (2 # 1))%Q
  ∧ (∀ (k : nat) t,
       poll_times 0
         (trace (blinkme (source_config true) (raised_at (1 # 2) 0) 0
                   COLOR_VFR (9999 # 1) (2 # 1) 0)) !! k = Some t →
       (t == 0 + inject_Z (Z.of_nat (S k)) * (2 # 1))%Q)
  ∧ (∀ numblinks,
       int_quotient (9999 # 1) (2 # 1) = Ok numblinks →
       (0 < LED_COUNT (source_config true))%nat →
       0 < numblinks →
       ((1 # 2) <= 0 + inject_Z numblinks * (2 # 1))%Q →
       exit (blinkme (source_config true) (raised_at (1 # 2) 0) 0 COLOR_VFR
               (9999 # 1) (2 # 1) 0) = Stopped).
Proof.
  apply (cancellation_observed_within_full_period (source_config true)
           (raised_at (1 # 2) 0) 0 COLOR_VFR (9999 # 1) (2 # 1) 0 (1 # 2)).
  - reflexivity.
  - vm_compute. discriminate.
  - apply raised_at_held.
Defined.


Lemma lightning_color_wins_witness :
  calc_target_colors (source_config true) ["KBOS"; "NULL"; "KJFK"]
    conds_two !! 2%nat
  = Some (COLOR_LIGHTNING,
          ACTIVATE_WINDCONDITION_ANIMATION (source_config true)
          && ((windSpeed cond_lightning
               >? WIND_BLINK_THRESHOLD (source_config true))
              || windGust cond_lightning))
  ∧ COLOR_LIGHTNING ≠ COLOR_IFR.
Proof.
  apply (lightning_color_wins (RT := decimal_runtime) (source_config true)
           ["KBOS"; "NULL"; "KJFK"]
           conds_two 2 "KJFK" cond_lightning).
  - reflexivity.
  - discriminate.
  - vm_compute. reflexivity.
  - reflexivity.
Defined.

Lemma calc_target_colors_position_count_witness :
  length (calc_target_colors (source_config true) [""; "NULL"; ""]
            conds_two) = 3%nat
  ∧ calc_target_colors (source_config true) ["KBOS"; "NULL"; "KJFK"]
      conds_two !! 0%nat
    = Some (target_entry (source_config true)
              conds_two "KBOS")
  ∧ calc_target_colors (source_config true) [""; "NULL"; ""]
      conds_two
    = [(COLOR_CLEAR, false); (COLOR_CLEAR, false); (COLOR_CLEAR, false)].
Proof.
  split; [|split].
  - apply (calc_target_colors_position_count (RT := decimal_runtime)
             (source_config true) [""; "NULL"; ""]).
  - apply (calc_target_colors_position_count (RT := decimal_runtime)
             (source_config true) ["KBOS"; "NULL"; "KJFK"]).
    reflexivity.
  - apply (calc_target_colors_position_count (RT := decimal_runtime)
             (source_config true) [""; "NULL"; ""]).
    constructor; [left; reflexivity|].
    constructor; [right; vm_compute; reflexivity|].
    constructor; [left; reflexivity|].
    constructor.
Defined.


Lemma blinkme_bounded_witness :
  int_quotient (1 # 2) (2 # 1) = Ok 0
  ∧ Z.of_nat (cycles_of
                (trace (blinkme (source_config true) (λ _, DONTSTOP) 3
                          COLOR_MVFR (1 # 2) (2 # 1) 0)))
    ≤ Z.max 0 0
  ∧ trace (blinkme (source_config true) (λ _, DONTSTOP) 3 COLOR_MVFR
             (1 # 2) (2 # 1) 0) = []
  ∧ exit (blinkme (source_config true) (λ _, DONTSTOP) 3 COLOR_MVFR
            (1 # 2) (2 # 1) 0) = Returned.
Proof.
  assert (Hrate : (0 < 2 # 1)%Q) by reflexivity.
  destruct (blinkme_bounded (source_config true) (λ _, DONTSTOP) 3
              COLOR_MVFR (1 # 2) (2 # 1) 0 Hrate) as [Hrun Hsmall].
  destruct Hsmall as [Hzero _];
    [vm_compute; reflexivity|vm_compute; reflexivity|reflexivity|].
  assert (Hq : int_quotient (1 # 2) (2 # 1) = Ok 0)
    by (apply Hzero; discriminate).
  rewrite Hq in Hrun. destruct Hrun as (Hle & _ & Hnone).
  destruct Hnone as (Htrace & Hexit & _); [lia|].
  split; [exact Hq|]. split; [exact Hle|].
  split; [exact Htrace|exact Hexit].
Defined.

(** C10, as the claim states it, fails for a negative [time]: in
    blinkme(0, COLOR_VFR, -5.0, 2.0) the period is positive and
    [time < blinkrate], but the loop bound [int(-5.0/2.0)] is -2, not zero,
    and the number of passes made, zero, is not at most that bound. *)
Lemma negative_time_loop_bound_not_zero :
  (0 < 2 # 1)%Q
  ∧ (-5 # 1 < 2 # 1)%Q
  ∧ is_float (-5 # 1) ∧ is_float (2 # 1)
  ∧ int_quotient (-5 # 1) (2 # 1) = Ok (-2)
  ∧ -2 ≠ 0
  ∧ ¬ Z.of_nat (cycles_of
                  (trace (blinkme (source_config true) (λ _, DONTSTOP) 0
                            COLOR_VFR (-5 # 1) (2 # 1) 0)))
      ≤ -2.
Proof.
  split; [reflexivity|]. split; [reflexivity|].
  split; [vm_compute; reflexivity|]. split; [vm_compute; reflexivity|].
  split; [vm_compute; reflexivity|]. split; [discriminate|].
  vm_compute. intros H. by apply H.
Qed.

(** * Further properties *)

(** ** get_weather, record by record *)

Section RecordProofs.

Context {RT : PyRuntime}.
Variable cfg : config.

Lemma map_result_ok_Forall2 (sks : list sky_condition) layers :
  map_result read_sky sks = Ok layers → Forall2 layer_of sks layers.
Proof.
  revert layers. induction sks as [|sk sks IH]; intros layers H; simpl in H.
  - injection H as <-. constructor.
  - destruct (read_sky sk) as [layer|e] eqn:E1; [|done].
    destruct (map_result read_sky sks) as [ls|e] eqn:E2; [|done].
    injection H as <-. constructor; [|by apply IH].
    unfold read_sky in E1. unfold layer_of.
    destruct (cloud_base_ft_agl sk) as [s|].
    + simpl in E1. destruct (py_int s) as [z|]; [|done].
      by injection E1 as <-.
    + by injection E1 as <-.
Qed.

Lemma read_sky_is_ok (sk : sky_condition) :
  is_ok (read_sky sk) = true
  ↔ converts int_of_text (Some <$> cloud_base_ft_agl sk).
Proof.
  unfold read_sky, converts. destruct (cloud_base_ft_agl sk) as [s|]; simpl.
  - by destruct (py_int s).
  - done.
Qed.

Lemma map_result_is_ok (sks : list sky_condition) :
  is_ok (map_result read_sky sks) = true
  ↔ Forall (λ sk, converts int_of_text (Some <$> cloud_base_ft_agl sk)) sks.
Proof.
  induction sks as [|sk sks IH]; simpl.
  - split; [constructor|done].
  - rewrite Forall_cons, <- IH, <- read_sky_is_ok.
    destruct (read_sky sk); simpl; [|by split; [|intros [? _]]].
    destruct (map_result read_sky sks); simpl; [done|].
    by split; [|intros [_ ?]].
Qed.

(** What a successful pass over a record with a flight category stored
    and emitted, beyond the wind fields. *)
Lemma process_metar_stored metar st w st' w' :
  process_metar cfg metar st w = (Ok st', w') →
  flight_category metar ≠ None →
  ∃ sid c ev,
    station_id metar = Some (Some sid)
    ∧ conditionDict st' = <[sid := c]> (conditionDict st)
    ∧ obsTime_var st' = Some (obsTime c)
    ∧ lightning c = match raw_text metar with
                    | Some (Some rawText) => has_LTG rawText
                    | _ => false
                    end
    ∧ map_result read_sky (sky_conditions metar) = Ok (skyConditions c)
    ∧ record_event metar ev
    ∧ w' = set_world w (clock w) (pool w) [ev].
Proof.
  intros H Hfc. unfold process_metar in H.
  apply bind_ok_inv in H as (stationId & w1 & H1 & H).
  apply lift_ok_inv in H1 as [H1 ->].
  destruct (flight_category metar) as [fct|] eqn:Efc; [|done].
  repeat step_ok H.
  apply bind_ok_inv in H as ([] & w2 & Hemit & H).
  step_ok H.
  unfold mret, M_ret, ret in H. injection H as <- <-.
  injection Hemit as <-.
  destruct (station_id metar) as [sidt|] eqn:Esid; [|done].
  injection H1 as ->.
  destruct stationId as [sid0|]; [|done]. injection Hs8 as ->.
  eexists _, _, _. split; [done|]. split; [simpl; reflexivity|].
  split; [done|]. simpl. split.
  { destruct (raw_text metar) as [[rawText|]|]; [|done|];
      by injection Hs7 as <-. }
  split; [done|]. split; [|reflexivity].
  unfold record_event. rewrite Efc. by eexists _, _, _, _, _, _, _, _, _.
Qed.

Lemma set_world_twice w c pl evs1 evs2 :
  set_world (set_world w c pl evs1) c pl evs2
  = set_world w c pl (evs1 ++ evs2).
Proof. unfold set_world. simpl. by rewrite app_assoc. Qed.

Lemma set_world_nil w : set_world w (clock w) (pool w) [] = w.
Proof. destruct w. unfold set_world. simpl. by rewrite app_nil_r. Qed.

(** Every record leaves exactly one event, and nothing else changes. *)
Lemma for_each_process_events metars st w st' w' :
  for_each (process_metar cfg) metars st w = (Ok st', w') →
  ∃ evs, w' = set_world w (clock w) (pool w) evs
         ∧ Forall2 record_event metars evs.
Proof.
  revert st w. induction metars as [|m metars IH]; intros st w H; simpl in H.
  - injection H as <- <-. exists []. by rewrite set_world_nil.
  - unfold bind in H.
    destruct (process_metar cfg m st w) as [[st1|e] w1] eqn:E1; [|done].
    apply IH in H as (evs & -> & Hevs).
    assert (∃ ev, w1 = set_world w (clock w) (pool w) [ev]
                  ∧ record_event m ev) as (ev & -> & Hev).
    { destruct (flight_category m) as [fct|] eqn:Efc.
      - apply process_metar_stored in E1
          as (sid & c & ev & _ & _ & _ & _ & _ & Hev & ->);
          [eauto|by rewrite Efc].
      - pose proof (process_metar_station _ _ _ _ _ _ E1) as Hst.
        rewrite (process_metar_skip _ _ _ _ Hst Efc) in E1.
        injection E1 as _ <-. eexists. split; [done|].
        unfold record_event. by rewrite Efc. }
    exists (ev :: evs). split; [|by constructor].
    cbn [clock pool set_world]. by rewrite set_world_twice.
Qed.

End RecordProofs.

(** ** Substrings *)

Lemma substring_prefix (n : nat) (s t : string) :
  substring 0 n s = t → String.length t = n →
  ∃ post, s = String.append t post.
Proof.
  revert s t. induction n as [|n IH]; intros s t Hsub Hlen.
  - destruct t; [|done]. exists s. reflexivity.
  - destruct s as [|c s]; simpl in Hsub; subst t; [done|].
    simpl in Hlen. injection Hlen as Hlen.
    destruct (IH s _ eq_refl Hlen) as [post Hs].
    exists post. simpl. exact (f_equal (String c) Hs).
Qed.

Lemma substring_split (m n : nat) (s t : string) :
  substring m n s = t → String.length t = n →
  ∃ pre post, s = String.append pre (String.append t post).
Proof.
  revert s. induction m as [|m IH]; intros s Hsub Hlen.
  - destruct (substring_prefix _ _ _ Hsub Hlen) as [post ->].
    exists "", post. reflexivity.
  - destruct s as [|c s]; simpl in Hsub.
    + subst t. simpl in Hlen. subst n. exists "", "". reflexivity.
    + destruct (IH s Hsub Hlen) as (pre & post & ->).
      exists (String c pre), post. reflexivity.
Qed.

Lemma substring_append_prefix (t post : string) :
  substring 0 (String.length t) (String.append t post) = t.
Proof.
  induction t as [|c t IH]; simpl.
  - by destruct post.
  - by rewrite IH.
Qed.

Lemma substring_append (pre t post : string) :
  substring (String.length pre) (String.length t)
    (String.append pre (String.append t post)) = t.
Proof.
  induction pre as [|c pre IH].
  - change (substring 0 (String.length t) (String.append t post) = t).
    apply substring_append_prefix.
  - exact IH.
Qed.

(** The lightning test finds the token anywhere in the text. *)
Lemma has_LTG_spec (rawText : string) :
  has_LTG rawText = true
  ↔ ∃ pre post, rawText = String.append pre (String.append "LTG" post).
Proof.
  unfold has_LTG. destruct (String.index 0 "LTG" rawText) as [m|] eqn:E.
  - split; [intros _|done].
    apply index_correct1 in E. by apply (substring_split m 3).
  - split; [done|]. intros (pre & post & ->). exfalso.
    eapply (index_correct3 0 (String.length pre)); [exact E|done|lia|].
    apply (substring_append pre "LTG" post).
Qed.

Section RecordTheorems.

Context {RT : PyRuntime}.
Variable cfg : config.

Lemma converts_ok {A} (conv : text → result A) (field : option text) (d : A) :
  converts conv field →
  ∃ v, match field with Some t => conv t | None => Ok d end = Ok v.
Proof.
  unfold converts. destruct field as [t|]; [|by eauto].
  destruct (conv t); [by eauto|done].
Qed.

Lemma ok_converts {A} (conv : text → result A) (field : option text) (d v : A) :
  match field with Some t => conv t | None => Ok d end = Ok v →
  converts conv field.
Proof.
  unfold converts. destruct field as [t|]; [|done]. by intros ->.
Qed.

(** X1. A record that carries a flight category is processed without an
    exception exactly when it is well formed: station id and flight
    category have text, every numeric element that is present converts,
    <wx_string> and <raw_text> have text when present, and the observation
    time is present and valid, or absent while an earlier record has bound
    [obsTime]. *)
Theorem record_accepted_iff (metar : METAR) (st : loop_state) (w : world) :
  flight_category metar ≠ None →
  is_ok (process_metar cfg metar st w).1 = true ↔ well_formed metar st.
Proof.
  intros Hfc. split.
  - destruct (process_metar cfg metar st w) as [[st'|e] w'] eqn:H; [|done].
    intros _. unfold process_metar in H.
    apply bind_ok_inv in H as (stationId & w1 & H1 & H).
    apply lift_ok_inv in H1 as [H1 ->].
    destruct (flight_category metar) as [fct|] eqn:Efc; [|done].
    repeat step_ok H.
    apply bind_ok_inv in H as ([] & w2 & Hemit & H).
    step_ok H.
    destruct (station_id metar) as [sidt|] eqn:Esid; [|done].
    injection H1 as ->.
    destruct stationId as [sid0|]; [|done].
    destruct fct as [fc0|]; [|done].
    split; [by eauto|]. split; [by eauto|].
    split.
    { unfold converts. destruct (wind_gust_kt metar) as [t|]; [|done].
      by destruct (int_of_text t). }
    split; [by eapply ok_converts|].
    split; [by eapply ok_converts|].
    split; [by eapply ok_converts|].
    split; [by eapply ok_converts|].
    split.
    { unfold converts. destruct (altim_in_hg metar) as [t|]; [|done].
      by destruct (float_of_text t). }
    split; [by destruct (wx_string metar) as [[?|]|]|].
    split.
    { destruct (observation_time metar) as [[s|]|]; [|done|].
      - destruct (fromisoformat (replace_Z s)); [by eauto|done].
      - injection Hs5 as <-. destruct (obsTime_var st); [by eauto|done]. }
    split; [apply map_result_is_ok; by rewrite Hs6|].
    by destruct (raw_text metar) as [[?|]|].
  - intros ([sid Hsid] & [fc Hfc'] & Hgust & Hspeed & Htemp & Hdew & Hvis
            & Halt & Hwx & Htime & Hsky & Hraw).
    unfold process_metar. rewrite Hsid, Hfc'.
    rewrite (bind_run _ _ w (Some sid) w) by reflexivity.
    assert (∃ g, match wind_gust_kt metar with
                 | Some t =>
                     match int_of_text t with
                     | Ok g => Ok (g, ALWAYS_BLINK_FOR_GUSTS cfg
                                      || (g >? WIND_BLINK_THRESHOLD cfg))
                     | Raise e => Raise e
                     end
                 | None => Ok (0, false)
                 end = Ok g) as [g Eg].
    { unfold converts in Hgust. destruct (wind_gust_kt metar) as [t|];
        [|by eauto]. destruct (int_of_text t); [by eauto|done]. }
    rewrite (bind_run _ _ w g w) by (by rewrite Eg).
    destruct (converts_ok _ _ 0 Hspeed) as [v1 E1].
    rewrite (bind_run _ _ w v1 w) by (by rewrite E1).
    destruct (converts_ok _ _ 0 Htemp) as [v2 E2].
    rewrite (bind_run _ _ w v2 w) by (by rewrite E2).
    destruct (converts_ok _ _ 0 Hdew) as [v3 E3].
    rewrite (bind_run _ _ w v3 w) by (by rewrite E3).
    destruct (converts_ok _ _ 0 Hvis) as [v4 E4].
    rewrite (bind_run _ _ w v4 w) by (by rewrite E4).
    assert (∃ x, match altim_in_hg metar with
                 | Some t =>
                     match float_of_text t with
                     | Ok x => Ok (py_round2 x)
                     | Raise e => Raise e
                     end
                 | None => Ok float_zero
                 end = Ok x) as [x Ex].
    { unfold converts in Halt. destruct (altim_in_hg metar) as [t|];
        [|by eauto]. destruct (float_of_text t); [by eauto|done]. }
    rewrite (bind_run _ _ w x w) by (by rewrite Ex).
    assert (∃ d, match observation_time metar with
                 | Some (Some s) =>
                     match fromisoformat (replace_Z s) with
                     | Some d => Ok (Some d)
                     | None => Raise ValueError
                     end
                 | Some None => Raise AttributeError
                 | None => Ok (obsTime_var st)
                 end = Ok (Some d)) as [d Ed].
    { destruct (observation_time metar) as [[s|]|]; [|done|].
      - destruct Htime as [d ->]. by eauto.
      - destruct Htime as [d ->]. by eauto. }
    rewrite (bind_run _ _ w (Some d) w) by (by rewrite Ed).
    apply map_result_is_ok in Hsky.
    destruct (map_result read_sky (sky_conditions metar)) as [layers|] eqn:Es;
      [|done].
    rewrite (bind_run _ _ w layers w) by reflexivity.
    assert (∃ l, match raw_text metar with
                 | Some (Some rawText) => Ok (has_LTG rawText)
                 | Some None => Raise AttributeError
                 | None => Ok false
                 end = Ok l) as [l El].
    { destruct (raw_text metar) as [[?|]|]; by eauto. }
    rewrite (bind_run _ _ w l w) by (by rewrite El).
    rewrite (bind_run _ _ w sid w) by reflexivity.
    rewrite (bind_run _ _ w fc w) by reflexivity.
    assert (∃ o, str_operand match wx_string metar with
                             | Some t => t
                             | None => Some ""
                             end = Ok o) as [o Eo].
    { destruct (wx_string metar) as [[?|]|]; by eauto. }
    rewrite (bind_run _ _ w o w) by (by rewrite Eo).
    reflexivity.
Qed.

(** X2. A record with station id, flight category and a valid observation
    time and none of the optional elements is stored with the defaults:
    wind speed, gust, visibility, temperature and dewpoint 0, altimeter
    0.0, empty wind direction and weather text, no gust flag, no
    lightning, no cloud layers; its one log line is emitted. *)
Theorem minimal_record_defaults
    (metar : METAR) (st : loop_state) (w : world)
    (sid fc s : string) (d : datetime) :
  station_id metar = Some (Some sid) →
  flight_category metar = Some (Some fc) →
  observation_time metar = Some (Some s) →
  fromisoformat (replace_Z s) = Some d →
  optionals_absent metar →
  sky_conditions metar = [] →
  raw_text metar = None →
  process_metar cfg metar st w
  = (Ok {| conditionDict :=
             <[sid := {| flightCategory := fc; windDir := Some "";
                         windSpeed := 0; windGustSpeed := 0;
                         windGust := false; vis := 0; obs := "";
                         tempC := 0; dewpointC := 0; altimHg := float_zero;
                         lightning := false; skyConditions := [];
                         obsTime := d |}]> (conditionDict st);
           stationList := (stationList st ++ [sid])%list;
           obsTime_var := Some d |},
     set_world w (clock w) (pool w)
       [LogInfo (MsgStation sid fc 0 None 0 "" 0 0 false)]).
Proof.
  intros Hsid Hfc Htime Hd (Hg & Hs & Hdir & Ht & Hdew & Hv & Ha & Hwx)
    Hsky Hraw.
  unfold process_metar.
  rewrite Hsid, Hfc, Htime, Hd, Hg, Hs, Hdir, Ht, Hdew, Hv, Ha, Hwx, Hsky,
    Hraw.
  reflexivity.
Qed.

(** X3. When a station occurs more than once in the feed, the condition
    map holds the values of the last record that carries a flight
    category: its flight category verbatim, its wind speed and its
    lightning test. *)
Theorem last_record_wins
    (net : string → response) (airports : list string)
    (metars1 metars2 : list METAR) (metar : METAR) (w w' : world)
    (conds : gmap string condition) (sid : string) :
  net (station_string airports) = Document (metars1 ++ metar :: metars2) →
  get_weather cfg net airports w = (Ok conds, w') →
  classifies sid metar →
  Forall (λ m, ¬ classifies sid m) metars2 →
  ∃ c, conds !! sid = Some c
       ∧ flight_category metar = Some (Some (flightCategory c))
       ∧ windSpeed c = reported_speed metar
       ∧ lightning c = match raw_text metar with
                       | Some (Some rawText) => has_LTG rawText
                       | _ => false
                       end.
Proof.
  intros Hnet H [Hsid Hfc] Hlater.
  apply get_weather_ok_inv in H as (metars' & st & w1 & Hnet' & Hloop & ->).
  rewrite Hnet in Hnet'. injection Hnet' as <-.
  rewrite for_each_app in Hloop.
  apply bind_ok_inv in Hloop as (st1 & w2 & _ & Hloop). simpl in Hloop.
  unfold bind in Hloop.
  destruct (process_metar cfg metar st1 w2) as [[st2|e] w3] eqn:E1; [|done].
  pose proof (for_each_process_dict_other _ _ _ _ _ _ sid Hloop Hlater)
    as Hsame.
  pose proof (process_metar_stored _ _ _ _ _ _ E1 Hfc)
    as (sid1 & c1 & ev & Hsid1 & Hd1 & _ & Hl1 & _).
  apply process_metar_classified in E1
    as (sid0 & c & Hsid0 & Hd & _ & Hcat & Hspeed & _); [|done].
  rewrite Hsid in Hsid0, Hsid1. injection Hsid0 as <-. injection Hsid1 as <-.
  assert (c1 = c) as ->.
  { assert (Heq : <[sid:=c1]> (conditionDict st1) !! sid
                  = <[sid:=c]> (conditionDict st1) !! sid) by congruence.
    rewrite !lookup_insert_eq in Heq. congruence. }
  exists c. rewrite Hsame, Hd, lookup_insert_eq. done.
Qed.

(** X4. A <METAR> without <station_id> aborts the whole fetch with
    AttributeError when the records before it were processed: no
    condition map is returned, whatever the rest of the feed holds and
    whether or not the record has a flight category. *)
Theorem missing_station_id_aborts
    (net : string → response) (airports : list string)
    (before after : list METAR) (metar : METAR) (w : world) :
  net (station_string airports) = Document (before ++ metar :: after) →
  station_id metar = None →
  is_ok (get_weather cfg (λ _, Document before) airports w).1 = true →
  (get_weather cfg net airports w).1 = Raise AttributeError.
Proof.
  intros Hnet Hsid Hbefore. unfold get_weather in *. rewrite Hnet.
  unfold mbind, M_bind, bind in *. simpl in *.
  set (w0 := {| clock := clock w; pool := pool w; next_tid := next_tid w;
                STOPFLAG := STOPFLAG w;
                out := (out w ++ [LogInfo
                                    (MsgRetrieving
                                       (station_string airports))])%list |})
    in *.
  set (st0 := {| conditionDict := ∅; stationList := [];
                 obsTime_var := None |}) in *.
  rewrite for_each_app. unfold mbind, M_bind, bind.
  destruct (for_each (process_metar cfg) before st0 w0) as [[st1|e] w1];
    [|done].
  simpl. unfold bind, process_metar. rewrite Hsid. reflexivity.
Qed.

(** X5. A successful [get_weather] emits the "Retriving from" line and
    then exactly one event per record of the feed, in feed order: the
    station's log line for a record with a flight category, the printed
    notice for one without.  It changes neither the clock, nor the set of
    threads, nor STOPFLAG. *)
Theorem get_weather_events
    (net : string → response) (airports : list string)
    (metars : list METAR) (w w' : world) (conds : gmap string condition) :
  net (station_string airports) = Document metars →
  get_weather cfg net airports w = (Ok conds, w') →
  ∃ evs,
    out w' = (out w ++ LogInfo (MsgRetrieving (station_string airports))
                       :: evs)%list
    ∧ Forall2 record_event metars evs
    ∧ clock w' = clock w ∧ pool w' = pool w ∧ STOPFLAG w' = STOPFLAG w.
Proof.
  intros Hnet H. unfold get_weather in H. rewrite Hnet in H.
  apply bind_ok_inv in H as ([] & w1 & Hemit & H).
  injection Hemit as <-.
  apply bind_ok_inv in H as (st & w2 & Hloop & H).
  injection H as _ <-.
  apply for_each_process_events in Hloop as (evs & -> & Hevs).
  exists evs. cbn [out clock pool STOPFLAG set_world].
  by rewrite <- app_assoc.
Qed.

(** X6. The lightning flag stored for a record is set exactly when the
    record has a <raw_text> whose text contains "LTG" somewhere; the
    weather text of <wx_string> plays no part. *)
Theorem lightning_iff_LTG_in_raw_text
    (metar : METAR) (st st' : loop_state) (w w' : world) :
  process_metar cfg metar st w = (Ok st', w') →
  flight_category metar ≠ None →
  ∃ sid c,
    station_id metar = Some (Some sid)
    ∧ conditionDict st' !! sid = Some c
    ∧ (lightning c = true
       ↔ ∃ pre post,
           raw_text metar
           = Some (Some (String.append pre (String.append "LTG" post)))).
Proof.
  intros H Hfc.
  apply process_metar_stored in H
    as (sid & c & ev & Hsid & Hd & _ & Hl & _); [|done].
  exists sid, c. split; [done|]. split; [by rewrite Hd, lookup_insert_eq|].
  rewrite Hl. destruct (raw_text metar) as [[rawText|]|].
  - rewrite has_LTG_spec. split.
    + intros (pre & post & ->). by eauto.
    + intros (pre & post & Heq). injection Heq as ->. by eauto.
  - split; [done|]. by intros (? & ? & ?).
  - split; [done|]. by intros (? & ? & ?).
Qed.

(** X7. The cloud layers stored for a record are one per
    <sky_condition>, in document order, each with the cover attribute as
    it is and the base converted by [int], 0 when the attribute is absent. *)
Theorem sky_layers_stored
    (metar : METAR) (st st' : loop_state) (w w' : world) :
  process_metar cfg metar st w = (Ok st', w') →
  flight_category metar ≠ None →
  ∃ sid c,
    station_id metar = Some (Some sid)
    ∧ conditionDict st' !! sid = Some c
    ∧ Forall2 layer_of (sky_conditions metar) (skyConditions c).
Proof.
  intros H Hfc.
  apply process_metar_stored in H
    as (sid & c & ev & Hsid & Hd & _ & _ & Hsky & _); [|done].
  exists sid, c. split; [done|]. split; [by rewrite Hd, lookup_insert_eq|].
  by apply map_result_ok_Forall2.
Qed.

End RecordTheorems.

(** ** get_airport_list *)

Lemma lstrip_spec (s : string) :
  ∃ pre, s = String.append pre (lstrip s)
         ∧ all_space pre = true
         ∧ starts_with_space (lstrip s) = false.
Proof.
  induction s as [|c s (pre & Hs & Hpre & Hstart)]; simpl.
  - by exists "".
  - destruct (is_space c) eqn:Ec.
    + exists (String c pre). simpl. rewrite Ec, Hpre. split; [|done].
      exact (f_equal (String c) Hs).
    + exists "". simpl. by rewrite Ec.
Qed.

Lemma rstrip_spec (s : string) :
  ∃ post, s = String.append (rstrip s) post
          ∧ all_space post = true
          ∧ ends_with_space (rstrip s) = false
          ∧ starts_with_space (rstrip s)
            = starts_with_space s && negb (all_space s).
Proof.
  induction s as [|c s (post & Hs & Hpost & Hend & Hstart)]; simpl.
  - by exists "".
  - destruct (rstrip s) as [|d r] eqn:Er.
    + (* the rest is whitespace only *)
      change (s = post) in Hs. subst post. rewrite Hpost.
      destruct (is_space c) eqn:Ec; simpl.
      * exists (String c s). simpl. by rewrite Ec, Hpost.
      * exists s. simpl. by rewrite Ec.
    + exists post. simpl. split; [exact (f_equal (String c) Hs)|].
      split; [done|]. split; [done|].
      assert (all_space s = false) as ->.
      { rewrite Hs. simpl. simpl in Hend. clear -Hend.
        revert d Hend. induction r as [|e r IH]; intros d Hend; simpl in *.
        - by rewrite Hend.
        - rewrite (IH e Hend). by destruct (is_space d). }
      by destruct (is_space c).
Qed.

Lemma all_space_starts (s : string) :
  starts_with_space s = false → all_space s = true → s = "".
Proof. destruct s as [|c s]; simpl; [done|]. by intros ->. Qed.

(** [strip] removes whitespace at both ends and nothing else. *)
Lemma strip_spec (s : string) :
  ∃ pre post,
    s = String.append pre (String.append (strip s) post)
    ∧ all_space pre = true ∧ all_space post = true
    ∧ starts_with_space (strip s) = false
    ∧ ends_with_space (strip s) = false.
Proof.
  destruct (lstrip_spec s) as (pre & Hs & Hpre & Hstart).
  destruct (rstrip_spec (lstrip s)) as (post & Hl & Hpost & Hend & Hst).
  exists pre, post. unfold strip. rewrite <- Hl.
  split; [done|]. split; [done|]. split; [done|]. split; [|done].
  rewrite Hst, Hstart. done.
Qed.

Lemma all_space_append (s1 s2 : string) :
  all_space (String.append s1 s2) = all_space s1 && all_space s2.
Proof.
  induction s1 as [|c s1 IH]; simpl; [done|].
  rewrite IH. by destruct (is_space c).
Qed.

Lemma strip_blank (s : string) : all_space s = true → strip s = "".
Proof.
  intros Hs. destruct (strip_spec s) as (pre & post & Heq & _ & _ & Hstart & _).
  rewrite Heq, !all_space_append in Hs.
  apply andb_prop in Hs as [_ Hs]. apply andb_prop in Hs as [Hs _].
  by apply all_space_starts.
Qed.

Section PositionTheorems.

Context {RT : PyRuntime}.
Variable cfg : config.

(** X8. [get_airport_list] returns one code per line of the airports file,
    in file order; each code is its line without the whitespace at both
    ends (the line break included), and nothing else is removed.  Without
    the file it raises OSError. *)
Theorem get_airport_list_codes (e : env) (w : world) :
  match airports_file e with
  | None => get_airport_list e w = (Raise OSError, w)
  | Some lines =>
      ∃ airports,
        get_airport_list e w = (Ok airports, w)
        ∧ Forall2 (λ line code,
                     ∃ pre post,
                       line = String.append pre (String.append code post)
                       ∧ all_space pre = true ∧ all_space post = true
                       ∧ starts_with_space code = false
                       ∧ ends_with_space code = false)
                  lines airports
  end.
Proof.
  unfold get_airport_list. destruct (airports_file e) as [lines|]; [|done].
  exists (map strip lines). split; [done|].
  induction lines as [|line lines IH]; simpl; constructor; [|done].
  apply strip_spec.
Qed.

(** X9. A line of the airports file that holds only whitespace is a
    placeholder: its position gets the off colour and is not animated,
    whatever the feed reported. *)
Theorem blank_line_is_placeholder
    (e : env) (w : world) (lines : list string) (i : nat) (line : string)
    (conditions : gmap string condition) :
  airports_file e = Some lines →
  lines !! i = Some line →
  all_space line = true →
  ∃ airports,
    get_airport_list e w = (Ok airports, w)
    ∧ length airports = length lines
    ∧ calc_target_colors cfg airports conditions !! i
      = Some (COLOR_CLEAR, false).
Proof.
  intros Hfile Hline Hblank. unfold get_airport_list. rewrite Hfile.
  exists (map strip lines). split; [done|]. split; [apply length_map|].
  rewrite calc_target_colors_lookup, list_lookup_fmap, Hline. simpl.
  by rewrite (strip_blank _ Hblank).
Qed.

(** X10. A station that has a condition is dark exactly when the
    condition shows no lightning and its flight category is none of VFR,
    MVFR, IFR, LIFR (the comparison is case sensitive). *)
Theorem station_dark_iff
    (stations : list string) (conditions : gmap string condition)
    (i : nat) (code : string) (c : condition) :
  stations !! i = Some code →
  code ≠ "" →
  conditions !! code = Some c →
  ∃ colour animate,
    calc_target_colors cfg stations conditions !! i = Some (colour, animate)
    ∧ (colour = COLOR_CLEAR
       ↔ lightning c = false ∧ flightCategory c ∉ recognised_categories).
Proof.
  intros Hi Hcode Hc. rewrite calc_target_colors_lookup, Hi. simpl.
  unfold target_entry. case_decide; [|done]. rewrite Hc.
  eexists _, _. split; [done|]. unfold recognised_categories.
  destruct (lightning c); [split; [done|by intros [? _]]|].
  destruct (String.eqb_spec (flightCategory c) "VFR") as [E|?].
  { split; [done|]. intros [_ Hn]. rewrite !not_elem_of_cons in Hn.
    by destruct Hn as (? & ? & ? & ? & _). }
  destruct (String.eqb_spec (flightCategory c) "MVFR") as [E|?].
  { split; [done|]. intros [_ Hn]. rewrite !not_elem_of_cons in Hn.
    by destruct Hn as (? & ? & ? & ? & _). }
  destruct (String.eqb_spec (flightCategory c) "IFR") as [E|?].
  { split; [done|]. intros [_ Hn]. rewrite !not_elem_of_cons in Hn.
    by destruct Hn as (? & ? & ? & ? & _). }
  destruct (String.eqb_spec (flightCategory c) "LIFR") as [E|?].
  { split; [done|]. intros [_ Hn]. rewrite !not_elem_of_cons in Hn.
    by destruct Hn as (? & ? & ? & ? & _). }
  split; [|done]. intros _. split; [done|].
  rewrite !not_elem_of_cons. repeat split; try done. apply not_elem_of_nil.
Qed.

(** X11. A lit colour tells what it stands for: two stations with
    conditions that show the same colour other than off agree on
    lightning, and without lightning they have the same flight category. *)
Theorem lit_colour_identifies
    (conditions : gmap string condition) (code1 code2 : string)
    (c1 c2 : condition) :
  code1 ≠ "" → code2 ≠ "" →
  conditions !! code1 = Some c1 →
  conditions !! code2 = Some c2 →
  (target_entry cfg conditions code1).1 = (target_entry cfg conditions code2).1 →
  (target_entry cfg conditions code1).1 ≠ COLOR_CLEAR →
  lightning c1 = lightning c2
  ∧ (lightning c1 = false → flightCategory c1 = flightCategory c2).
Proof.
  intros H1 H2 Hc1 Hc2. unfold target_entry.
  do 2 (case_decide; [|done]). rewrite Hc1, Hc2. cbn [fst].
  destruct (lightning c1), (lightning c2);
    repeat match goal with
           | |- context [if (?a =? ?b)%string then _ else _] =>
               destruct (String.eqb_spec a b)
           end;
    intros Heq Hlit; try done; split; try done; intros _; congruence.
Qed.

(** X12. A position is animated only for a station that has a condition,
    with the wind animation switched on and a wind speed above the
    threshold or the gust flag set.  Placeholders and stations without
    data never blink. *)
Theorem animated_only_with_wind
    (stations : list string) (conditions : gmap string condition)
    (i : nat) (colour : color) :
  calc_target_colors cfg stations conditions !! i = Some (colour, true) →
  ∃ code c,
    stations !! i = Some code
    ∧ code ≠ ""
    ∧ conditions !! code = Some c
    ∧ ACTIVATE_WINDCONDITION_ANIMATION cfg = true
    ∧ (WIND_BLINK_THRESHOLD cfg < windSpeed c ∨ windGust c = true).
Proof.
  rewrite calc_target_colors_lookup.
  destruct (stations !! i) as [code|] eqn:Ei; [|done]. simpl.
  unfold target_entry. case_decide as Hcode; [|done].
  destruct (conditions !! code) as [c|] eqn:Ec; [|done].
  intros H. injection H as _ Hw.
  apply andb_prop in Hw as [Hact Hw]. exists code, c.
  split; [done|]. split; [done|]. split; [done|]. split; [done|].
  apply orb_prop in Hw as [Hw|Hw].
  - left. rewrite Z.gtb_ltb in Hw. by apply Z.ltb_lt.
  - right. by apply bool_decide_eq_true in Hw.
Qed.

End PositionTheorems.

(** ** blinkme, write by write *)

Section BlinkTraceProofs.

Variable stopflag : Q → Z.
Variable pixelnum : nat.
Variable colour : color.
Variable blinkrate : Q.

Lemma writes_to_blink_body_other q seen :
  q ≠ pixelnum →
  writes_to q (blink_body pixelnum colour blinkrate seen) = [].
Proof.
  intros Hq. unfold writes_to, blink_body. simpl.
  by repeat case_decide.
Qed.

Lemma blink_loop_writes_other q n now :
  q ≠ pixelnum →
  writes_to q (trace (blink_loop stopflag pixelnum colour blinkrate n now))
  = [].
Proof.
  intros Hq. revert now. induction n as [|n IH]; intros now;
    cbn [blink_loop trace exit finish]; [done|].
  case_decide; cbn [trace exit finish].
  - by apply writes_to_blink_body_other.
  - by rewrite writes_to_app, writes_to_blink_body_other, IH.
Qed.

Lemma blink_loop_writes n now :
  writes_to pixelnum
    (trace (blink_loop stopflag pixelnum colour blinkrate n now))
  = concat (replicate
              (cycles_of
                 (trace (blink_loop stopflag pixelnum colour blinkrate n now)))
              [COLOR_CLEAR; colour]).
Proof.
  revert now. induction n as [|n IH]; intros now;
    cbn [blink_loop trace exit finish]; [done|].
  case_decide; cbn [trace exit finish].
  - by rewrite writes_to_blink_body, cycles_of_blink_body.
  - rewrite writes_to_app, writes_to_blink_body, cycles_of_app,
      cycles_of_blink_body, IH. done.
Qed.

(** The loop ends after one full period per pass it made. *)
Lemma blink_loop_finish n now :
  (finish (blink_loop stopflag pixelnum colour blinkrate n now)
   == now + inject_Z (Z.of_nat
                        (cycles_of
                           (trace (blink_loop stopflag pixelnum colour
                                     blinkrate n now)))) * blinkrate)%Q.
Proof.
  revert now. induction n as [|n IH]; intros now;
    cbn [blink_loop trace exit finish].
  - change (inject_Z (Z.of_nat (cycles_of []))) with 0%Q. lra.
  - case_decide; cbn [trace exit finish].
    + rewrite cycles_of_blink_body. change (inject_Z (Z.of_nat 1)) with 1%Q.
      qhalf blinkrate. lra.
    + rewrite cycles_of_app, cycles_of_blink_body, IH.
      rewrite Nat2Z.inj_add, inject_Z_plus.
      change (inject_Z (Z.of_nat 1)) with 1%Q. qhalf blinkrate. lra.
Qed.

End BlinkTraceProofs.

Section BlinkmeTheorems.

Variable cfg : config.

(** X13. [blinkme] writes to no position but its own, and a run that
    does not raise writes there the off colour and the on colour in turn,
    once each per blink cycle. *)
Theorem blinkme_writes
    (stopflag : Q → Z) (pixelnum : nat) (colour : color)
    (time blinkrate now : Q) :
  (∀ q, q ≠ pixelnum →
        writes_to q
          (trace (blinkme cfg stopflag pixelnum colour time blinkrate now))
        = [])
  ∧ ((∀ e, exit (blinkme cfg stopflag pixelnum colour time blinkrate now)
           ≠ Crashed e) →
     writes_to pixelnum
       (trace (blinkme cfg stopflag pixelnum colour time blinkrate now))
     = concat (replicate
                 (cycles_of
                    (trace (blinkme cfg stopflag pixelnum colour time
                              blinkrate now)))
                 [COLOR_CLEAR; colour])).
Proof.
  unfold blinkme.
  destruct (int_quotient time blinkrate) as [numblinks|e].
  2: { split; [done|]. intros Hno. by destruct (Hno e). }
  destruct (numblinks <=? 0); [done|].
  destruct (negb (pixelnum <? LED_COUNT cfg)%nat); [done|].
  destruct (negb (Qle_bool 0 (blinkrate / 2))).
  - split.
    + intros q Hq. cbn [trace]. unfold writes_to. simpl. by case_decide.
    + intros Hno. by destruct (Hno ValueError).
  - split.
    + intros q Hq. by apply blink_loop_writes_other.
    + intros _. apply blink_loop_writes.
Qed.

(** X14. With a positive period, [blinkme] ends exactly one period after
    its start for each blink cycle it made, and no later than
    [max(0, int(time/blinkrate))] periods after its start, whatever
    STOPFLAG does. *)
Theorem blinkme_duration
    (stopflag : Q → Z) (pixelnum : nat) (colour : color)
    (time blinkrate now : Q) :
  (0 < blinkrate)%Q →
  (finish (blinkme cfg stopflag pixelnum colour time blinkrate now)
   == now + inject_Z (Z.of_nat
                        (cycles_of
                           (trace (blinkme cfg stopflag pixelnum colour time
                                     blinkrate now)))) * blinkrate)%Q
  ∧ (∀ numblinks,
       int_quotient time blinkrate = Ok numblinks →
       (finish (blinkme cfg stopflag pixelnum colour time blinkrate now)
        <= now + inject_Z (Z.max 0 numblinks) * blinkrate)%Q).
Proof.
  intros Hrate. unfold blinkme.
  destruct (int_quotient time blinkrate) as [numblinks|e].
  2: { cbn [trace finish].
       change (inject_Z (Z.of_nat (cycles_of []))) with 0%Q.
       split; [lra|done]. }
  rewrite (Qle_bool_half _ Hrate). cbn [negb].
  destruct (numblinks <=? 0) eqn:En.
  { apply Z.leb_le in En. cbn [trace finish].
    change (inject_Z (Z.of_nat (cycles_of []))) with 0%Q.
    split; [lra|]. intros n [= <-]. rewrite Z.max_l by done.
    change (inject_Z 0) with 0%Q. lra. }
  apply Z.leb_gt in En.
  destruct (pixelnum <? LED_COUNT cfg)%nat; cbn [negb].
  - split; [apply blink_loop_finish|].
    intros n [= <-]. rewrite blink_loop_finish.
    pose proof (blink_loop_cycles stopflag pixelnum colour blinkrate
                  (Z.to_nat numblinks) now) as [Hle _].
    assert (Hc : (inject_Z (Z.of_nat
                    (cycles_of
                       (trace (blink_loop stopflag pixelnum colour blinkrate
                                 (Z.to_nat numblinks) now))))
                  <= inject_Z (Z.max 0 numblinks))%Q).
    { rewrite <- Zle_Qle. lia. }
    revert Hc. generalize (inject_Z (Z.of_nat
                    (cycles_of
                       (trace (blink_loop stopflag pixelnum colour blinkrate
                                 (Z.to_nat numblinks) now))))).
    generalize (inject_Z (Z.max 0 numblinks)).
    intros n k Hc. nra.
  - cbn [trace finish]. change (inject_Z (Z.of_nat (cycles_of []))) with 0%Q.
    split; [lra|]. intros n [= <-]. rewrite Z.max_r by lia.
    assert (Hn : (0 < inject_Z numblinks)%Q)
      by (change 0%Q with (inject_Z 0); by rewrite <- Zlt_Qlt).
    nra.
Qed.

(** X15. How [blinkme] raises.  A run that raises has completed no blink
    cycle and has written nothing but the off colour.  A zero period
    raises ZeroDivisionError and an infinite quotient OverflowError, both
    before any write.  With a positive loop bound, a pixel past the end of
    the strip raises IndexError at the first write, and a negative period
    makes the first sleep raise, after the off colour has been written.
    A loop bound that is not positive hides a bad pixel or period: the
    call returns without an exception. *)
Theorem blinkme_raises
    (stopflag : Q → Z) (pixelnum : nat) (colour : color)
    (time blinkrate now : Q) :
  (∀ e, exit (blinkme cfg stopflag pixelnum colour time blinkrate now)
        = Crashed e →
        cycles_of
          (trace (blinkme cfg stopflag pixelnum colour time blinkrate now))
        = 0%nat
        ∧ ∀ c, c ∈ writes_to pixelnum
                     (trace (blinkme cfg stopflag pixelnum colour time
                               blinkrate now)) →
               c = COLOR_CLEAR)
  ∧ ((blinkrate == 0)%Q →
     blinkme cfg stopflag pixelnum colour time blinkrate now
     = {| trace := []; finish := now; exit := Crashed ZeroDivisionError |})
  ∧ (¬ (blinkrate == 0)%Q → nearest_float (time / blinkrate) = None →
     blinkme cfg stopflag pixelnum colour time blinkrate now
     = {| trace := []; finish := now; exit := Crashed OverflowError |})
  ∧ (∀ numblinks,
       int_quotient time blinkrate = Ok numblinks →
       (numblinks ≤ 0 →
        blinkme cfg stopflag pixelnum colour time blinkrate now
        = {| trace := []; finish := now; exit := Returned |})
       ∧ (0 < numblinks → (LED_COUNT cfg ≤ pixelnum)%nat →
          blinkme cfg stopflag pixelnum colour time blinkrate now
          = {| trace := []; finish := now; exit := Crashed IndexError |})
       ∧ (0 < numblinks → (pixelnum < LED_COUNT cfg)%nat →
          (blinkrate < 0)%Q →
          ∃ e,
            blinkme cfg stopflag pixelnum colour time blinkrate now
            = {| trace := [SetPixel pixelnum COLOR_CLEAR; Show];
                 finish := now; exit := Crashed e |})).
Proof.
  split; [|split; [|split]].
  - intros e. unfold blinkme.
    destruct (int_quotient time blinkrate) as [numblinks|e'].
    2: { cbn [trace]. intros _. split; [done|]. intros c Hc.
         by apply elem_of_nil in Hc. }
    destruct (numblinks <=? 0); [done|].
    destruct (negb (pixelnum <? LED_COUNT cfg)%nat).
    { cbn [trace]. intros _. split; [done|]. intros c Hc.
      by apply elem_of_nil in Hc. }
    destruct (negb (Qle_bool 0 (blinkrate / 2))).
    + cbn [trace]. intros _. split; [done|]. intros c.
      unfold writes_to. simpl. case_decide; [|done].
      intros Hc. apply elem_of_cons in Hc as [->|Hc]; [done|].
      by apply elem_of_nil in Hc.
    + intros H.
      by destruct (blink_loop_exit stopflag pixelnum colour blinkrate
                     (Z.to_nat numblinks) now) as [Hx|Hx]; rewrite Hx in H.
  - intros Hz. unfold blinkme, int_quotient.
    apply Qeq_bool_iff in Hz. by rewrite Hz.
  - intros Hnz Hinf. unfold blinkme, int_quotient.
    destruct (Qeq_bool blinkrate 0) eqn:Ez.
    { apply Qeq_bool_iff in Ez. done. }
    by rewrite Hinf.
  - intros numblinks Hq. unfold blinkme. rewrite Hq. split; [|split].
    + intros Hn. apply Z.leb_le in Hn. by rewrite Hn.
    + intros Hn Hp. apply Z.leb_gt in Hn. rewrite Hn.
      apply Nat.ltb_ge in Hp. by rewrite Hp.
    + intros Hn Hp Hrate. apply Z.leb_gt in Hn. rewrite Hn.
      apply Nat.ltb_lt in Hp. rewrite Hp. cbn [negb].
      destruct (Qle_bool 0 (blinkrate / 2)) eqn:Eh; [|by eexists].
      apply Qle_bool_iff in Eh. exfalso. qhalf blinkrate. lra.
Qed.

End BlinkmeTheorems.

(** ** The scheduler, thread by thread *)

Section OwnerProofs.

Context {RT : PyRuntime}.
Variable cfg : config.

Lemma single_owner_weaken ledstate threadarray (pl pl' : gmap nat task) :
  single_owner ledstate threadarray pl → pl' ⊆ pl →
  single_owner ledstate threadarray pl'.
Proof.
  intros Ho Hsub tid t Ht. apply Ho. by eapply lookup_weaken.
Qed.

Lemma single_owner_unique ledstate threadarray (pl : gmap nat task)
    tid1 tid2 t1 t2 :
  single_owner ledstate threadarray pl →
  pl !! tid1 = Some t1 → pl !! tid2 = Some t2 →
  t_pixel t1 = t_pixel t2 → tid1 = tid2.
Proof.
  intros Ho H1 H2 Hp.
  destruct (Ho _ _ H1) as [Ha _]. destruct (Ho _ _ H2) as [Hb _].
  rewrite Hp in Ha. congruence.
Qed.

Lemma thread_start_world p c time rate w x w' :
  thread_start p c time rate w = (Ok x, w') →
  x = next_tid w
  ∧ pool w' = <[x := {| t_pixel := p; t_color := c; t_time := time;
                        t_rate := rate; t_start := clock w |}]> (pool w)
  ∧ next_tid w' = S (next_tid w)
  ∧ STOPFLAG w' = STOPFLAG w
  ∧ clock w' = clock w.
Proof. intros H. by injection H as <- <-. Qed.

Lemma index_inv {A} (xs : list A) p w x w' :
  index xs p w = (Ok x, w') → xs !! p = Some x ∧ w' = w.
Proof.
  unfold index. destruct (xs !! p); intros H; [|done].
  by injection H as <- <-.
Qed.

(** Starting the threads builds an array in which every thread sits in
    the slot of its position. *)
Lemma spin_up_single_owner ledstate n k threadarray w threadarray' w' :
  for_each (spin_up cfg ledstate) (seq k n) threadarray w
  = (Ok threadarray', w') →
  length threadarray = k →
  single_owner ledstate threadarray (pool w) →
  fresh_tids w →
  single_owner ledstate threadarray' (pool w')
  ∧ fresh_tids w'
  ∧ length threadarray' = (k + n)%nat
  ∧ pool w ⊆ pool w'
  ∧ (∀ p, (p < k)%nat → threadarray' !! p = threadarray !! p)
  ∧ (∀ (p : nat) (c : color) (b : bool),
       (k ≤ p)%nat → ledstate !! p = Some (c, b) →
       (p < k + n)%nat →
       if b then ∃ tid t, threadarray' !! p = Some (Some tid)
                          ∧ pool w' !! tid = Some t
                          ∧ t_pixel t = p ∧ t_color t = c
       else threadarray' !! p = Some None).
Proof.
  revert k threadarray w. induction n as [|n IH]; intros k ta w H Hlen Ho Hf;
    simpl in H.
  - injection H as <- <-. split; [done|]. split; [done|]. split; [lia|].
    split; [done|]. split; [done|]. intros p c b Hkp _ Hp. lia.
  - unfold bind in H.
    destruct (spin_up cfg ledstate k ta w) as [[ta1|e] w1] eqn:E1; [|done].
    unfold spin_up in E1.
    apply bind_ok_inv in E1 as ([c0 windy0] & w2 & Hidx & E1).
    apply index_inv in Hidx as [Hk ->].
    assert (Hstep : length ta1 = S k
                    ∧ single_owner ledstate ta1 (pool w1)
                    ∧ fresh_tids w1
                    ∧ pool w ⊆ pool w1
                    ∧ (∀ p, (p < k)%nat → ta1 !! p = ta !! p)
                    ∧ (if windy0
                       then ∃ tid t, ta1 !! k = Some (Some tid)
                                     ∧ pool w1 !! tid = Some t
                                     ∧ t_pixel t = k ∧ t_color t = c0
                       else ta1 !! k = Some None)).
    { destruct windy0.
      - apply bind_ok_inv in E1 as (x & w3 & Hstart & E1).
        injection E1 as <- <-.
        apply thread_start_world in Hstart as (-> & Hpool & Hnext & _ & _).
        split; [rewrite length_app; simpl; lia|].
        split.
        { intros tid t. rewrite Hpool.
          destruct (decide (tid = next_tid w)) as [->|Hne].
          - rewrite lookup_insert_eq. intros Ht. injection Ht as <-.
            cbn [t_pixel]. split; [|by eauto].
            rewrite lookup_app_r by lia. by rewrite Hlen, Nat.sub_diag.
          - rewrite lookup_insert_ne by done. intros Ht.
            destruct (Ho _ _ Ht) as [Hta Hls]. split; [|done].
            by apply lookup_app_l_Some. }
        split.
        { intros tid. rewrite Hpool, Hnext.
          destruct (decide (tid = next_tid w)) as [->|Hne]; [lia|].
          rewrite lookup_insert_ne by done. intros Ht.
          specialize (Hf _ Ht). lia. }
        split.
        { rewrite Hpool. apply insert_subseteq.
          destruct (pool w !! next_tid w) eqn:Et; [|done].
          specialize (Hf _ (ex_intro _ _ Et)). lia. }
        split; [intros p Hp; apply lookup_app_l; lia|].
        eexists _, _. rewrite lookup_app_r by lia.
        rewrite Hlen, Nat.sub_diag, Hpool, lookup_insert_eq. done.
      - injection E1 as <- <-.
        split; [rewrite length_app; simpl; lia|].
        split.
        { intros tid t Ht. destruct (Ho _ _ Ht) as [Hta Hls].
          split; [|done]. by apply lookup_app_l_Some. }
        split; [done|]. split; [done|].
        split; [intros p Hp; apply lookup_app_l; lia|].
        rewrite lookup_app_r by lia. by rewrite Hlen, Nat.sub_diag. }
    destruct Hstep as (Hlen1 & Ho1 & Hf1 & Hsub1 & Hold1 & Hnew1).
    apply IH in H as (Ho' & Hf' & Hlen' & Hsub' & Hold' & Hnew');
      [|done..].
    split; [done|]. split; [done|]. split; [lia|].
    split; [by etrans|].
    split; [intros p Hp; rewrite Hold' by lia; apply Hold1; lia|].
    intros p c b Hkp Hls Hp.
    destruct (decide (p = k)) as [->|Hne].
    + rewrite Hk in Hls. injection Hls as -> ->.
      rewrite Hold' by lia. destruct b; [|done].
      destruct Hnew1 as (tid & t & Hta & Ht & Hpx & Hcol).
      exists tid, t. split; [done|]. split; [|done].
      by eapply lookup_weaken.
    + apply Hnew'; [lia|done|lia].
Qed.

Lemma Qle_bool_false (x y : Q) : Qle_bool x y = false ↔ (y < x)%Q.
Proof.
  split.
  - intros H. apply Qnot_le_lt. intros Hle. apply Qle_bool_iff in Hle.
    congruence.
  - intros H. destruct (Qle_bool x y) eqn:E; [|done].
    apply Qle_bool_iff in E. lra.
Qed.

(** What [join] does to the world. *)
Lemma join_world tid w w' :
  join cfg (Some tid) w = (Ok tt, w') →
  STOPFLAG w' = STOPFLAG w
  ∧ next_tid w' = next_tid w
  ∧ pool w' ⊆ pool w
  ∧ pool w' !! tid = None
  ∧ (∀ t, pool w !! tid = Some t →
       (exit_time cfg (STOPFLAG w) (clock w) t <= clock w')%Q)
  ∧ (∀ tid' t, pool w !! tid' = Some t → tid' ≠ tid →
       (clock w' < exit_time cfg (STOPFLAG w) (clock w) t)%Q →
       pool w' !! tid' = Some t).
Proof.
  unfold join. destruct (pool w !! tid) as [t0|] eqn:Et; intros H;
    injection H as <-; cbn [pool set_world STOPFLAG next_tid clock].
  - split; [done|]. split; [done|].
    split; [etrans; [apply delete_subseteq|apply map_filter_subseteq]|].
    split; [apply lookup_delete_eq|].
    split.
    { intros t Ht. injection Ht as <-. unfold Qmax'.
      destruct (Qle_bool (clock w) (exit_time cfg (STOPFLAG w) (clock w) t0))
        eqn:E; [lra|].
      apply Qle_bool_false in E. lra. }
    intros tid' t Ht Hne Hlive. rewrite lookup_delete_ne by done.
    apply map_lookup_filter_Some. split; [done|]. cbn [snd].
    by apply Qle_bool_false.
  - split; [done|]. split; [done|]. split; [done|]. split; [done|].
    split; [done|]. by intros tid' t Ht _ _.
Qed.

(** What [STOPFLAG = p; threadarray[p].join(); STOPFLAG = DONTSTOP] does
    to the world. *)
Lemma stop_and_join_world threadarray p w w' :
  stop_and_join cfg threadarray p w = (Ok tt, w') →
  ∃ tid,
    threadarray !! p = Some (Some tid)
    ∧ STOPFLAG w' = DONTSTOP
    ∧ next_tid w' = next_tid w
    ∧ pool w' ⊆ pool w
    ∧ pool w' !! tid = None
    ∧ (∀ t, pool w !! tid = Some t →
         (exit_time cfg (Z.of_nat p) (clock w) t <= clock w')%Q)
    ∧ (∀ tid' t, pool w !! tid' = Some t → tid' ≠ tid →
         (clock w' < exit_time cfg (Z.of_nat p) (clock w) t)%Q →
         pool w' !! tid' = Some t).
Proof.
  intros H. unfold stop_and_join in H.
  apply bind_ok_inv in H as ([] & w1 & H1 & H). injection H1 as <-.
  apply bind_ok_inv in H as (h & w2 & H2 & H).
  apply index_inv in H2 as [Hh ->].
  apply bind_ok_inv in H as ([] & w3 & H3 & H). injection H as <-.
  destruct h as [tid|]; [|done].
  apply join_world in H3 as (Hflag & Hnext & Hsub & Hnone & Hwait & Hlive).
  exists tid. cbn [STOPFLAG next_tid pool clock] in *.
  done.
Qed.


(** *** STOPFLAG is back at DONTSTOP whenever control returns *)

Lemma restores_flag_ret {A} (a : A) : restores_flag (mret a).
Proof. intros w a' w' H. by injection H as _ <-. Qed.

Lemma restores_flag_bind {A B} (m : M A) (k : A → M B) :
  restores_flag m → (∀ a, restores_flag (k a)) → restores_flag (m ≫= k).
Proof.
  intros Hm Hk w b w' H Hflag.
  apply bind_ok_inv in H as (a & w1 & H1 & H2).
  eapply Hk; [done|]. by eapply Hm.
Qed.

Lemma restores_flag_for_each {A S} (body : A → S → M S) xs st :
  (∀ x st, restores_flag (body x st)) → restores_flag (for_each body xs st).
Proof.
  intros Hbody. revert st. induction xs as [|x xs IH]; intros st; simpl.
  - apply (restores_flag_ret st).
  - apply (restores_flag_bind (body x st) (for_each body xs)); auto.
Qed.

Lemma restores_flag_emit e : restores_flag (emit e).
Proof. intros w [] w' H. by injection H as <-. Qed.

Lemma restores_flag_sleep d : restores_flag (sleep d).
Proof.
  intros w [] w' H. unfold sleep in H.
  destruct (Qle_bool 0 d); [|done]. by injection H as <-.
Qed.

Lemma restores_flag_set_pixel p c : restores_flag (set_pixel cfg p c).
Proof.
  unfold set_pixel. destruct (p <? LED_COUNT cfg)%nat;
    [apply restores_flag_emit|by intros w a w' H].
Qed.

Lemma restores_flag_index {A} (xs : list A) p : restores_flag (index xs p).
Proof. intros w a w' H. by apply index_inv in H as [_ ->]. Qed.

Lemma restores_flag_thread_start p c time rate :
  restores_flag (thread_start p c time rate).
Proof. intros w a w' H. by injection H as _ <-. Qed.

Lemma restores_flag_call_blinkme p c time rate :
  restores_flag (call_blinkme cfg p c time rate).
Proof. intros w [] w' H. unfold call_blinkme in H. by injection H as _ <-. Qed.

Lemma restores_flag_stop_and_join threadarray p :
  restores_flag (stop_and_join cfg threadarray p).
Proof.
  intros w [] w' H _.
  by apply stop_and_join_world in H as (tid & _ & Hflag & _).
Qed.

Lemma restores_flag_process_metar metar st :
  restores_flag (process_metar cfg metar st).
Proof.
  unfold process_metar.
  repeat first
    [ apply restores_flag_emit
    | apply restores_flag_ret
    | apply restores_flag_bind; [|intros ?]
    | match goal with
      | |- restores_flag (lift ?r) =>
          destruct r; [apply restores_flag_ret|by intros ? ? ? ?]
      | |- restores_flag (match ?x with _ => _ end) => destruct x
      end ].
Qed.

Lemma restores_flag_get_weather net airports :
  restores_flag (get_weather cfg net airports).
Proof.
  unfold get_weather.
  apply restores_flag_bind; [apply restores_flag_emit|intros _].
  destruct (net (station_string airports));
    [by intros ? ? ? ?|by intros ? ? ? ?|].
  apply restores_flag_bind; [|intros ?; apply restores_flag_ret].
  apply restores_flag_for_each. apply restores_flag_process_metar.
Qed.

Lemma restores_flag_spin_up ledstate p threadarray :
  restores_flag (spin_up cfg ledstate p threadarray).
Proof.
  unfold spin_up. apply restores_flag_bind; [apply restores_flag_index|].
  intros [c b]. destruct b.
  - apply restores_flag_bind; [apply restores_flag_thread_start|].
    intros x. apply restores_flag_ret.
  - apply restores_flag_ret.
Qed.

Lemma restores_flag_kill_one ledstate threadarray p u :
  restores_flag (kill_one cfg ledstate threadarray p u).
Proof.
  unfold kill_one. apply restores_flag_bind; [apply restores_flag_index|].
  intros [c b]. destruct b;
    [apply restores_flag_stop_and_join|apply restores_flag_ret].
Qed.

Lemma restores_flag_rotate_station ledstate conditionDict pm threadarray :
  restores_flag (rotate_station cfg ledstate conditionDict pm threadarray).
Proof.
  unfold rotate_station.
  repeat first
    [ apply restores_flag_emit
    | apply restores_flag_ret
    | apply restores_flag_sleep
    | apply restores_flag_index
    | apply restores_flag_set_pixel
    | apply restores_flag_call_blinkme
    | apply restores_flag_thread_start
    | apply restores_flag_stop_and_join
    | apply restores_flag_bind; [|intros ?]
    | by intros ? ? ? ?
    | match goal with
      | |- restores_flag (match ?x with _ => _ end) => destruct x
      end ].
Qed.

Lemma restores_flag_lift {A} (r : result A) : restores_flag (lift r).
Proof. intros w a w' H Hf. by apply lift_ok_inv in H as [_ ->]. Qed.

Lemma restores_flag_cycle e : restores_flag (cycle cfg e).
Proof.
  unfold cycle, initialize_display_and_leds, get_airport_list.
  repeat first
    [ apply restores_flag_emit
    | apply restores_flag_ret
    | apply restores_flag_lift
    | apply restores_flag_sleep
    | apply restores_flag_get_weather
    | apply restores_flag_for_each; intros ? ?
    | apply restores_flag_spin_up
    | apply restores_flag_kill_one
    | apply restores_flag_rotate_station
    | apply restores_flag_index
    | apply restores_flag_set_pixel
    | apply restores_flag_bind; [|intros ?]
    | by intros ? ? ? ?
    | match goal with
      | |- restores_flag (match ?x with _ => _ end) => destruct x
      end ].
Qed.

(** Showing one station keeps every thread in the slot of its position. *)
Lemma rotate_station_single_owner ledstate conditionDict pm threadarray w
    threadarray' w' :
  rotate_station cfg ledstate conditionDict pm threadarray w
  = (Ok threadarray', w') →
  single_owner ledstate threadarray (pool w) →
  single_owner ledstate threadarray' (pool w').
Proof.
  destruct pm as [p metarStation]. intros H Ho.
  unfold rotate_station in H. cbn [fst snd] in H.
  apply bind_ok_inv in H as ([] & w1 & H1 & H).
  destruct (FAST_BLINK_DISPLAYED_STATION cfg) eqn:Efast.
  - assert (Hw1 : pool w1 ⊆ pool w
                  ∧ ∀ c tid, ledstate !! p = Some (c, true) →
                             threadarray !! p = Some (Some tid) →
                             pool w1 !! tid = None).
    { apply bind_ok_inv in H1 as ([c0 windy0] & w2 & Hidx & H1).
      apply index_inv in Hidx as [Hls ->]. destruct windy0.
      - apply stop_and_join_post in H1 as [Hsub Hnone]. split; [done|].
        intros c tid _ Hta. by apply Hnone.
      - injection H1 as <-. split; [done|]. intros c tid Hc. congruence. }
    destruct Hw1 as [Hsub Hjoined].
    pose proof (single_owner_weaken _ _ _ _ Ho Hsub) as Ho1.
    destruct (bool_decide (metarStation ≠ "NULL")
              && bool_decide (is_Some (conditionDict !! metarStation)));
      [|by injection H as <- <-].
    apply bind_ok_inv in H as ([] & w2 & H2 & H).
    pose proof (keeps_pool_emit _ _ _ _ H2) as Hp2.
    apply bind_ok_inv in H as ([thiscolor windy] & w3 & Hidx & H).
    apply index_inv in Hidx as [Eentry ->].
    apply bind_ok_inv in H as ([] & w4 & H4 & H).
    pose proof (keeps_pool_call_blinkme _ _ _ _ _ _ _ _ H4) as Hp4.
    apply bind_ok_inv in H as ([] & w5 & H5 & H).
    pose proof (keeps_pool_set_pixel _ _ _ _ _ _ H5) as Hp5.
    apply bind_ok_inv in H as (ta1 & w6 & H6 & H).
    apply bind_ok_inv in H as ([] & w7 & H7 & H).
    pose proof (keeps_pool_emit _ _ _ _ H7) as Hp7.
    injection H as <- <-. rewrite Hp7.
    assert (Hpool5 : pool w5 = pool w1) by congruence.
    destruct windy.
    + apply bind_ok_inv in H6 as ([] & w8 & H8 & H6).
      destruct (decide (p < length threadarray)%nat) as [Hlt|]; [|done].
      injection H8 as <-.
      apply bind_ok_inv in H6 as (x & w9 & Hstart & H6).
      injection H6 as <- <-.
      apply thread_start_world in Hstart as (-> & -> & _).
      rewrite Hpool5. intros tid t.
      destruct (decide (tid = next_tid w5)) as [->|Hne].
      * rewrite lookup_insert_eq. intros Ht. injection Ht as <-.
        cbn [t_pixel]. split; [by apply list_lookup_insert_eq|by eauto].
      * rewrite lookup_insert_ne by done. intros Ht.
        destruct (Ho1 _ _ Ht) as [Hta Hls]. split; [|done].
        rewrite list_lookup_insert_ne; [done|]. intros Hpx.
        rewrite <- Hpx in Hta.
        by rewrite (Hjoined _ _ Eentry Hta) in Ht.
    + injection H6 as <- <-. by rewrite Hpool5.
  - injection H1 as <-.
    destruct (bool_decide (metarStation ≠ "NULL")
              && bool_decide (is_Some (conditionDict !! metarStation)));
      [|by injection H as <- <-].
    apply bind_ok_inv in H as ([] & w2 & H2 & H).
    pose proof (keeps_pool_emit _ _ _ _ H2) as Hp2.
    apply bind_ok_inv in H as ([] & w3 & H3 & H).
    pose proof (keeps_pool_sleep _ _ _ _ H3) as Hp3.
    injection H as <- <-. by rewrite Hp3, Hp2.
Qed.

(** X17. Starting the blink threads with no thread running (lines
    299-307) fills one slot per position: an animated position gets a
    thread of its own, blinking that position in its target colour, every
    other slot holds no thread, and every running thread sits in the slot
    of its position. *)
Theorem threads_started
    (ledstate : list (color * bool)) (w w' : world)
    (threadarray : list (option nat)) :
  pool w = ∅ →
  for_each (spin_up cfg ledstate) (seq 0 (length ledstate)) [] w
  = (Ok threadarray, w') →
  length threadarray = length ledstate
  ∧ single_owner ledstate threadarray (pool w')
  ∧ ∀ (p : nat) (c : color) (b : bool),
      ledstate !! p = Some (c, b) →
      if b then ∃ tid t, threadarray !! p = Some (Some tid)
                         ∧ pool w' !! tid = Some t
                         ∧ t_pixel t = p ∧ t_color t = c
                         ∧ t_start t = clock w
      else threadarray !! p = Some None.
Proof.
  intros Hempty H.
  assert (Hclock : ∀ tid t, pool w' !! tid = Some t → t_start t = clock w).
  { revert H.
    assert (Hgen : ∀ n k ta w0,
              (∀ tid t, pool w0 !! tid = Some t → t_start t = clock w) →
              clock w0 = clock w →
              for_each (spin_up cfg ledstate) (seq k n) ta w0
              = (Ok threadarray, w') →
              ∀ tid t, pool w' !! tid = Some t → t_start t = clock w).
    { induction n as [|n IH]; intros k ta w0 Hst Hck H0; simpl in H0.
      - by injection H0 as _ <-.
      - unfold bind in H0.
        destruct (spin_up cfg ledstate k ta w0) as [[ta1|e] w1] eqn:E1;
          [|done].
        unfold spin_up in E1.
        apply bind_ok_inv in E1 as ([c0 windy0] & w2 & Hidx & E1).
        apply index_inv in Hidx as [Hk ->]. destruct windy0.
        + apply bind_ok_inv in E1 as (x & w3 & Hstart & E1).
          injection E1 as <- <-.
          apply thread_start_world in Hstart as (-> & Hpool & _ & _ & Hc).
          eapply IH; [|by rewrite Hc|done].
          intros tid t. rewrite Hpool.
          destruct (decide (tid = next_tid w0)) as [->|Hne].
          * rewrite lookup_insert_eq. intros Ht. by injection Ht as <-.
          * rewrite lookup_insert_ne by done. apply Hst.
        + injection E1 as <- <-. by eapply IH. }
    apply Hgen; [|done]. intros tid t. by rewrite Hempty, lookup_empty. }
  apply spin_up_single_owner in H
    as (Ho & _ & Hlen & _ & _ & Hnew); [|done| |].
  - split; [done|]. split; [done|]. intros p c b Hls.
    specialize (Hnew p c b (Nat.le_0_l p) Hls
                  (lookup_lt_Some _ _ _ Hls)).
    destruct b; [|done].
    destruct Hnew as (tid & t & Hta & Ht & Hpx & Hcol).
    exists tid, t. repeat split; try done. by eapply Hclock.
  - intros tid t. by rewrite Hempty, lookup_empty.
  - intros tid [t Ht]. by rewrite Hempty, lookup_empty in Ht.
Qed.

(** X18. With every thread in the slot of its position and STOPFLAG at
    DONTSTOP, showing any sequence of stations (lines 317-339) keeps
    both: at every station boundary no two blink threads share a
    position, and STOPFLAG is DONTSTOP. *)
Theorem rotation_keeps_single_owner
    (ledstate : list (color * bool)) (conditionDict : gmap string condition)
    (shown : list (nat * string)) (threadarray threadarray' : list (option nat))
    (w w' : world) :
  single_owner ledstate threadarray (pool w) →
  STOPFLAG w = DONTSTOP →
  for_each (rotate_station cfg ledstate conditionDict) shown threadarray w
  = (Ok threadarray', w') →
  single_owner ledstate threadarray' (pool w')
  ∧ (∀ tid1 tid2 t1 t2,
       pool w' !! tid1 = Some t1 → pool w' !! tid2 = Some t2 →
       t_pixel t1 = t_pixel t2 → tid1 = tid2)
  ∧ STOPFLAG w' = DONTSTOP.
Proof.
  intros Ho Hflag H.
  assert (Ho' : single_owner ledstate threadarray' (pool w')).
  { revert H. apply (for_each_invariant
                      (λ ta w, single_owner ledstate ta (pool w))); [|done].
    intros pm ta wa ta' wa' Hoa Hstep.
    by eapply rotate_station_single_owner. }
  split; [done|]. split.
  - intros tid1 tid2 t1 t2. by eapply single_owner_unique.
  - revert H Hflag. apply restores_flag_for_each.
    intros pm ta. apply restores_flag_rotate_station.
Qed.

End OwnerProofs.

(** ** The pass as a whole *)

Section PassProofs.

Context {RT : PyRuntime}.
Variable cfg : config.

Lemma set_world_same w c pl evs1 evs2 :
  set_world (set_world w (clock w) (pool w) evs1) c pl evs2
  = set_world w c pl (evs1 ++ evs2).
Proof. unfold set_world. simpl. by rewrite app_assoc. Qed.

Lemma only_emits_ret {A} (a : A) : only_emits (mret a).
Proof.
  intros w r w' H. injection H as _ <-. exists [].
  by rewrite set_world_nil.
Qed.

Lemma only_emits_raise {A} e : only_emits (@raise A e).
Proof.
  intros w r w' H. injection H as _ <-. exists [].
  by rewrite set_world_nil.
Qed.

Lemma only_emits_lift {A} (r : result A) : only_emits (lift r).
Proof. destruct r; [apply (only_emits_ret a)|apply only_emits_raise]. Qed.

Lemma only_emits_emit e : only_emits (emit e).
Proof. intros w r w' H. injection H as _ <-. by exists [e]. Qed.

Lemma only_emits_bind {A B} (m : M A) (k : A → M B) :
  only_emits m → (∀ a, only_emits (k a)) → only_emits (m ≫= k).
Proof.
  intros Hm Hk w r w' H. unfold mbind, M_bind, bind in H.
  destruct (m w) as [[a|e] w1] eqn:E.
  - destruct (Hm _ _ _ E) as [evs1 ->].
    destruct (Hk _ _ _ _ H) as [evs2 ->].
    exists (evs1 ++ evs2)%list. cbn [clock pool set_world].
    apply set_world_same.
  - injection H as _ <-. by eapply Hm.
Qed.

Lemma only_emits_for_each {A S} (body : A → S → M S) xs st :
  (∀ x st, only_emits (body x st)) → only_emits (for_each body xs st).
Proof.
  intros Hbody. revert st. induction xs as [|x xs IH]; intros st; simpl.
  - apply (only_emits_ret st).
  - apply (only_emits_bind (body x st) (for_each body xs)); auto.
Qed.

Lemma only_emits_index {A} (xs : list A) p : only_emits (index xs p).
Proof.
  unfold index. destruct (xs !! p);
    [apply (only_emits_ret a)|apply only_emits_raise].
Qed.

Lemma only_emits_set_pixel p c : only_emits (set_pixel cfg p c).
Proof.
  unfold set_pixel. destruct (p <? LED_COUNT cfg)%nat;
    [apply only_emits_emit|apply only_emits_raise].
Qed.

Lemma only_emits_process_metar metar st :
  only_emits (process_metar cfg metar st).
Proof.
  unfold process_metar.
  repeat first
    [ apply only_emits_lift
    | apply only_emits_emit
    | apply only_emits_ret
    | apply only_emits_bind; [|intros ?]
    | match goal with
      | |- only_emits (match ?x with _ => _ end) => destruct x
      end ].
Qed.

Lemma only_emits_get_weather net airports :
  only_emits (get_weather cfg net airports).
Proof.
  unfold get_weather.
  apply only_emits_bind; [apply only_emits_emit|intros _].
  destruct (net (station_string airports));
    [apply only_emits_raise|apply only_emits_raise|].
  apply only_emits_bind; [|intros ?; apply only_emits_ret].
  apply only_emits_for_each. apply only_emits_process_metar.
Qed.

Lemma only_emits_initialize : only_emits (initialize_display_and_leds cfg).
Proof.
  unfold initialize_display_and_leds.
  repeat (apply only_emits_bind; [apply only_emits_emit|intros _]).
  apply only_emits_ret.
Qed.

Lemma only_emits_get_airport_list e : only_emits (get_airport_list e).
Proof.
  unfold get_airport_list. destruct (airports_file e);
    [apply only_emits_ret|apply only_emits_raise].
Qed.

(** The pixel writes of lines 294-295: position by position until the
    end of the list or of the strip. *)
Lemma paint_loop ledstate n k w :
  (k + n ≤ length ledstate)%nat →
  (k ≤ LED_COUNT cfg)%nat →
  for_each (λ p (_ : unit),
              '(colour, _) ← index ledstate p; set_pixel cfg p colour)
           (seq k n) tt w
  = (if (k + n <=? LED_COUNT cfg)%nat then Ok tt else Raise IndexError,
     set_world w (clock w) (pool w)
       (paint_events ledstate (seq k (n `min` (LED_COUNT cfg - k))))).
Proof.
  revert k w. induction n as [|n IH]; intros k w Hlen Hk.
  - simpl. replace (k + 0 <=? LED_COUNT cfg)%nat with true
      by (symmetry; apply Nat.leb_le; lia).
    unfold paint_events. simpl. by rewrite set_world_nil.
  - cbn [seq for_each]. unfold bind at 1.
    destruct (ledstate !! k) as [[c b]|] eqn:Ek;
      [|apply lookup_ge_None in Ek; lia].
    unfold mbind, M_bind, bind at 1, index. rewrite Ek.
    unfold mret, M_ret, ret, set_pixel.
    destruct (k <? LED_COUNT cfg)%nat eqn:Elt.
    + apply Nat.ltb_lt in Elt. unfold emit. rewrite IH by (simpl; lia).
      cbn [clock pool]. f_equal.
      * replace (S k + n)%nat with (k + S n)%nat by lia. done.
      * replace (S n `min` (LED_COUNT cfg - k))%nat
          with (S (n `min` (LED_COUNT cfg - S k))) by lia.
        cbn [seq]. unfold paint_events. rewrite fmap_cons, Ek. simpl.
        unfold set_world. simpl. by rewrite <- app_assoc.
    + apply Nat.ltb_ge in Elt.
      replace (k + S n <=? LED_COUNT cfg)%nat with false
        by (symmetry; apply Nat.leb_gt; lia).
      replace (LED_COUNT cfg - k)%nat with 0%nat by lia.
      rewrite Nat.min_0_r. unfold paint_events, raise. simpl.
      by rewrite set_world_nil.
Qed.

Lemma initialize_run w :
  initialize_display_and_leds cfg w
  = (Ok (has_display cfg), (initialize_display_and_leds cfg w).2).
Proof. reflexivity. Qed.

Lemma num_display_loops_no_airports :
  num_display_loops cfg 0 = Raise ZeroDivisionError.
Proof.
  unfold num_display_loops.
  destruct (DISPLAY_ROTATION_SPEED cfg) as [n d].
  unfold nearest_float, Qabs, Qmult. cbn [Qnum Qden inject_Z Z.of_nat].
  by rewrite Z.mul_0_r.
Qed.

(** X19. With an empty airports file a pass cannot complete: once the
    weather has been fetched, the rotation count of line 291 divides by
    zero and the pass raises ZeroDivisionError, before any pixel is
    written or any thread started. *)
Theorem empty_airports_file_raises
    (e : env) (w w1 : world) (conds : gmap string condition) :
  airports_file e = Some [] →
  get_weather cfg (data_server e) [] (initialize_display_and_leds cfg w).2
  = (Ok conds, w1) →
  cycle cfg e w = (Raise ZeroDivisionError, w1).
Proof.
  intros Hfile Hfetch. unfold cycle.
  rewrite (bind_run _ _ _ _ _ (initialize_run w)).
  unfold get_airport_list. rewrite Hfile.
  rewrite (bind_run (mret (map strip [])) _ _ _ _ eq_refl). cbn [map].
  rewrite (bind_run _ _ _ _ _ Hfetch). cbv zeta.
  cbn [length]. by rewrite num_display_loops_no_airports.
Qed.

(** X20. With more stations than pixels a pass in which the rotation
    count of line 291 is computed without an exception raises IndexError
    while it writes the target colours (line 295): the first LED_COUNT
    positions have been written, no thread has been started and nothing
    has been shown. *)
Theorem too_many_stations_raises
    (e : env) (w w1 : world) (lines : list string)
    (conds : gmap string condition) :
  airports_file e = Some lines →
  (LED_COUNT cfg < length lines)%nat →
  is_ok (num_display_loops cfg (length lines)) = true →
  get_weather cfg (data_server e) (map strip lines)
    (initialize_display_and_leds cfg w).2 = (Ok conds, w1) →
  cycle cfg e w
  = (Raise IndexError,
     set_world w1 (clock w1) (pool w1)
       (paint_events (calc_target_colors cfg (map strip lines) conds)
          (seq 0 (LED_COUNT cfg)))).
Proof.
  intros Hfile Hmany Hrot Hfetch. unfold cycle.
  rewrite (bind_run _ _ _ _ _ (initialize_run w)).
  unfold get_airport_list. rewrite Hfile.
  rewrite (bind_run (mret (map strip lines)) _ _ _ _ eq_refl).
  rewrite (bind_run _ _ _ _ _ Hfetch). cbv zeta.
  rewrite length_map.
  destruct (num_display_loops cfg (length lines)) as [loops|] eqn:Hloops;
    [|done].
  rewrite (bind_run (lift (Ok loops)) _ _ _ _ eq_refl).
  assert (Hlen : length (calc_target_colors cfg (map strip lines) conds)
                 = length lines).
  { by rewrite calc_target_colors_length, length_map. }
  rewrite (bind_run_raise _ _ w1 IndexError
             (set_world w1 (clock w1) (pool w1)
                (paint_events (calc_target_colors cfg (map strip lines) conds)
                   (seq 0 (LED_COUNT cfg))))); [done|].
  rewrite paint_loop by lia.
  replace (0 + length (calc_target_colors cfg (map strip lines) conds)
           <=? LED_COUNT cfg)%nat with false
    by (symmetry; apply Nat.leb_gt; lia).
  rewrite Nat.sub_0_r, Nat.min_r by lia. done.
Qed.

(** X21. With a display attached, after any number of completed passes
    that began with no blink thread and STOPFLAG at DONTSTOP, no blink
    thread is left and STOPFLAG is DONTSTOP: every pass joins the threads
    it started before the next one fetches the weather. *)
Theorem display_loop_clean_slate (envs : list env) (w w' : world) :
  has_display cfg = true →
  pool w = ∅ →
  STOPFLAG w = DONTSTOP →
  main_loop cfg envs w = (Ok tt, w') →
  pool w' = ∅ ∧ STOPFLAG w' = DONTSTOP.
Proof.
  intros Hdisp. revert w. induction envs as [|e envs IH];
    intros w Hempty Hflag H; cbn [main_loop] in H.
  - by injection H as <-.
  - apply bind_ok_inv in H as ([] & w1 & H1 & H).
    eapply IH; [| |done].
    + by eapply cycle_with_display_joins_all.
    + by eapply restores_flag_cycle.
Qed.

(** X22. The fast blink of the station on show (line 329) is not cut
    short: when [blinkme], called in the main thread with STOPFLAG at
    DONTSTOP, returns, it has made all [max(0, int(time/blinkrate))] blink
    cycles and taken that many periods, and it has left the blink threads
    and STOPFLAG alone. *)
Theorem fast_blink_runs_full
    (p : nat) (c : color) (time rate : Q) (w w' : world) :
  STOPFLAG w = DONTSTOP →
  call_blinkme cfg p c time rate w = (Ok tt, w') →
  ∃ numblinks evs,
    int_quotient time rate = Ok numblinks
    ∧ out w' = (out w ++ evs)%list
    ∧ Z.of_nat (cycles_of evs) = Z.max 0 numblinks
    ∧ (clock w' == clock w + inject_Z (Z.max 0 numblinks) * rate)%Q
    ∧ pool w' = pool w
    ∧ STOPFLAG w' = DONTSTOP.
Proof.
  intros Hflag. unfold call_blinkme. cbv beta zeta. rewrite Hflag.
  assert (Hnever : ∀ t : Q, (λ _ : Q, DONTSTOP) t ≠ Z.of_nat p).
  { intros _. unfold DONTSTOP. lia. }
  unfold blinkme.
  destruct (int_quotient time rate) as [numblinks|e]; [|done].
  destruct (numblinks <=? 0) eqn:En.
  { apply Z.leb_le in En. cbn [exit trace finish]. intros [= <-].
    exists numblinks, []. cbn [set_world out clock pool STOPFLAG].
    rewrite Z.max_l by done. change (cycles_of []) with 0%nat.
    change (inject_Z 0) with 0%Q.
    split; [done|]. split; [done|]. split; [done|].
    split; [lra|done]. }
  apply Z.leb_gt in En.
  destruct (negb (p <? LED_COUNT cfg)%nat); [done|].
  destruct (negb (Qle_bool 0 (rate / 2))); [done|].
  pose proof (blink_loop_never_stopped (λ _, DONTSTOP) p c rate
                (Z.to_nat numblinks) (clock w) Hnever) as Hr.
  rewrite Hr. intros [= <-].
  exists numblinks,
    (trace (blink_loop (λ _, DONTSTOP) p c rate (Z.to_nat numblinks)
              (clock w))).
  cbn [set_world out clock pool STOPFLAG].
  pose proof (blink_loop_cycles (λ _, DONTSTOP) p c rate
                (Z.to_nat numblinks) (clock w)) as [_ Hc].
  rewrite (Hc Hr), Z.max_r by lia.
  split; [done|]. split; [done|]. split; [lia|]. split; [|done].
  rewrite blink_loop_finish_returned by done.
  by rewrite Z2Nat.id by lia.
Qed.

End PassProofs.

Section NoDisplayProofs.

Context {RT : PyRuntime}.
Variable cfg : config.

Lemma only_emits_world {A} (m : M A) w r w' :
  only_emits m → m w = (r, w') →
  clock w' = clock w ∧ pool w' = pool w ∧ next_tid w' = next_tid w
  ∧ STOPFLAG w' = STOPFLAG w.
Proof. intros Hm H. by destruct (Hm _ _ _ H) as [evs ->]. Qed.

(** Starting the threads leaves the threads that already run alone and
    adds one per animated position. *)
Lemma spin_up_grows ledstate n k threadarray w threadarray' w' :
  for_each (spin_up cfg ledstate) (seq k n) threadarray w
  = (Ok threadarray', w') →
  fresh_tids w →
  fresh_tids w'
  ∧ pool w ⊆ pool w'
  ∧ clock w' = clock w
  ∧ STOPFLAG w' = STOPFLAG w
  ∧ (next_tid w ≤ next_tid w')%nat
  ∧ ∀ (p : nat) (c : color),
      (k ≤ p < k + n)%nat → ledstate !! p = Some (c, true) →
      ∃ tid, (next_tid w ≤ tid)%nat
             ∧ pool w' !! tid
               = Some {| t_pixel := p; t_color := c; t_time := 9999 # 1;
                         t_rate := BLINK_SPEED cfg; t_start := clock w |}.
Proof.
  revert k threadarray w. induction n as [|n IH]; intros k ta w H Hf;
    simpl in H.
  - injection H as _ <-. repeat split; try done. intros p c Hp. lia.
  - unfold bind in H.
    destruct (spin_up cfg ledstate k ta w) as [[ta1|e] w1] eqn:E1; [|done].
    unfold spin_up in E1.
    apply bind_ok_inv in E1 as ([c0 windy0] & w2 & Hidx & E1).
    apply index_inv in Hidx as [Hk ->].
    destruct windy0.
    + apply bind_ok_inv in E1 as (x & w3 & Hstart & E1).
      injection E1 as _ <-.
      apply thread_start_world in Hstart
        as (-> & Hpool & Hnext & Hflag & Hclock).
      assert (Hf1 : fresh_tids w3).
      { intros tid. rewrite Hpool, Hnext.
        destruct (decide (tid = next_tid w)) as [->|Hne]; [lia|].
        rewrite lookup_insert_ne by done. intros Ht.
        specialize (Hf _ Ht). lia. }
      assert (Hsub1 : pool w ⊆ pool w3).
      { rewrite Hpool. apply insert_subseteq.
        destruct (pool w !! next_tid w) eqn:Et; [|done].
        specialize (Hf _ (ex_intro _ _ Et)). lia. }
      apply IH in H as (Hf' & Hsub' & Hc' & Hfl' & Hn' & Hnew'); [|done].
      split; [done|]. split; [by etrans|]. split; [congruence|].
      split; [congruence|]. split; [lia|].
      intros p c Hp Hls. destruct (decide (p = k)) as [->|Hne].
      * rewrite Hk in Hls. injection Hls as ->.
        exists (next_tid w). split; [done|].
        eapply lookup_weaken; [|exact Hsub'].
        by rewrite Hpool, lookup_insert_eq.
      * destruct (Hnew' p c ltac:(lia) Hls) as (tid & Htid & Ht).
        exists tid. split; [lia|]. by rewrite <- Hclock.
    + injection E1 as _ <-.
      apply IH in H as (Hf' & Hsub' & Hc' & Hfl' & Hn' & Hnew'); [|done].
      repeat split; try done.
      intros p c Hp Hls. destruct (decide (p = k)) as [->|Hne].
      * rewrite Hk in Hls. done.
      * apply Hnew'; [lia|done].
Qed.

(** X24. Without a display a completed pass stops and joins nothing: the
    blink threads that ran before it are all still there, STOPFLAG is
    untouched, the clock has moved on by the refresh time, and each
    animated position has a thread started in this pass that is still in
    the pool. *)
Theorem pass_without_display_keeps_threads (e : env) (w w' : world) :
  has_display cfg = false →
  fresh_tids w →
  cycle cfg e w = (Ok tt, w') →
  pool w ⊆ pool w'
  ∧ STOPFLAG w' = STOPFLAG w
  ∧ clock w' = (clock w + REFRESH_TIME_SECONDS cfg)%Q
  ∧ ∃ lines conds w1,
      airports_file e = Some lines
      ∧ get_weather cfg (data_server e) (map strip lines)
          (initialize_display_and_leds cfg w).2 = (Ok conds, w1)
      ∧ ∀ (p : nat) (c : color),
          calc_target_colors cfg (map strip lines) conds !! p
          = Some (c, true) →
          ∃ tid, (next_tid w ≤ tid)%nat
                 ∧ pool w' !! tid
                   = Some {| t_pixel := p; t_color := c;
                             t_time := 9999 # 1;
                             t_rate := BLINK_SPEED cfg;
                             t_start := clock w |}.
Proof.
  intros Hdisp Hf H. unfold cycle in H.
  rewrite (bind_run _ _ _ _ _ (initialize_run cfg w)) in H.
  pose proof (only_emits_world _ _ _ _ (only_emits_initialize cfg)
                (initialize_run cfg w)) as (Hc0 & Hp0 & Hn0 & Hf0).
  set (w0 := (initialize_display_and_leds cfg w).2) in *.
  rewrite Hdisp in H.
  apply bind_ok_inv in H as (airports & w2 & H2 & H).
  unfold get_airport_list in H2.
  destruct (airports_file e) as [lines|] eqn:Hfile; [|done].
  injection H2 as <- <-.
  apply bind_ok_inv in H as (conds & w3 & H3 & H).
  pose proof (only_emits_world _ _ _ _ (only_emits_get_weather cfg _ _) H3)
    as (Hc3 & Hp3 & Hn3 & Hf3).
  cbv zeta in H.
  apply bind_ok_inv in H as (num & w4 & H4 & H).
  assert (w4 = w3) as ->.
  { by apply lift_ok_inv in H4 as [_ ->]. }
  apply bind_ok_inv in H as ([] & w5 & H5 & H).
  assert (Hpaint : only_emits
            (for_each (λ p (_ : unit),
                         '(colour, _) ← index
                            (calc_target_colors cfg (map strip lines) conds) p;
                         set_pixel cfg p colour)
               (seq 0 (length (calc_target_colors cfg (map strip lines)
                                 conds))) tt)).
  { apply only_emits_for_each. intros p [].
    apply only_emits_bind; [apply only_emits_index|].
    intros [c b]. apply only_emits_set_pixel. }
  pose proof (only_emits_world _ _ _ _ Hpaint H5) as (Hc5 & Hp5 & Hn5 & Hf5).
  apply bind_ok_inv in H as (threadarray & w6 & H6 & H).
  apply spin_up_grows in H6 as (_ & Hsub6 & Hc6 & Hf6 & Hn6 & Hnew6).
  2: { intros tid. rewrite Hp5, Hp3, Hp0, Hn5, Hn3, Hn0. apply Hf. }
  apply bind_ok_inv in H as ([] & w7 & H7 & H). injection H7 as <-.
  apply bind_ok_inv in H as ([] & w8 & H8 & H). injection H as <-.
  unfold sleep in H8. cbn [clock pool STOPFLAG] in H8.
  destruct (Qle_bool 0 (REFRESH_TIME_SECONDS cfg)); [|done].
  injection H8 as <-. cbn [pool STOPFLAG clock set_world].
  split; [by rewrite <- Hp0, <- Hp3, <- Hp5|].
  split; [congruence|]. split; [congruence|].
  exists lines, conds, w3. split; [done|]. split; [done|].
  intros p c Hls.
  destruct (Hnew6 p c) as (tid & Htid & Ht); [|done|].
  { split; [lia|]. apply lookup_lt_Some in Hls. lia. }
  exists tid. split; [lia|]. by rewrite Ht, Hc5, Hc3, Hc0.
Qed.

(** X25. A station for which the feed holds no record with a flight
    category has no entry in the condition map, and its position is off
    and not animated. *)
Theorem unreported_station_is_dark
    (net : string → response) (airports : list string)
    (metars : list METAR) (w w' : world) (conds : gmap string condition)
    (stations : list string) (i : nat) (sid : string) :
  net (station_string airports) = Document metars →
  get_weather cfg net airports w = (Ok conds, w') →
  Forall (λ m, ¬ classifies sid m) metars →
  stations !! i = Some sid →
  conds !! sid = None
  ∧ calc_target_colors cfg stations conds !! i = Some (COLOR_CLEAR, false).
Proof.
  intros Hnet H Hnone Hi.
  apply get_weather_ok_inv in H as (metars' & st & w1 & Hnet' & Hloop & ->).
  rewrite Hnet in Hnet'. injection Hnet' as <-.
  assert (Hsid : conditionDict st !! sid = None).
  { rewrite (for_each_process_dict_other _ _ _ _ _ _ sid Hloop Hnone).
    apply lookup_empty. }
  split; [done|].
  rewrite calc_target_colors_lookup, Hi. simpl.
  by rewrite target_entry_no_data by (by right).
Qed.

End NoDisplayProofs.

(** ** The further properties on concrete runs *)

Lemma single_owner_one_thread :
  single_owner ledstate_kbos threadarray_kbos (pool world_one_thread).
Proof.
  intros tid t Ht. unfold world_one_thread in Ht. cbn [pool] in Ht.
  apply lookup_singleton_Some in Ht as [<- <-].
  split; [done|by exists COLOR_VFR].
Qed.

Lemma fresh_tids_initial : fresh_tids initial_world.
Proof.
  intros tid [t Ht]. unfold initial_world in Ht. cbn [pool] in Ht.
  by rewrite lookup_empty in Ht.
Qed.

Lemma record_accepted_iff_witness :
  is_ok (process_metar (RT := decimal_runtime) (source_config true)
           metar_windy start_state initial_world).1 = true
  ↔ well_formed metar_windy start_state.
Proof.
  apply (record_accepted_iff (RT := decimal_runtime) (source_config true)
           metar_windy start_state initial_world).
  discriminate.
Defined.

Lemma minimal_record_defaults_witness :
  process_metar (RT := decimal_runtime) (source_config true)
    metar_time_only start_state initial_world
  = (Ok state_after_time_only,
     set_world initial_world 0 ∅
       [LogInfo (MsgStation "KJFK" "IFR" 0 None 0 "" 0 0 false)]).
Proof.
  apply (minimal_record_defaults (RT := decimal_runtime) (source_config true)
           metar_time_only start_state initial_world
           "KJFK" "IFR" "2024-05-01T12:00:00Z" "2024-05-01T12:00:00+00:00").
  - reflexivity.
  - reflexivity.
  - reflexivity.
  - reflexivity.
  - repeat split.
  - reflexivity.
  - reflexivity.
Defined.

Lemma last_record_wins_witness :
  ∃ c : @condition decimal_runtime,
    ({[ "KJFK" := cond_lightning ]} : gmap string (@condition decimal_runtime))
      !! "KJFK" = Some c
    ∧ flight_category metar_lightning = Some (Some (flightCategory c))
    ∧ windSpeed c = reported_speed (RT := decimal_runtime) metar_lightning
    ∧ lightning c = match raw_text metar_lightning with
                    | Some (Some rawText) => has_LTG rawText
                    | _ => false
                    end.
Proof.
  apply (last_record_wins (RT := decimal_runtime) (source_config true)
           (λ _, Document [metar_time_only; metar_lightning]) ["KJFK"]
           [metar_time_only] [] metar_lightning initial_world
           (get_weather (RT := decimal_runtime) (source_config true)
              (λ _, Document [metar_time_only; metar_lightning]) ["KJFK"]
              initial_world).2).
  - reflexivity.
  - reflexivity.
  - split; [reflexivity|discriminate].
  - constructor.
Defined.

Lemma missing_station_id_aborts_witness :
  (get_weather (RT := decimal_runtime) (source_config true)
     (λ _, Document [metar_windy; empty_metar; metar_lightning])
     ["KBOS"; "KJFK"] initial_world).1 = Raise AttributeError.
Proof.
  apply (missing_station_id_aborts (RT := decimal_runtime)
           (source_config true)
           (λ _, Document [metar_windy; empty_metar; metar_lightning])
           ["KBOS"; "KJFK"] [metar_windy] [metar_lightning] empty_metar
           initial_world).
  - reflexivity.
  - reflexivity.
  - reflexivity.
Defined.

Lemma get_weather_events_witness :
  ∃ evs,
    out (get_weather (RT := decimal_runtime) (source_config true)
           (λ _, Document [metar_no_category; metar_lightning])
           ["KBOS"; "KJFK"] initial_world).2
    = (out initial_world
         ++ LogInfo (MsgRetrieving (station_string ["KBOS"; "KJFK"]))
            :: evs)%list
    ∧ Forall2 record_event
        [metar_no_category; metar_lightning] evs
    ∧ clock (get_weather (RT := decimal_runtime) (source_config true)
               (λ _, Document [metar_no_category; metar_lightning])
               ["KBOS"; "KJFK"] initial_world).2 = clock initial_world
    ∧ pool (get_weather (RT := decimal_runtime) (source_config true)
              (λ _, Document [metar_no_category; metar_lightning])
              ["KBOS"; "KJFK"] initial_world).2 = pool initial_world
    ∧ STOPFLAG (get_weather (RT := decimal_runtime) (source_config true)
                  (λ _, Document [metar_no_category; metar_lightning])
                  ["KBOS"; "KJFK"] initial_world).2
      = STOPFLAG initial_world.
Proof.
  apply (get_weather_events (RT := decimal_runtime) (source_config true)
           (λ _, Document [metar_no_category; metar_lightning])
           ["KBOS"; "KJFK"] [metar_no_category; metar_lightning]
           initial_world _ {[ "KJFK" := cond_lightning ]}).
  - reflexivity.
  - reflexivity.
Defined.

Lemma lightning_iff_LTG_in_raw_text_witness :
  ∃ sid (c : @condition decimal_runtime),
    station_id metar_lightning = Some (Some sid)
    ∧ conditionDict state_after_lightning !! sid = Some c
    ∧ (lightning c = true
       ↔ ∃ pre post,
           raw_text metar_lightning
           = Some (Some (String.append pre (String.append "LTG" post)))).
Proof.
  apply (lightning_iff_LTG_in_raw_text (RT := decimal_runtime)
           (source_config true) metar_lightning start_state
           state_after_lightning initial_world
           (process_metar (RT := decimal_runtime) (source_config true)
              metar_lightning start_state initial_world).2).
  - reflexivity.
  - discriminate.
Defined.

Lemma sky_layers_stored_witness :
  ∃ sid (c : @condition decimal_runtime),
    station_id metar_cloudy = Some (Some sid)
    ∧ conditionDict state_after_cloudy !! sid = Some c
    ∧ Forall2 (layer_of (RT := decimal_runtime))
        (sky_conditions metar_cloudy) (skyConditions c).
Proof.
  apply (sky_layers_stored (RT := decimal_runtime)
           (source_config true) metar_cloudy start_state
           state_after_cloudy initial_world
           (process_metar (RT := decimal_runtime) (source_config true)
              metar_cloudy start_state initial_world).2).
  - reflexivity.
  - discriminate.
Defined.

Lemma get_airport_list_codes_witness :
  ∃ airports,
    get_airport_list env_windy initial_world = (Ok airports, initial_world)
    ∧ Forall2 (λ line code,
                 ∃ pre post,
                   line = String.append pre (String.append code post)
                   ∧ all_space pre = true ∧ all_space post = true
                   ∧ starts_with_space code = false
                   ∧ ends_with_space code = false)
              airports_kbos airports.
Proof. exact (get_airport_list_codes env_windy initial_world). Defined.

Lemma blank_line_is_placeholder_witness :
  ∃ airports,
    get_airport_list env_with_blank initial_world
    = (Ok airports, initial_world)
    ∧ length airports = length airports_with_blank
    ∧ calc_target_colors (source_config true) airports conds_two !! 1%nat
      = Some (COLOR_CLEAR, false).
Proof.
  apply (blank_line_is_placeholder (RT := decimal_runtime)
           (source_config true) env_with_blank initial_world
           airports_with_blank 1
           (String " " (String "009"%char (String "010"%char "")))
           conds_two).
  - reflexivity.
  - reflexivity.
  - reflexivity.
Defined.

Lemma station_dark_iff_witness :
  ∃ colour animate,
    calc_target_colors (source_config true) ["KBOS"; "NULL"; "KJFK"]
      conds_two !! 0%nat = Some (colour, animate)
    ∧ (colour = COLOR_CLEAR
       ↔ lightning cond_windy = false
         ∧ flightCategory cond_windy ∉ recognised_categories).
Proof.
  apply (station_dark_iff (RT := decimal_runtime) (source_config true)
           ["KBOS"; "NULL"; "KJFK"] conds_two 0 "KBOS" cond_windy).
  - reflexivity.
  - discriminate.
  - reflexivity.
Defined.

Lemma lit_colour_identifies_witness :
  lightning cond_windy = lightning cond_stale_time
  ∧ (lightning cond_windy = false
     → flightCategory cond_windy = flightCategory cond_stale_time).
Proof.
  apply (lit_colour_identifies (RT := decimal_runtime) (source_config true)
           conds_two_vfr "KBOS" "KLAX" cond_windy cond_stale_time).
  - discriminate.
  - discriminate.
  - reflexivity.
  - reflexivity.
  - reflexivity.
  - vm_compute. discriminate.
Defined.

Lemma animated_only_with_wind_witness :
  ∃ code (c : @condition decimal_runtime),
    ["KBOS"; "NULL"; "KJFK"] !! 0%nat = Some code
    ∧ code ≠ ""
    ∧ conds_two !! code = Some c
    ∧ ACTIVATE_WINDCONDITION_ANIMATION (source_config true) = true
    ∧ (WIND_BLINK_THRESHOLD (source_config true) < windSpeed c
       ∨ windGust c = true).
Proof.
  apply (animated_only_with_wind (RT := decimal_runtime) (source_config true)
           ["KBOS"; "NULL"; "KJFK"] conds_two 0 COLOR_VFR).
  reflexivity.
Defined.

Lemma blinkme_writes_witness :
  writes_to 0
    (trace (blinkme (source_config true) (λ _, DONTSTOP) 0 COLOR_VFR
              (5 # 1) (2 # 1) 0))
  = concat (replicate
              (cycles_of
                 (trace (blinkme (source_config true) (λ _, DONTSTOP) 0
                           COLOR_VFR (5 # 1) (2 # 1) 0)))
              [COLOR_CLEAR; COLOR_VFR]).
Proof.
  apply (blinkme_writes (source_config true) (λ _, DONTSTOP) 0 COLOR_VFR
           (5 # 1) (2 # 1) 0).
  intros e. vm_compute. discriminate.
Defined.

Lemma blinkme_duration_witness :
  (finish (blinkme (source_config true) (raised_at (1 # 2) 0) 0 COLOR_VFR
             (9 # 1) (2 # 1) 0)
   == 0 + inject_Z (Z.of_nat
                      (cycles_of
                         (trace (blinkme (source_config true)
                                   (raised_at (1 # 2) 0) 0 COLOR_VFR
                                   (9 # 1) (2 # 1) 0)))) * (2 # 1))%Q
  ∧ (∀ numblinks,
       int_quotient (9 # 1) (2 # 1) = Ok numblinks →
       (finish (blinkme (source_config true) (raised_at (1 # 2) 0) 0
                  COLOR_VFR (9 # 1) (2 # 1) 0)
        <= 0 + inject_Z (Z.max 0 numblinks) * (2 # 1))%Q).
Proof.
  apply (blinkme_duration (source_config true) (raised_at (1 # 2) 0) 0
           COLOR_VFR (9 # 1) (2 # 1) 0).
  reflexivity.
Defined.

Lemma blinkme_raises_witness :
  blinkme (source_config true) (λ _, DONTSTOP) 50 COLOR_VFR (9 # 1) (2 # 1) 0
  = {| trace := []; finish := 0; exit := Crashed IndexError |}.
Proof.
  destruct (blinkme_raises (source_config true) (λ _, DONTSTOP) 50 COLOR_VFR
              (9 # 1) (2 # 1) 0) as (_ & _ & _ & Hbound).
  assert (Hq : int_quotient (9 # 1) (2 # 1) = Ok 4)
    by (vm_compute; reflexivity).
  destruct (Hbound 4 Hq) as (_ & Hindex & _).
  apply Hindex; [lia|]. cbn. lia.
Defined.


Lemma threads_started_witness :
  length threadarray_kbos = length ledstate_kbos
  ∧ single_owner ledstate_kbos threadarray_kbos (pool world_one_thread_started)
  ∧ ∀ (p : nat) (c : color) (b : bool),
      ledstate_kbos !! p = Some (c, b) →
      if b then ∃ tid t, threadarray_kbos !! p = Some (Some tid)
                         ∧ pool world_one_thread_started !! tid = Some t
                         ∧ t_pixel t = p ∧ t_color t = c
                         ∧ t_start t = clock initial_world
      else threadarray_kbos !! p = Some None.
Proof.
  apply (threads_started (source_config true) ledstate_kbos initial_world
           world_one_thread_started threadarray_kbos).
  - reflexivity.
  - reflexivity.
Defined.

Lemma rotation_keeps_single_owner_witness :
  single_owner ledstate_kbos [Some 1%nat; None]
    (pool (for_each (rotate_station (RT := decimal_runtime) demo_config
                       ledstate_kbos conds_two)
             [(0%nat, "KBOS")] threadarray_kbos world_one_thread).2)
  ∧ (∀ tid1 tid2 t1 t2,
       pool (for_each (rotate_station (RT := decimal_runtime) demo_config
                         ledstate_kbos conds_two)
               [(0%nat, "KBOS")] threadarray_kbos world_one_thread).2
         !! tid1 = Some t1 →
       pool (for_each (rotate_station (RT := decimal_runtime) demo_config
                         ledstate_kbos conds_two)
               [(0%nat, "KBOS")] threadarray_kbos world_one_thread).2
         !! tid2 = Some t2 →
       t_pixel t1 = t_pixel t2 → tid1 = tid2)
  ∧ STOPFLAG (for_each (rotate_station (RT := decimal_runtime) demo_config
                          ledstate_kbos conds_two)
                [(0%nat, "KBOS")] threadarray_kbos world_one_thread).2
    = DONTSTOP.
Proof.
  apply (rotation_keeps_single_owner (RT := decimal_runtime) demo_config
           ledstate_kbos conds_two [(0%nat, "KBOS")] threadarray_kbos
           [Some 1%nat; None] world_one_thread).
  - exact single_owner_one_thread.
  - reflexivity.
  - vm_compute. reflexivity.
Defined.

Lemma empty_airports_file_raises_witness :
  cycle (RT := decimal_runtime) (source_config true) env_no_airports
    initial_world
  = (Raise ZeroDivisionError,
     (get_weather (RT := decimal_runtime) (source_config true)
        (data_server env_no_airports) []
        (initialize_display_and_leds (source_config true) initial_world).2).2).
Proof.
  apply (empty_airports_file_raises (RT := decimal_runtime)
           (source_config true) env_no_airports initial_world _ ∅).
  - reflexivity.
  - vm_compute. reflexivity.
Defined.

Lemma too_many_stations_raises_witness :
  ∃ w1,
    get_weather (RT := decimal_runtime) one_pixel_config
      (data_server env_with_blank) (map strip airports_with_blank)
      (initialize_display_and_leds one_pixel_config initial_world).2
    = (Ok conds_kbos, w1)
    ∧ cycle (RT := decimal_runtime) one_pixel_config env_with_blank
        initial_world
      = (Raise IndexError,
         set_world w1 (clock w1) (pool w1)
           (paint_events
              (calc_target_colors one_pixel_config
                 (map strip airports_with_blank) conds_kbos)
              (seq 0 (LED_COUNT one_pixel_config)))).
Proof.
  exists (get_weather (RT := decimal_runtime) one_pixel_config
            (data_server env_with_blank) (map strip airports_with_blank)
            (initialize_display_and_leds one_pixel_config
               initial_world).2).2.
  split; [vm_compute; reflexivity|].
  apply (too_many_stations_raises (RT := decimal_runtime) one_pixel_config
           env_with_blank initial_world _ airports_with_blank
           conds_kbos).
  - reflexivity.
  - vm_compute. lia.
  - vm_compute. reflexivity.
  - vm_compute. reflexivity.
Defined.

Lemma display_loop_clean_slate_witness :
  pool (main_loop (RT := decimal_runtime) demo_config [env_windy; env_windy]
          initial_world).2 = ∅
  ∧ STOPFLAG (main_loop (RT := decimal_runtime) demo_config
                [env_windy; env_windy] initial_world).2 = DONTSTOP.
Proof.
  apply (display_loop_clean_slate (RT := decimal_runtime) demo_config
           [env_windy; env_windy] initial_world).
  - reflexivity.
  - reflexivity.
  - reflexivity.
  - vm_compute. reflexivity.
Defined.

(** The numbers of the source configuration are floats; [FAST_BLINK_SPEED]
    is the float nearest to the literal 0.1. *)
Lemma source_config_floats (display : bool) :
  is_float (BLINK_SPEED (source_config display))
  ∧ is_float (REFRESH_TIME_SECONDS (source_config display))
  ∧ is_float (DISPLAY_ROTATION_SPEED (source_config display))
  ∧ is_float (FAST_BLINK_SPEED (source_config display))
  ∧ nearest_float (1 # 10) = Some (FAST_BLINK_SPEED (source_config display)).
Proof.
  split; [vm_compute; reflexivity|]. split; [vm_compute; reflexivity|].
  split; [vm_compute; reflexivity|]. split; [vm_compute; reflexivity|].
  vm_compute. reflexivity.
Qed.

Lemma fast_blink_runs_full_witness :
  int_quotient (DISPLAY_ROTATION_SPEED (source_config true))
    (FAST_BLINK_SPEED (source_config true)) = Ok 50
  ∧ ∃ numblinks evs,
    int_quotient (DISPLAY_ROTATION_SPEED (source_config true))
      (FAST_BLINK_SPEED (source_config true)) = Ok numblinks
    ∧ out world_fast_blinked = (out initial_world ++ evs)%list
    ∧ Z.of_nat (cycles_of evs) = Z.max 0 numblinks
    ∧ (clock world_fast_blinked
       == clock initial_world
          + inject_Z (Z.max 0 numblinks)
            * FAST_BLINK_SPEED (source_config true))%Q
    ∧ pool world_fast_blinked = pool initial_world
    ∧ STOPFLAG world_fast_blinked = DONTSTOP.
Proof.
  split; [vm_compute; reflexivity|].
  apply (fast_blink_runs_full (source_config true) 0 COLOR_VFR
           (DISPLAY_ROTATION_SPEED (source_config true))
           (FAST_BLINK_SPEED (source_config true)) initial_world
           world_fast_blinked).
  - reflexivity.
  - vm_compute. reflexivity.
Defined.

Lemma pass_without_display_keeps_threads_witness :
  pool initial_world
    ⊆ pool (cycle (RT := decimal_runtime) (source_config false) env_windy
              initial_world).2
  ∧ STOPFLAG (cycle (RT := decimal_runtime) (source_config false) env_windy
                initial_world).2 = STOPFLAG initial_world
  ∧ clock (cycle (RT := decimal_runtime) (source_config false) env_windy
             initial_world).2
    = (clock initial_world + REFRESH_TIME_SECONDS (source_config false))%Q
  ∧ ∃ lines conds w1,
      airports_file env_windy = Some lines
      ∧ get_weather (RT := decimal_runtime) (source_config false)
          (data_server env_windy) (map strip lines)
          (initialize_display_and_leds (source_config false)
             initial_world).2 = (Ok conds, w1)
      ∧ ∀ (p : nat) (c : color),
          calc_target_colors (source_config false) (map strip lines) conds
            !! p = Some (c, true) →
          ∃ tid, (next_tid initial_world ≤ tid)%nat
                 ∧ pool (cycle (RT := decimal_runtime) (source_config false)
                           env_windy initial_world).2 !! tid
                   = Some {| t_pixel := p; t_color := c;
                             t_time := 9999 # 1;
                             t_rate := BLINK_SPEED (source_config false);
                             t_start := clock initial_world |}.
Proof.
  apply (pass_without_display_keeps_threads (RT := decimal_runtime)
           (source_config false) env_windy initial_world).
  - reflexivity.
  - exact fresh_tids_initial.
  - vm_compute. reflexivity.
Defined.

Lemma unreported_station_is_dark_witness :
  (∅ : gmap string (@condition decimal_runtime)) !! "KBOS" = None
  ∧ calc_target_colors (source_config true) ["KBOS"]
      (∅ : gmap string (@condition decimal_runtime)) !! 0%nat
    = Some (COLOR_CLEAR, false).
Proof.
  apply (unreported_station_is_dark (RT := decimal_runtime)
           (source_config true) (λ _, Document [metar_no_category]) ["KBOS"]
           [metar_no_category] initial_world
           (get_weather (RT := decimal_runtime) (source_config true)
              (λ _, Document [metar_no_category]) ["KBOS"]
              initial_world).2).
  - reflexivity.
  - reflexivity.
  - constructor; [|constructor]. intros [_ H]. by apply H.
  - reflexivity.
Defined.
